(** * Model catalog: provider model discovery health

    A shallow embedding of [framework/modelcatalog] (files
    [provider_models_health.go], [provider_models.go], [default_models.go])
    together with the properties of the discovery health tracker, the health
    report aggregator and the persisted health payload. *)

From Stdlib Require Import Ascii.
From stdpp Require Import base numbers strings list sorting gmap fin_maps fin_sets.

#[local] Set Warnings "-clear-no-such-hyp".

Local Open Scope string_scope.
Local Open Scope Z_scope.

(** ** Package [time] *)

(** A [time.Time] without monotonic reading (every instant of the catalog goes
    through [UTC()], which strips it) is an instant on the wall clock.  It is
    represented by the number of nanoseconds elapsed since the zero value of
    [time.Time] (January 1, year 1, 00:00:00 UTC); negative numbers are the
    instants before it.  A [time.Duration] is an [int64] of nanoseconds. *)
Module time.

Definition Time := Z.
Definition Duration := Z.

Definition Nanosecond : Duration := 1.
Definition Microsecond : Duration := 1000 * Nanosecond.
Definition Millisecond : Duration := 1000 * Microsecond.
Definition Second : Duration := 1000 * Millisecond.
Definition Minute : Duration := 60 * Second.
Definition Hour : Duration := 60 * Minute.

Definition minDuration : Duration := - 2 ^ 63.
Definition maxDuration : Duration := 2 ^ 63 - 1.

(** The zero value [time.Time{}]. *)
Definition zero : Time := 0.

(** [t.IsZero()] *)
Definition IsZero (t : Time) : bool := t =? 0.

(** [t.Before(u)] *)
Definition Before (t u : Time) : bool := t <? u.

(** [t.Sub(u)]: the difference, saturated to the range of [Duration]. *)
Definition Sub (t u : Time) : Duration :=
  let d := t - u in
  if d <? minDuration then minDuration
  else if maxDuration <? d then maxDuration
  else d.

(** [int64(d.Seconds())].  [Seconds] computes
    [float64(d / Second) + float64(d % Second) / 1e9]; for a whole number of
    seconds below [2^53] the float is exact and the conversion gives back
    the quotient. *)
Definition Seconds_int64 (d : Duration) : Z := Z.quot d Second.

(** The first instants of the years 0 and 10000, counted from the zero
    time: the year 0 of the proleptic Gregorian calendar is a leap year
    of 366 days, and the years 1 to 9999 have 3652059 days. *)
Definition yearZero : Time := - (366 * 24 * Hour).
Definition yearTenThousand : Time := 3652059 * 24 * Hour.

(** Whether [t.MarshalJSON()] answers without error: a time in UTC is
    written in RFC 3339, which has four digits for the year, and the
    method refuses a year outside of the range [0, 9999]. *)
Definition MarshalJSON_ok (t : Time) : bool :=
  (yearZero <=? t) && (t <? yearTenThousand).

End time.

(** ** Constants and enumerations of [provider_models_health.go] *)

Definition DefaultProviderModelSnapshotStaleAfter : time.Duration := 24 * time.Hour.
Definition DefaultProviderModelHealthPersistDebounce : time.Duration := 500 * time.Millisecond.

(** [schemas.ModelProvider] is a string type: an open set of identifiers. *)
Abbreviation ModelProvider := string (only parsing).

(** [ProviderModelSource] is a string type; the empty string is the zero
    value a map lookup gives for an absent provider. *)
Abbreviation ProviderModelSource := string (only parsing).

Definition ProviderModelSourceUnknown : ProviderModelSource := "unknown".
Definition ProviderModelSourcePricingCatalog : ProviderModelSource := "pricing_catalog".
Definition ProviderModelSourcePersistedSnapshot : ProviderModelSource := "persisted_snapshot".
Definition ProviderModelSourceDefaultSeed : ProviderModelSource := "default_seed".
Definition ProviderModelSourceAllowedModels : ProviderModelSource := "allowed_models".
Definition ProviderModelSourceLiveDiscovery : ProviderModelSource := "live_discovery".

(** [ProviderModelHealthStatus]: the five declared constants. *)
Inductive ProviderModelHealthStatus : Set :=
  | ProviderModelHealthUnknown
  | ProviderModelHealthHealthy
  | ProviderModelHealthStale
  | ProviderModelHealthError
  | ProviderModelHealthDegraded.

Global Instance ProviderModelHealthStatus_eq_dec : EqDecision ProviderModelHealthStatus.
Proof. solve_decision. Defined.

(** The JSON spelling of a status. *)
Definition status_string (s : ProviderModelHealthStatus) : string :=
  match s with
  | ProviderModelHealthUnknown => "unknown"
  | ProviderModelHealthHealthy => "healthy"
  | ProviderModelHealthStale => "stale"
  | ProviderModelHealthError => "error"
  | ProviderModelHealthDegraded => "degraded"
  end.

(** ** Data model *)

(** [providerDiscoveryState].  [LastModelsCount] is a Go [int]; it only ever
    holds the number of distinct entries of a response slice, which is below
    [2^63], so it is kept as an unbounded integer. *)
Record providerDiscoveryState : Set := mkDiscoveryState {
  LastAttemptAt : time.Time;
  LastSuccessAt : time.Time;
  LastErrorAt : time.Time;
  LastError : string;
  LastModelsCount : Z
}.

(** [providerModelHealthState] *)
Record providerModelHealthState : Set := mkHealthState {
  Filtered : providerDiscoveryState;
  Unfiltered : providerDiscoveryState;
  LastSnapshotUpdated : time.Time
}.

(** The zero values Go gives for an absent map entry. *)
Definition zeroDiscoveryState : providerDiscoveryState :=
  mkDiscoveryState time.zero time.zero time.zero "" 0.

Definition zeroHealthState : providerModelHealthState :=
  mkHealthState zeroDiscoveryState zeroDiscoveryState time.zero.

(** [ProviderModelDiscoveryHealth]: the timestamps are pointers, [nil] when
    the state holds the zero time. *)
Record ProviderModelDiscoveryHealth : Set := mkDiscoveryHealth {
  dh_Status : ProviderModelHealthStatus;
  dh_LastAttemptAt : option time.Time;
  dh_LastSuccessAt : option time.Time;
  dh_LastErrorAt : option time.Time;
  dh_LastError : string;
  dh_LastModelsCount : Z
}.

(** ** Status derivation *)

(** The [switch] of [toProviderModelDiscoveryHealth]. *)
Definition discoveryStatus (state : providerDiscoveryState) (now : time.Time)
  : ProviderModelHealthStatus :=
  if time.IsZero state.(LastAttemptAt) then ProviderModelHealthUnknown
  else if negb (time.IsZero state.(LastErrorAt))
          && (time.IsZero state.(LastSuccessAt)
              || negb (time.Before state.(LastErrorAt) state.(LastSuccessAt)))
       then ProviderModelHealthError
  else if time.IsZero state.(LastSuccessAt) then ProviderModelHealthUnknown
  else if DefaultProviderModelSnapshotStaleAfter <? time.Sub now state.(LastSuccessAt)
       then ProviderModelHealthStale
  else ProviderModelHealthHealthy.

(** [&t] when [t] is not the zero time, [nil] otherwise. *)
Definition timePtr (t : time.Time) : option time.Time :=
  if negb (time.IsZero t) then Some t else None.

Definition toProviderModelDiscoveryHealth (state : providerDiscoveryState)
    (now : time.Time) : ProviderModelDiscoveryHealth :=
  {| dh_Status := discoveryStatus state now;
     dh_LastAttemptAt := timePtr state.(LastAttemptAt);
     dh_LastSuccessAt := timePtr state.(LastSuccessAt);
     dh_LastErrorAt := timePtr state.(LastErrorAt);
     dh_LastError := state.(LastError);
     dh_LastModelsCount := state.(LastModelsCount) |}.

(** [mergeProviderHealthStatus] *)
Definition mergeProviderHealthStatus (filtered unfiltered : ProviderModelHealthStatus)
  : ProviderModelHealthStatus :=
  if bool_decide (filtered = ProviderModelHealthError)
     || bool_decide (unfiltered = ProviderModelHealthError)
  then ProviderModelHealthError
  else if bool_decide (filtered = ProviderModelHealthStale)
          || bool_decide (unfiltered = ProviderModelHealthStale)
  then ProviderModelHealthStale
  else if bool_decide (filtered = ProviderModelHealthUnknown)
          && bool_decide (unfiltered = ProviderModelHealthUnknown)
  then ProviderModelHealthUnknown
  else if bool_decide (filtered = ProviderModelHealthUnknown)
          || bool_decide (unfiltered = ProviderModelHealthUnknown)
  then ProviderModelHealthDegraded
  else ProviderModelHealthHealthy.

(** ** Package [schemas] *)

(** The catalog reads these declarations of [core/schemas]; only the parts it
    touches are kept. *)
Module schemas.

(** [Model]: the catalog reads the identifier only. *)
Record Model : Set := mkModel { ID : string }.

(** [BifrostListModelsResponse] *)
Record BifrostListModelsResponse : Set := mkListModelsResponse {
  Data : list Model
}.

(** [ErrorField]: [ef_Error] is the wrapped Go [error], kept as the text its
    [Error()] method returns, [None] for a nil interface. *)
Record ErrorField : Set := mkErrorField {
  ef_Message : string;
  ef_Error : option string
}.

(** [BifrostError]: [be_Error] is the pointer field [Error *ErrorField]. *)
Record BifrostError : Set := mkBifrostError {
  be_Error : option ErrorField
}.

End schemas.

(** What the catalog calls in [core/schemas] and whose code is not part of
    this package: the model-string parser, the algorithmic base-name
    function and the provider identifiers that key the default seed table. *)
Class Schemas : Type := {
  ParseModelString : string → ModelProvider → ModelProvider * string;
  BaseModelName : string → string;
  GLM : ModelProvider;
  Minimax : ModelProvider;
  Deepseek : ModelProvider;
  Moonshot : ModelProvider;
  Volcengine : ModelProvider;
  Qwen : ModelProvider
}.

(** ** Discovery recording *)

(** [extractDiscoveryErrorMessage] *)
Definition extractDiscoveryErrorMessage (discoveryErr : option schemas.BifrostError)
  : string :=
  match discoveryErr with
  | None => ""
  | Some e =>
      match e.(schemas.be_Error) with
      | Some f =>
          if negb (String.eqb f.(schemas.ef_Message) "") then f.(schemas.ef_Message)
          else match f.(schemas.ef_Error) with
               | Some text => text
               | None => "model discovery failed"
               end
      | None => "model discovery failed"
      end
  end.

(** One iteration of the loop of [countProviderModelsInResponse]: the state
    is the running [count] and the [seenModels] set. *)
Definition countStep `{Schemas} (provider : ModelProvider)
    (acc : Z * gset string) (model : schemas.Model) : Z * gset string :=
  let '(parsedProvider, parsedModel) :=
    ParseModelString model.(schemas.ID) provider in
  if negb (String.eqb parsedProvider provider) then acc
  else if bool_decide (parsedModel ∈ acc.2) then acc
  else (acc.1 + 1, {[parsedModel]} ∪ acc.2).

(** [countProviderModelsInResponse] *)
Definition countProviderModelsInResponse `{Schemas} (provider : ModelProvider)
    (modelData : option schemas.BifrostListModelsResponse) : Z :=
  match modelData with
  | None => 0
  | Some r =>
      if (length r.(schemas.Data) =? 0)%nat then 0
      else (foldl (countStep provider) (0, ∅) r.(schemas.Data)).1
  end.

(** The writes of [RecordProviderModelDiscoveryResult] through [target]. *)
Definition recordOutcome `{Schemas} (now : time.Time) (provider : ModelProvider)
    (modelData : option schemas.BifrostListModelsResponse)
    (discoveryErr : option schemas.BifrostError)
    (target : providerDiscoveryState) : providerDiscoveryState :=
  match discoveryErr with
  | Some _ =>
      {| LastAttemptAt := now;
         LastSuccessAt := target.(LastSuccessAt);
         LastErrorAt := now;
         LastError := extractDiscoveryErrorMessage discoveryErr;
         LastModelsCount := target.(LastModelsCount) |}
  | None =>
      {| LastAttemptAt := now;
         LastSuccessAt := now;
         LastErrorAt := time.zero;
         LastError := "";
         LastModelsCount := countProviderModelsInResponse provider modelData |}
  end.

(** [target := &state.Filtered], or [&state.Unfiltered] when [unfiltered]:
    the write goes to one variant of the local copy [state]. *)
Definition updateTarget (unfiltered : bool)
    (f : providerDiscoveryState → providerDiscoveryState)
    (state : providerModelHealthState) : providerModelHealthState :=
  if unfiltered
  then {| Filtered := state.(Filtered);
          Unfiltered := f state.(Unfiltered);
          LastSnapshotUpdated := state.(LastSnapshotUpdated) |}
  else {| Filtered := f state.(Filtered);
          Unfiltered := state.(Unfiltered);
          LastSnapshotUpdated := state.(LastSnapshotUpdated) |}.

(** The variant [target] points to. *)
Definition targetOf (unfiltered : bool) (state : providerModelHealthState)
  : providerDiscoveryState :=
  if unfiltered then state.(Unfiltered) else state.(Filtered).

(** ** The catalog *)

(** [persistedProviderModelHealthState] *)
Record persistedProviderModelHealthState : Set := mkPersisted {
  p_Filtered : providerDiscoveryState;
  p_Unfiltered : providerDiscoveryState;
  p_LastSnapshotUpdated : time.Time;
  p_FilteredSource : ProviderModelSource;
  p_UnfilteredSource : ProviderModelSource
}.

(** [configstoreTables.TableModelPricing]: the columns that key the pricing
    dataset. *)
Record TableModelPricing : Set := mkPricing {
  Model : string;
  Provider : string;
  Mode : string
}.

(** The dynamic value behind the [configStore] interface field: whether its
    type has the methods of [providerModelHealthStore] and of
    [providerModelStore] (what the type assertions test), and the error its
    [UpdateConfig] answers with. *)
Record ConfigStore : Set := mkConfigStore {
  hasHealthStoreMethods : bool;
  hasModelStoreMethods : bool;
  UpdateConfig_error : option string
}.

(** A non-nil [providerModelHealthPersistCallback]; what the function does is
    outside the catalog, so only its identity is kept. *)
Inductive PersistCallback : Set := persistCallback (name : string).

(** [ModelCatalog]: the fields the health tracker, the report and the pool
    registry use.  Every map is keyed by provider identifier.
    [providerModelHealthPersistSignal] is a channel of capacity one: [None]
    is the nil channel (no worker started), [Some b] an open channel where
    [b] tells whether a token is buffered. *)
Record ModelCatalog : Type := mkCatalog {
  modelPool : gmap string (list string);
  unfilteredModelPool : gmap string (list string);
  providerModelSnapshots : gmap string (list string);
  providerModelSources : gmap string string;
  unfilteredProviderModelSources : gmap string string;
  providerModelHealth : gmap string providerModelHealthState;
  baseModelIndex : gmap string string;
  pricingData : gmap string TableModelPricing;
  configStore : option ConfigStore;
  providerModelHealthPersistCallback : option PersistCallback;
  providerModelHealthPersistSignal : option bool
}.

(** Go map reads: the zero value when the key is absent. *)
Definition healthOf (mc : ModelCatalog) (provider : ModelProvider)
  : providerModelHealthState :=
  default zeroHealthState (mc.(providerModelHealth) !! provider).

Definition sourceOf (sources : gmap string string) (provider : ModelProvider)
  : ProviderModelSource :=
  default "" (sources !! provider).

Definition modelsOf (pools : gmap string (list string)) (provider : ModelProvider)
  : list string :=
  default [] (pools !! provider).

(** Field updates. *)
Definition withHealth (h : gmap string providerModelHealthState) (mc : ModelCatalog)
  : ModelCatalog :=
  {| modelPool := mc.(modelPool);
     unfilteredModelPool := mc.(unfilteredModelPool);
     providerModelSnapshots := mc.(providerModelSnapshots);
     providerModelSources := mc.(providerModelSources);
     unfilteredProviderModelSources := mc.(unfilteredProviderModelSources);
     providerModelHealth := h;
     baseModelIndex := mc.(baseModelIndex);
     pricingData := mc.(pricingData);
     configStore := mc.(configStore);
     providerModelHealthPersistCallback := mc.(providerModelHealthPersistCallback);
     providerModelHealthPersistSignal := mc.(providerModelHealthPersistSignal) |}.

Definition withSignal (sig : option bool) (mc : ModelCatalog) : ModelCatalog :=
  {| modelPool := mc.(modelPool);
     unfilteredModelPool := mc.(unfilteredModelPool);
     providerModelSnapshots := mc.(providerModelSnapshots);
     providerModelSources := mc.(providerModelSources);
     unfilteredProviderModelSources := mc.(unfilteredProviderModelSources);
     providerModelHealth := mc.(providerModelHealth);
     baseModelIndex := mc.(baseModelIndex);
     pricingData := mc.(pricingData);
     configStore := mc.(configStore);
     providerModelHealthPersistCallback := mc.(providerModelHealthPersistCallback);
     providerModelHealthPersistSignal := sig |}.

(** The catalog of [newTestCatalog(nil, nil)]: empty maps, no store, no
    callback, no worker. *)
Definition emptyCatalog : ModelCatalog :=
  {| modelPool := ∅;
     unfilteredModelPool := ∅;
     providerModelSnapshots := ∅;
     providerModelSources := ∅;
     unfilteredProviderModelSources := ∅;
     providerModelHealth := ∅;
     baseModelIndex := ∅;
     pricingData := ∅;
     configStore := None;
     providerModelHealthPersistCallback := None;
     providerModelHealthPersistSignal := None |}.

(** ** Persisted payload *)

(** [isPersistedProviderModelHealthStateEmpty] *)
Definition isPersistedProviderModelHealthStateEmpty
    (entry : persistedProviderModelHealthState) : bool :=
  if negb (time.IsZero entry.(p_Filtered).(LastAttemptAt))
     || negb (time.IsZero entry.(p_Filtered).(LastSuccessAt))
     || negb (time.IsZero entry.(p_Filtered).(LastErrorAt))
     || negb (String.eqb entry.(p_Filtered).(LastError) "")
     || negb (entry.(p_Filtered).(LastModelsCount) =? 0)
  then false
  else if negb (time.IsZero entry.(p_Unfiltered).(LastAttemptAt))
     || negb (time.IsZero entry.(p_Unfiltered).(LastSuccessAt))
     || negb (time.IsZero entry.(p_Unfiltered).(LastErrorAt))
     || negb (String.eqb entry.(p_Unfiltered).(LastError) "")
     || negb (entry.(p_Unfiltered).(LastModelsCount) =? 0)
  then false
  else if negb (time.IsZero entry.(p_LastSnapshotUpdated)) then false
  else if negb (String.eqb entry.(p_FilteredSource) "")
          || negb (String.eqb entry.(p_UnfilteredSource) "")
  then false
  else true.

(** The [entry] built for one provider in the loop of
    [getPersistedProviderModelHealthState]. *)
Definition persistedEntry (mc : ModelCatalog) (provider : ModelProvider)
  : persistedProviderModelHealthState :=
  {| p_Filtered := (healthOf mc provider).(Filtered);
     p_Unfiltered := (healthOf mc provider).(Unfiltered);
     p_LastSnapshotUpdated := (healthOf mc provider).(LastSnapshotUpdated);
     p_FilteredSource := sourceOf mc.(providerModelSources) provider;
     p_UnfilteredSource := sourceOf mc.(unfilteredProviderModelSources) provider |}.

(** The key set [providers] collected by the three [range] loops. *)
Definition persistedProviderSet (mc : ModelCatalog) : gset string :=
  dom mc.(providerModelHealth) ∪ dom mc.(providerModelSources)
  ∪ dom mc.(unfilteredProviderModelSources).

(** The loop over [providers], in the order [range] enumerates them. *)
Definition persistedLoop (mc : ModelCatalog) (range : list ModelProvider)
  : gmap string persistedProviderModelHealthState :=
  foldl (λ persistedState provider,
           let entry := persistedEntry mc provider in
           if isPersistedProviderModelHealthStateEmpty entry then persistedState
           else <[provider := entry]> persistedState)
        ∅ range.

(** [getPersistedProviderModelHealthState] *)
Definition getPersistedProviderModelHealthState (mc : ModelCatalog)
  : gmap string persistedProviderModelHealthState :=
  persistedLoop mc (elements (persistedProviderSet mc)).

(** ** Package [sonic] *)

(** [sonic.Marshal] on the payload.  Strings, integers and maps with string
    keys always encode; a [time.Time] is encoded by its [MarshalJSON]
    method, whose error fails the whole call.  The encoded value is
    identified with the payload it encodes. *)
Module sonic.

Definition encodableDiscovery (state : providerDiscoveryState) : bool :=
  time.MarshalJSON_ok state.(LastAttemptAt)
  && time.MarshalJSON_ok state.(LastSuccessAt)
  && time.MarshalJSON_ok state.(LastErrorAt).

Definition encodable (entry : persistedProviderModelHealthState) : bool :=
  encodableDiscovery entry.(p_Filtered)
  && encodableDiscovery entry.(p_Unfiltered)
  && time.MarshalJSON_ok entry.(p_LastSnapshotUpdated).

Definition Marshal (payload : gmap string persistedProviderModelHealthState)
  : option (gmap string persistedProviderModelHealthState) :=
  if forallb (λ kv : string * persistedProviderModelHealthState, encodable kv.2)
       (map_to_list payload)
  then Some payload else None.

End sonic.

(** ** Persistence signalling *)

(** What a call does outside the catalog's own memory. *)
Inductive Effect : Type :=
  | SignalRaised
  | CallbackInvoked (cb : PersistCallback)
  | StoreUpdateConfig (payload : gmap string persistedProviderModelHealthState)
  | LogWarn (msg : string).

(** [getProviderModelHealthStore]: the store and the [ok] flag. *)
Definition getProviderModelHealthStore (mc : ModelCatalog) : option ConfigStore :=
  match mc.(configStore) with
  | None => None
  | Some store => if store.(hasHealthStoreMethods) then Some store else None
  end.

(** [shouldPersistProviderModelHealthState] *)
Definition shouldPersistProviderModelHealthState (mc : ModelCatalog) : bool :=
  match mc.(providerModelHealthPersistCallback) with
  | Some _ => true
  | None => bool_decide (is_Some (getProviderModelHealthStore mc))
  end.

(** [persistProviderModelHealthStateNow]: a payload that does not encode is
    logged and not written; an encoded payload is written under the fixed
    key [ConfigProviderModelHealthStateKey], and a failed write is logged. *)
Definition persistProviderModelHealthStateNow (mc : ModelCatalog) : list Effect :=
  match mc.(providerModelHealthPersistCallback) with
  | Some cb => [CallbackInvoked cb]
  | None =>
      match getProviderModelHealthStore mc with
      | None => []
      | Some store =>
          let payload := getPersistedProviderModelHealthState mc in
          match sonic.Marshal payload with
          | None => [LogWarn "failed to marshal provider model health state"]
          | Some payloadJSON =>
              match store.(UpdateConfig_error) with
              | None => [StoreUpdateConfig payloadJSON]
              | Some _ =>
                  [StoreUpdateConfig payloadJSON;
                   LogWarn "failed to persist provider model health state"]
              end
          end
      end
  end.

(** [persistProviderModelHealthState]: the non-blocking send puts a token in
    the channel when its buffer is free and drops it otherwise. *)
Definition persistProviderModelHealthState (mc : ModelCatalog)
  : ModelCatalog * list Effect :=
  if negb (shouldPersistProviderModelHealthState mc) then (mc, [])
  else match mc.(providerModelHealthPersistSignal) with
       | None => (mc, persistProviderModelHealthStateNow mc)
       | Some true => (mc, [])
       | Some false => (withSignal (Some true) mc, [SignalRaised])
       end.

(** The critical section of [RecordProviderModelDiscoveryResult]; [now] is
    the reading of [time.Now().UTC()]. *)
Definition recordLocked `{Schemas} (mc : ModelCatalog) (now : time.Time)
    (provider : ModelProvider) (unfiltered : bool)
    (modelData : option schemas.BifrostListModelsResponse)
    (discoveryErr : option schemas.BifrostError) : ModelCatalog :=
  let state := healthOf mc provider in
  let state := updateTarget unfiltered
                 (recordOutcome now provider modelData discoveryErr) state in
  withHealth (<[provider := state]> mc.(providerModelHealth)) mc.

(** [RecordProviderModelDiscoveryResult] *)
Definition RecordProviderModelDiscoveryResult `{Schemas} (mc : ModelCatalog)
    (now : time.Time) (provider : ModelProvider) (unfiltered : bool)
    (modelData : option schemas.BifrostListModelsResponse)
    (discoveryErr : option schemas.BifrostError) : ModelCatalog * list Effect :=
  persistProviderModelHealthState
    (recordLocked mc now provider unfiltered modelData discoveryErr).

(** [updateProviderModelHealthSnapshotUpdatedAtLocked] *)
Definition updateProviderModelHealthSnapshotUpdatedAtLocked (mc : ModelCatalog)
    (provider : ModelProvider) (updatedAt : time.Time) : ModelCatalog :=
  let state := healthOf mc provider in
  let state := {| Filtered := state.(Filtered);
                  Unfiltered := state.(Unfiltered);
                  LastSnapshotUpdated := updatedAt |} in
  withHealth (<[provider := state]> mc.(providerModelHealth)) mc.

(** ** Health report *)

(** [ProviderModelSnapshotHealth] *)
Record ProviderModelSnapshotHealth : Set := mkSnapshotHealth {
  sh_Provider : ModelProvider;
  sh_Status : ProviderModelHealthStatus;
  sh_SnapshotModelCount : Z;
  sh_FilteredModelCount : Z;
  sh_UnfilteredModelCount : Z;
  sh_FilteredSource : ProviderModelSource;
  sh_UnfilteredSource : ProviderModelSource;
  sh_LastSnapshotUpdated : option time.Time;
  sh_FilteredDiscovery : ProviderModelDiscoveryHealth;
  sh_UnfilteredDiscovery : ProviderModelDiscoveryHealth
}.

(** [ProviderModelSnapshotHealthSummary] *)
Record ProviderModelSnapshotHealthSummary : Set := mkSummary {
  TotalProviders : Z;
  HealthyProviders : Z;
  StaleProviders : Z;
  ErrorProviders : Z;
  DegradedProviders : Z;
  UnknownProviders : Z
}.

(** [ProviderModelSnapshotHealthReport] *)
Record ProviderModelSnapshotHealthReport : Set := mkReport {
  Status : ProviderModelHealthStatus;
  GeneratedAt : time.Time;
  StaleAfterSeconds : Z;
  Summary : ProviderModelSnapshotHealthSummary;
  Providers : list ProviderModelSnapshotHealth
}.

Definition zeroSummary : ProviderModelSnapshotHealthSummary :=
  mkSummary 0 0 0 0 0 0.

(** The key set [providerSet] collected by the six [range] loops. *)
Definition providerSet (mc : ModelCatalog) : gset string :=
  dom mc.(modelPool) ∪ dom mc.(unfilteredModelPool)
  ∪ dom mc.(providerModelSnapshots) ∪ dom mc.(providerModelHealth)
  ∪ dom mc.(providerModelSources) ∪ dom mc.(unfilteredProviderModelSources).

(** [sort.Slice(providers, func(i, j) { return providers[i] < providers[j] })]:
    Go compares strings byte by byte, which is [String.le]; the library
    routine is taken by its contract, an ascending rearrangement. *)
Definition sortProviders (providers : list ModelProvider) : list ModelProvider :=
  merge_sort String.le providers.

(** A source tag read for the report: ["unknown"] replaces the empty tag. *)
Definition reportSource (sources : gmap string string) (provider : ModelProvider)
  : ProviderModelSource :=
  let source := sourceOf sources provider in
  if String.eqb source "" then ProviderModelSourceUnknown else source.

(** The [item] built for one provider. *)
Definition reportItem (mc : ModelCatalog) (now : time.Time) (provider : ModelProvider)
  : ProviderModelSnapshotHealth :=
  let state := healthOf mc provider in
  let filteredDiscovery := toProviderModelDiscoveryHealth state.(Filtered) now in
  let unfilteredDiscovery := toProviderModelDiscoveryHealth state.(Unfiltered) now in
  {| sh_Provider := provider;
     sh_Status := mergeProviderHealthStatus filteredDiscovery.(dh_Status)
                    unfilteredDiscovery.(dh_Status);
     sh_SnapshotModelCount :=
       Z.of_nat (length (modelsOf mc.(providerModelSnapshots) provider));
     sh_FilteredModelCount := Z.of_nat (length (modelsOf mc.(modelPool) provider));
     sh_UnfilteredModelCount :=
       Z.of_nat (length (modelsOf mc.(unfilteredModelPool) provider));
     sh_FilteredSource := reportSource mc.(providerModelSources) provider;
     sh_UnfilteredSource := reportSource mc.(unfilteredProviderModelSources) provider;
     sh_LastSnapshotUpdated := timePtr state.(LastSnapshotUpdated);
     sh_FilteredDiscovery := filteredDiscovery;
     sh_UnfilteredDiscovery := unfilteredDiscovery |}.

(** The counters touched for one provider: the total and the one of its
    status ([default] is the unknown counter). *)
Definition countStatus (summary : ProviderModelSnapshotHealthSummary)
    (status : ProviderModelHealthStatus) : ProviderModelSnapshotHealthSummary :=
  let total := summary.(TotalProviders) + 1 in
  match status with
  | ProviderModelHealthHealthy =>
      mkSummary total (summary.(HealthyProviders) + 1) summary.(StaleProviders)
        summary.(ErrorProviders) summary.(DegradedProviders) summary.(UnknownProviders)
  | ProviderModelHealthStale =>
      mkSummary total summary.(HealthyProviders) (summary.(StaleProviders) + 1)
        summary.(ErrorProviders) summary.(DegradedProviders) summary.(UnknownProviders)
  | ProviderModelHealthError =>
      mkSummary total summary.(HealthyProviders) summary.(StaleProviders)
        (summary.(ErrorProviders) + 1) summary.(DegradedProviders)
        summary.(UnknownProviders)
  | ProviderModelHealthDegraded =>
      mkSummary total summary.(HealthyProviders) summary.(StaleProviders)
        summary.(ErrorProviders) (summary.(DegradedProviders) + 1)
        summary.(UnknownProviders)
  | ProviderModelHealthUnknown =>
      mkSummary total summary.(HealthyProviders) summary.(StaleProviders)
        summary.(ErrorProviders) summary.(DegradedProviders)
        (summary.(UnknownProviders) + 1)
  end.

(** One iteration of the loop over the sorted providers. *)
Definition reportStep (mc : ModelCatalog) (now : time.Time)
    (acc : list ProviderModelSnapshotHealth * ProviderModelSnapshotHealthSummary)
    (provider : ModelProvider)
  : list ProviderModelSnapshotHealth * ProviderModelSnapshotHealthSummary :=
  let item := reportItem mc now provider in
  ((acc.1 ++ [item])%list, countStatus acc.2 item.(sh_Status)).

(** The [switch] that derives [reportStatus] from the summary. *)
Definition reportStatusOf (summary : ProviderModelSnapshotHealthSummary)
  : ProviderModelHealthStatus :=
  if summary.(TotalProviders) =? 0 then ProviderModelHealthUnknown
  else if 0 <? summary.(ErrorProviders) then ProviderModelHealthError
  else if (0 <? summary.(StaleProviders)) || (0 <? summary.(DegradedProviders))
  then ProviderModelHealthDegraded
  else if 0 <? summary.(HealthyProviders) then ProviderModelHealthHealthy
  else ProviderModelHealthUnknown.

(** The body of [GetProviderModelSnapshotHealthReport] once the keys of
    [providerSet] have been appended to [providers], in the order [range] in
    which the runtime enumerated the set. *)
Definition reportOver (range : list ModelProvider) (mc : ModelCatalog)
    (now : time.Time) : ProviderModelSnapshotHealthReport :=
  let providers := sortProviders range in
  let '(items, summary) := foldl (reportStep mc now) ([], zeroSummary) providers in
  {| Status := reportStatusOf summary;
     GeneratedAt := now;
     StaleAfterSeconds := time.Seconds_int64 DefaultProviderModelSnapshotStaleAfter;
     Summary := summary;
     Providers := items |}.

(** [GetProviderModelSnapshotHealthReport]; [now] is the reading of
    [time.Now().UTC()]. *)
Definition GetProviderModelSnapshotHealthReport (mc : ModelCatalog)
    (now : time.Time) : ProviderModelSnapshotHealthReport :=
  reportOver (elements (providerSet mc)) mc now.

(** A report with its generation timestamp replaced. *)
Definition withGeneratedAt (t : time.Time) (r : ProviderModelSnapshotHealthReport)
  : ProviderModelSnapshotHealthReport :=
  {| Status := r.(Status);
     GeneratedAt := t;
     StaleAfterSeconds := r.(StaleAfterSeconds);
     Summary := r.(Summary);
     Providers := r.(Providers) |}.

(** ** Default seed models ([default_models.go]) *)

(** [defaultProviderModels]: a map literal, so its keys are distinct. *)
Definition defaultProviderModels `{Schemas} : gmap string (list string) :=
  list_to_map
    [ (GLM,
       ["glm-5"; "glm-4.7"; "glm-4.7x"; "glm-4.7-flash"; "glm-4.7-flashx";
        "glm-4.6"; "glm-4.6v"; "glm-4.6v-flash"; "glm-4.5"; "glm-4.5-air";
        "glm-4.5-airx"; "glm-z1-air"; "glm-z1-airx"; "glm-z1-flash";
        "glm-z1-flashx"; "glm-z1-thinking"; "glm-z1-rumination"]);
      (Minimax,
       ["MiniMax-M2.5"; "MiniMax-M2"; "MiniMax-M2.1"; "MiniMax-M2.5-lightning";
        "MiniMax-M2.1-lightning"; "speech-2.6-hd"; "speech-2.6-turbo";
        "speech-02-hd"; "speech-02-turbo"]);
      (Deepseek, ["deepseek-chat"; "deepseek-reasoner"]);
      (Moonshot,
       ["kimi-k2.5"; "kimi-k2-thinking"; "kimi-k2-thinking-turbo"; "kimi-latest";
        "kimi-latest-8k"; "kimi-latest-32k"; "kimi-latest-128k"]);
      (Volcengine,
       ["doubao-embedding"; "doubao-embedding-text-240715";
        "doubao-embedding-large"; "doubao-embedding-large-text-240915";
        "doubao-embedding-large-text-250515"; "deepseek-v3-2-251201";
        "glm-4-7-251222"; "kimi-k2-thinking-251104"]);
      (Qwen,
       ["qwen-plus-latest"; "qwen-plus"; "qwen-turbo-latest"; "qwen-turbo";
        "qwen-max-latest"; "qwen3-max-preview"; "qwen3-coder-plus";
        "qwen3-coder-480b-a35b-instruct"]) ].

(** [getDefaultModelsForProvider]: a copy of the seed list, [nil] (the empty
    list) for a provider without one. *)
Definition getDefaultModelsForProvider `{Schemas} (provider : ModelProvider)
  : list string :=
  match defaultProviderModels !! provider with
  | None => []
  | Some models => models
  end.

(** [appendUniqueModels]: the loop state is [target] and [seenModels]. *)
Definition appendUniqueModels (target candidates : list string) : list string :=
  if (length candidates =? 0)%nat then target
  else
    (foldl (λ (acc : list string * gset string) model,
              if bool_decide (model ∈ acc.2) then acc
              else ((acc.1 ++ [model])%list, {[model]} ∪ acc.2))
           (target, list_to_set target) candidates).1.

(** ** Pool resolution *)

(** The first occurrence of the delimiter [/] splits a model string into its
    provider prefix and the remainder. *)
Fixpoint splitProviderPrefix (model : string) : option (string * string) :=
  match model with
  | EmptyString => None
  | String c rest =>
      if Ascii.eqb c "/"%char then Some ("", rest)
      else match splitProviderPrefix rest with
           | Some (prefix, remainder) => Some (String c prefix, remainder)
           | None => None
           end
  end.

(** Modelled from the spec: [GetBaseModelName] of [main.go], which is not
    among the sources.  Section 4.1: drop the provider prefix up to the first
    delimiter, answer with the entry of the base model index when the working
    string has one, and with the algorithmic base name otherwise; the empty
    string stays empty. *)
Definition GetBaseModelName `{Schemas} (mc : ModelCatalog) (model : string) : string :=
  if String.eqb model "" then ""
  else
    let working := match splitProviderPrefix model with
                   | Some (_, remainder) => remainder
                   | None => model
                   end in
    match mc.(baseModelIndex) !! working with
    | Some base => base
    | None => BaseModelName working
    end.

(** Modelled from the spec: the pool a discovery response yields in
    [main.go], which is not among the sources.  Section 4.2: the entries
    whose parsed provider is the expected one, by base name, each once and in
    first-seen order. *)
Definition liveDiscoveryModels `{Schemas} (mc : ModelCatalog) (provider : ModelProvider)
    (modelData : option schemas.BifrostListModelsResponse) : list string :=
  match modelData with
  | None => []
  | Some r =>
      appendUniqueModels []
        (GetBaseModelName mc <$>
           ((λ model, model.(schemas.ID)) <$>
              filter (λ model, (ParseModelString model.(schemas.ID) provider).1 = provider)
                     r.(schemas.Data)))
  end.

(** Modelled from the spec: the pricing-catalog tier of [main.go], which is
    not among the sources.  Section 4.2 and 6: the models of the pricing
    entries of that provider, each once. *)
Definition pricingModelsForProvider (mc : ModelCatalog) (provider : ModelProvider)
  : list string :=
  appendUniqueModels []
    (Model <$> filter (λ entry, entry.(Provider) = provider)
                      ((map_to_list mc.(pricingData)).*2)).

(** Modelled from the spec: the fallback tiers of [main.go], which is not
    among the sources, in the precedence order of section 4.2 with the tag of
    each tier. *)
Definition fallbackTiers `{Schemas} (mc : ModelCatalog) (provider : ModelProvider)
  : list (ProviderModelSource * list string) :=
  [ (ProviderModelSourcePersistedSnapshot, modelsOf mc.(providerModelSnapshots) provider);
    (ProviderModelSourcePricingCatalog, pricingModelsForProvider mc provider);
    (ProviderModelSourceDefaultSeed, getDefaultModelsForProvider provider) ].

(** Modelled from the spec: the resolution over the tiers of [main.go], which
    is not among the sources.  Section 4.2 and 9: the candidates are tried in
    sequence and the first non-empty one wins. *)
Fixpoint firstNonEmptyTier (tiers : list (ProviderModelSource * list string))
  : option (ProviderModelSource * list string) :=
  match tiers with
  | [] => None
  | (source, models) :: rest =>
      if (length models =? 0)%nat then firstNonEmptyTier rest
      else Some (source, models)
  end.

(** Modelled from the spec: the pool resolution of the upsert operations of
    [main.go], which is not among the sources.  Section 4.2: a usable
    discovery result is taken with the tag [live_discovery], otherwise the
    fallback tiers decide. *)
Definition resolvePool `{Schemas} (mc : ModelCatalog) (provider : ModelProvider)
    (modelData : option schemas.BifrostListModelsResponse)
  : option (ProviderModelSource * list string) :=
  let live := liveDiscoveryModels mc provider modelData in
  if (length live =? 0)%nat then firstNonEmptyTier (fallbackTiers mc provider)
  else Some (ProviderModelSourceLiveDiscovery, live).

Definition withFilteredPool (provider : ModelProvider) (source : ProviderModelSource)
    (models : list string) (mc : ModelCatalog) : ModelCatalog :=
  {| modelPool := <[provider := models]> mc.(modelPool);
     unfilteredModelPool := mc.(unfilteredModelPool);
     providerModelSnapshots := mc.(providerModelSnapshots);
     providerModelSources := <[provider := source]> mc.(providerModelSources);
     unfilteredProviderModelSources := mc.(unfilteredProviderModelSources);
     providerModelHealth := mc.(providerModelHealth);
     baseModelIndex := mc.(baseModelIndex);
     pricingData := mc.(pricingData);
     configStore := mc.(configStore);
     providerModelHealthPersistCallback := mc.(providerModelHealthPersistCallback);
     providerModelHealthPersistSignal := mc.(providerModelHealthPersistSignal) |}.

Definition withUnfilteredPool (provider : ModelProvider) (source : ProviderModelSource)
    (models : list string) (mc : ModelCatalog) : ModelCatalog :=
  {| modelPool := mc.(modelPool);
     unfilteredModelPool := <[provider := models]> mc.(unfilteredModelPool);
     providerModelSnapshots := mc.(providerModelSnapshots);
     providerModelSources := mc.(providerModelSources);
     unfilteredProviderModelSources :=
       <[provider := source]> mc.(unfilteredProviderModelSources);
     providerModelHealth := mc.(providerModelHealth);
     baseModelIndex := mc.(baseModelIndex);
     pricingData := mc.(pricingData);
     configStore := mc.(configStore);
     providerModelHealthPersistCallback := mc.(providerModelHealthPersistCallback);
     providerModelHealthPersistSignal := mc.(providerModelHealthPersistSignal) |}.

Definition withSnapshot (provider : ModelProvider) (models : list string)
    (mc : ModelCatalog) : ModelCatalog :=
  {| modelPool := mc.(modelPool);
     unfilteredModelPool := mc.(unfilteredModelPool);
     providerModelSnapshots := <[provider := models]> mc.(providerModelSnapshots);
     providerModelSources := mc.(providerModelSources);
     unfilteredProviderModelSources := mc.(unfilteredProviderModelSources);
     providerModelHealth := mc.(providerModelHealth);
     baseModelIndex := mc.(baseModelIndex);
     pricingData := mc.(pricingData);
     configStore := mc.(configStore);
     providerModelHealthPersistCallback := mc.(providerModelHealthPersistCallback);
     providerModelHealthPersistSignal := mc.(providerModelHealthPersistSignal) |}.

(** Modelled from the spec: [UpsertModelDataForProvider] of [main.go], which
    is not among the sources.  Section 4.2: the filtered pool and its source
    tag are replaced by the resolved pool and the tag of what produced it;
    the spec names no result when the response is unusable and every tier is
    empty, and the pool is then left as it is.  Section 2: the mutation
    signals the persistence worker. *)
Definition UpsertModelDataForProvider `{Schemas} (mc : ModelCatalog)
    (provider : ModelProvider)
    (modelData : option schemas.BifrostListModelsResponse)
    (discoveryErr : option schemas.BifrostError) : ModelCatalog * list Effect :=
  match resolvePool mc provider modelData with
  | Some (source, models) =>
      persistProviderModelHealthState (withFilteredPool provider source models mc)
  | None => (mc, [])
  end.

(** Modelled from the spec: [UpsertUnfilteredModelDataForProvider] of
    [main.go], which is not among the sources.  Section 4.2: as the filtered
    variant on the unfiltered pool; a live result also replaces the durable
    snapshot, which no fallback result ever touches, and the time of that
    replacement is kept in the health state (the report of the package tests
    shows it).  [now] is the reading of the clock. *)
Definition UpsertUnfilteredModelDataForProvider `{Schemas} (mc : ModelCatalog)
    (now : time.Time) (provider : ModelProvider)
    (modelData : option schemas.BifrostListModelsResponse)
  : ModelCatalog * list Effect :=
  match resolvePool mc provider modelData with
  | Some (source, models) =>
      let mc := withUnfilteredPool provider source models mc in
      let mc :=
        if String.eqb source ProviderModelSourceLiveDiscovery
        then updateProviderModelHealthSnapshotUpdatedAtLocked
               (withSnapshot provider models mc) provider now
        else mc in
      persistProviderModelHealthState mc
  | None => (mc, [])
  end.

(** Modelled from the spec: [ParseModelString] and the provider identifiers
    of [core/schemas], which are not among the sources.  Section 4.1 and
    scenario A: a model string with a provider-prefix delimiter splits at its
    first occurrence into the provider and the model; without one the
    expected provider passed by the caller is answered with the string
    unchanged.  The identifiers are the prefixes the discovery entries
    carry. *)
Definition parseModelString (model : string) (defaultProvider : ModelProvider)
  : ModelProvider * string :=
  match splitProviderPrefix model with
  | Some (prefix, remainder) => (prefix, remainder)
  | None => (defaultProvider, model)
  end.

(** The instance the scenarios run with; the algorithmic base name is only
    ever applied here to names without a date suffix, which it returns
    unchanged. *)
Definition scenarioSchemas : Schemas :=
  {| ParseModelString := parseModelString;
     BaseModelName := λ model, model;
     GLM := "glm";
     Minimax := "minimax";
     Deepseek := "deepseek";
     Moonshot := "moonshot";
     Volcengine := "volcengine";
     Qwen := "qwen" |}.
(** ** The status table of the specification *)

(** "No newer error": no error is recorded, or the recorded one is strictly
    before the recorded success. *)
Definition noNewerError (state : providerDiscoveryState) : Prop :=
  state.(LastErrorAt) = time.zero ∨ state.(LastErrorAt) < state.(LastSuccessAt).

(** The rows of the table, read top to bottom; elapsed time is the exact
    difference of the two instants. *)
Inductive statusTable (state : providerDiscoveryState) (now : time.Time)
  : ProviderModelHealthStatus → Prop :=
  | row_no_attempt :
      state.(LastAttemptAt) = time.zero →
      statusTable state now ProviderModelHealthUnknown
  | row_error :
      state.(LastAttemptAt) ≠ time.zero →
      state.(LastErrorAt) ≠ time.zero →
      (state.(LastSuccessAt) = time.zero
       ∨ ¬ state.(LastErrorAt) < state.(LastSuccessAt)) →
      statusTable state now ProviderModelHealthError
  | row_stale :
      state.(LastAttemptAt) ≠ time.zero →
      state.(LastSuccessAt) ≠ time.zero →
      noNewerError state →
      now - state.(LastSuccessAt) > DefaultProviderModelSnapshotStaleAfter →
      statusTable state now ProviderModelHealthStale
  | row_healthy :
      state.(LastAttemptAt) ≠ time.zero →
      state.(LastSuccessAt) ≠ time.zero →
      noNewerError state →
      now - state.(LastSuccessAt) ≤ DefaultProviderModelSnapshotStaleAfter →
      statusTable state now ProviderModelHealthHealthy
  | row_attempt_only :
      state.(LastAttemptAt) ≠ time.zero →
      state.(LastSuccessAt) = time.zero →
      state.(LastErrorAt) = time.zero →
      statusTable state now ProviderModelHealthUnknown.

(** The names the specification counts: the parsed model names of the entries
    of a response whose parsed provider is the expected one. *)
Definition parsedModelsOfProvider `{Schemas} (provider : ModelProvider)
    (data : list schemas.Model) : list string :=
  (λ model, (ParseModelString model.(schemas.ID) provider).2)
    <$> filter (λ model, (ParseModelString model.(schemas.ID) provider).1 = provider)
               data.

(** Their number, each distinct name counted once; a nil response has none. *)
Definition distinctModelsOfProvider `{Schemas} (provider : ModelProvider)
    (modelData : option schemas.BifrostListModelsResponse) : Z :=
  match modelData with
  | None => 0
  | Some r =>
      Z.of_nat (size (list_to_set (parsedModelsOfProvider provider r.(schemas.Data))
                        : gset string))
  end.

(** An all-zero attempt state: no timestamp, no message, zero count. *)
Definition allZeroDiscovery (state : providerDiscoveryState) : Prop :=
  state.(LastAttemptAt) = time.zero
  ∧ state.(LastSuccessAt) = time.zero
  ∧ state.(LastErrorAt) = time.zero
  ∧ state.(LastError) = ""
  ∧ state.(LastModelsCount) = 0.

(** An all-zero persisted record: both variants all-zero, a zero
    last-snapshot-updated time and both source tags empty. *)
Definition allZeroRecord (entry : persistedProviderModelHealthState) : Prop :=
  allZeroDiscovery entry.(p_Filtered)
  ∧ allZeroDiscovery entry.(p_Unfiltered)
  ∧ entry.(p_LastSnapshotUpdated) = time.zero
  ∧ entry.(p_FilteredSource) = ""
  ∧ entry.(p_UnfilteredSource) = "".

(** The number of report items with a given merged status. *)
Definition countWithStatus (status : ProviderModelHealthStatus)
    (items : list ProviderModelSnapshotHealth) : Z :=
  Z.of_nat (length (filter (λ item, item.(sh_Status) = status) items)).

(** The counter of the summary that belongs to a status. *)
Definition summaryCounter (status : ProviderModelHealthStatus)
    (summary : ProviderModelSnapshotHealthSummary) : Z :=
  match status with
  | ProviderModelHealthUnknown => summary.(UnknownProviders)
  | ProviderModelHealthHealthy => summary.(HealthyProviders)
  | ProviderModelHealthStale => summary.(StaleProviders)
  | ProviderModelHealthError => summary.(ErrorProviders)
  | ProviderModelHealthDegraded => summary.(DegradedProviders)
  end.

(** Go's [<] on provider identifiers. *)
Definition providerLess (a b : ModelProvider) : Prop := String.ltb a b = true.

(** The age of the last success of a variant is on the same side of the
    staleness threshold at both instants. *)
Definition sameSideOfThreshold (now1 now2 : time.Time)
    (state : providerDiscoveryState) : Prop :=
  now1 - state.(LastSuccessAt) > DefaultProviderModelSnapshotStaleAfter
  ↔ now2 - state.(LastSuccessAt) > DefaultProviderModelSnapshotStaleAfter.

(** The catalog after a successful discovery of both variants of one
    provider, recorded at the instant 1000 on a fresh catalog. *)
Definition discoveredCatalog : ModelCatalog :=
  let modelData := Some (schemas.mkListModelsResponse [schemas.mkModel "glm/glm-5"]) in
  let mc := (@RecordProviderModelDiscoveryResult scenarioSchemas emptyCatalog
               1000 "glm" false modelData None).1 in
  (@RecordProviderModelDiscoveryResult scenarioSchemas mc 1000 "glm" true
     modelData None).1.

(** The catalog of the package test that prefers the persisted snapshot: one
    pricing entry and a one-model snapshot for the same provider. *)
Definition snapshotAndPricingCatalog : ModelCatalog :=
  {| modelPool := ∅;
     unfilteredModelPool := ∅;
     providerModelSnapshots := {[ "glm" := ["glm-snapshot-primary"] ]};
     providerModelSources := ∅;
     unfilteredProviderModelSources := ∅;
     providerModelHealth := ∅;
     baseModelIndex := ∅;
     pricingData :=
       {[ "glm-pricing-only|glm|chat" := mkPricing "glm-pricing-only" "glm" "chat" ]};
     configStore := None;
     providerModelHealthPersistCallback := None;
     providerModelHealthPersistSignal := None |}.

(** ** Loading the persisted health state *)

(** The [Value] of a stored configuration row, by what [sonic.Unmarshal]
    makes of it: the empty string, a text that does not parse, or the decoded
    map. *)
Inductive ConfigValue : Type :=
  | ValueEmpty
  | ValueMalformed
  | ValueDecoded (persistedState : gmap string persistedProviderModelHealthState).

(** What [store.GetConfig] answers: an error that wraps
    [configstore.ErrNotFound], another error, or a row pointer (nil or
    not). *)
Inductive GetConfigAnswer : Type :=
  | GetConfigNotFound
  | GetConfigError
  | GetConfigRow (config : option ConfigValue).

(** The body of the loop of [loadProviderModelHealthState] for one entry of
    the decoded map. *)
Definition loadHealthEntry (mc : ModelCatalog) (providerName : string)
    (entry : persistedProviderModelHealthState) : ModelCatalog :=
  {| modelPool := mc.(modelPool);
     unfilteredModelPool := mc.(unfilteredModelPool);
     providerModelSnapshots := mc.(providerModelSnapshots);
     providerModelSources :=
       if negb (String.eqb entry.(p_FilteredSource) "")
       then <[providerName := entry.(p_FilteredSource)]> mc.(providerModelSources)
       else mc.(providerModelSources);
     unfilteredProviderModelSources :=
       if negb (String.eqb entry.(p_UnfilteredSource) "")
       then <[providerName := entry.(p_UnfilteredSource)]>
              mc.(unfilteredProviderModelSources)
       else mc.(unfilteredProviderModelSources);
     providerModelHealth :=
       <[providerName := {| Filtered := entry.(p_Filtered);
                            Unfiltered := entry.(p_Unfiltered);
                            LastSnapshotUpdated := entry.(p_LastSnapshotUpdated) |}]>
         mc.(providerModelHealth);
     baseModelIndex := mc.(baseModelIndex);
     pricingData := mc.(pricingData);
     configStore := mc.(configStore);
     providerModelHealthPersistCallback := mc.(providerModelHealthPersistCallback);
     providerModelHealthPersistSignal := mc.(providerModelHealthPersistSignal) |}.

(** The loop over the decoded map, in the order [range] enumerates it. *)
Definition loadHealthLoop (mc : ModelCatalog)
    (range : list (string * persistedProviderModelHealthState)) : ModelCatalog :=
  foldl (λ mc item, loadHealthEntry mc item.1 item.2) mc range.

(** [loadProviderModelHealthState]; [answer] is what the store replies to
    [GetConfig] for the health key. *)
Definition loadProviderModelHealthState (mc : ModelCatalog) (answer : GetConfigAnswer)
  : ModelCatalog * list Effect :=
  match getProviderModelHealthStore mc with
  | None => (mc, [])
  | Some _ =>
      match answer with
      | GetConfigNotFound => (mc, [])
      | GetConfigError => (mc, [LogWarn "failed to load provider model health state"])
      | GetConfigRow None => (mc, [])
      | GetConfigRow (Some ValueEmpty) => (mc, [])
      | GetConfigRow (Some ValueMalformed) =>
          (mc, [LogWarn "failed to parse provider model health state"])
      | GetConfigRow (Some (ValueDecoded persistedState)) =>
          (loadHealthLoop mc (map_to_list persistedState), [])
      end
  end.

(** ** Snapshot store ([provider_models.go]) *)

(** [getProviderModelStore]: the store and the [ok] flag. *)
Definition getProviderModelStore (mc : ModelCatalog) : option ConfigStore :=
  match mc.(configStore) with
  | None => None
  | Some store => if store.(hasModelStoreMethods) then Some store else None
  end.

(** The body of the loop of [loadProviderModelSnapshots] for one provider:
    the clones of [models] are equal lists. *)
Definition loadSnapshotEntry (mc : ModelCatalog) (provider : ModelProvider)
    (models : list string) : ModelCatalog :=
  if (length models =? 0)%nat then mc
  else
    {| modelPool := <[provider := models]> mc.(modelPool);
       unfilteredModelPool := <[provider := models]> mc.(unfilteredModelPool);
       providerModelSnapshots := <[provider := models]> mc.(providerModelSnapshots);
       providerModelSources :=
         <[provider := ProviderModelSourcePersistedSnapshot]> mc.(providerModelSources);
       unfilteredProviderModelSources :=
         <[provider := ProviderModelSourcePersistedSnapshot]>
           mc.(unfilteredProviderModelSources);
       providerModelHealth := mc.(providerModelHealth);
       baseModelIndex := mc.(baseModelIndex);
       pricingData := mc.(pricingData);
       configStore := mc.(configStore);
       providerModelHealthPersistCallback := mc.(providerModelHealthPersistCallback);
       providerModelHealthPersistSignal := mc.(providerModelHealthPersistSignal) |}.

(** The loop over the snapshots, in the order [range] enumerates them. *)
Definition loadSnapshotLoop (mc : ModelCatalog)
    (range : list (ModelProvider * list string)) : ModelCatalog :=
  foldl (λ mc item, loadSnapshotEntry mc item.1 item.2) mc range.

(** [loadProviderModelSnapshots]; [answer] is what the store replies to
    [GetAllProviderModelNames]: [None] for an error, the map otherwise. *)
Definition loadProviderModelSnapshots (mc : ModelCatalog)
    (answer : option (gmap string (list string))) : ModelCatalog * list Effect :=
  match getProviderModelStore mc with
  | None => (mc, [])
  | Some _ =>
      match answer with
      | None => (mc, [LogWarn "failed to load provider model snapshots"])
      | Some snapshots => (loadSnapshotLoop mc (map_to_list snapshots), [])
      end
  end.

(** What [persistProviderModelSnapshot] does at the store. *)
Inductive SnapshotEffect : Type :=
  | StoreReplaceProviderModelNames (provider : ModelProvider) (models : list string)
  | SnapshotWarn (msg : string).

(** [persistProviderModelSnapshot]; [replaceFails] tells whether the store
    answers [ReplaceProviderModelNames] with an error. *)
Definition persistProviderModelSnapshot (mc : ModelCatalog) (provider : ModelProvider)
    (models : list string) (replaceFails : bool) : list SnapshotEffect :=
  if (length models =? 0)%nat then []
  else match getProviderModelStore mc with
       | None => []
       | Some _ =>
           if replaceFails
           then [StoreReplaceProviderModelNames provider models;
                 SnapshotWarn "failed to persist provider model snapshot"]
           else [StoreReplaceProviderModelNames provider models]
       end.

(** ** Health route ([handlers], model-catalog health) *)

(** [lib.Config]: the handler reads the catalog pointer only. *)
Record Config : Type := mkConfig {
  cfg_ModelCatalog : option ModelCatalog
}.

(** What the handler sends: [SendError] with a status and a message, or
    [SendJSONWithStatus] with the report and a status. *)
Inductive Response : Type :=
  | SendError (statusCode : Z) (message : string)
  | SendJSONWithStatus (report : ProviderModelSnapshotHealthReport) (statusCode : Z).

Definition StatusOK : Z := 200.
Definition StatusServiceUnavailable : Z := 503.

(** [getModelCatalogHealth]; [config] is the handler's [h.config] pointer and
    [now] the clock reading of the report. *)
Definition getModelCatalogHealth (config : option Config) (now : time.Time)
  : Response :=
  match config with
  | None => SendError StatusServiceUnavailable "model catalog is not initialized"
  | Some c =>
      match c.(cfg_ModelCatalog) with
      | None => SendError StatusServiceUnavailable "model catalog is not initialized"
      | Some mc =>
          let report := GetProviderModelSnapshotHealthReport mc now in
          let statusCode :=
            if bool_decide (report.(Status) = ProviderModelHealthError)
            then StatusServiceUnavailable else StatusOK in
          SendJSONWithStatus report statusCode
      end
  end.

(** The status code of a response. *)
Definition responseStatus (r : Response) : Z :=
  match r with
  | SendError statusCode _ => statusCode
  | SendJSONWithStatus _ statusCode => statusCode
  end.

(** ** Persistence worker *)

(** The [*time.Timer] of the worker: not created yet; running towards its
    expiry; expired with its value waiting in [timer.C]; or at rest with
    [timer.C] empty (stopped, or its value received or drained). *)
Inductive TimerState : Set :=
  | TimerNil
  | TimerRunning
  | TimerFired
  | TimerIdle.

Global Instance TimerState_eq_dec : EqDecision TimerState.
Proof. solve_decision. Defined.

(** The locals of [providerModelHealthPersistWorker]: [pending], [timer],
    [timerC] (non-nil or nil) and whether the function has returned. *)
Record WorkerState : Set := mkWorker {
  pending : bool;
  timer : TimerState;
  timerC : bool;
  returned : bool
}.

(** The closure [stopTimer]: whatever [Stop] answers, the timer is at rest
    and its channel empty afterwards. *)
Definition stopTimer (t : TimerState) : TimerState :=
  match t with
  | TimerNil => TimerNil
  | _ => TimerIdle
  end.

(** The closure [drainSignals] on the signal channel and [pending]: the
    buffered token, if any, is received and the next iteration finds the
    channel empty. *)
Definition drainSignals (signal : option bool) (pending : bool) : option bool * bool :=
  match signal with
  | Some true => (Some false, true)
  | _ => (signal, pending)
  end.

(** The closure [flushPending]: the new [pending] and what the write does. *)
Definition flushPending (mc : ModelCatalog) (pending : bool) : bool * list Effect :=
  if negb pending then (pending, [])
  else (false, persistProviderModelHealthStateNow mc).

(** The catalog together with its worker. *)
Record System : Type := mkSystem {
  catalog : ModelCatalog;
  worker : WorkerState
}.

(** [startProviderModelHealthPersistWorker]: the channel of capacity one is
    made and the worker enters its loop with no timer and nothing pending. *)
Definition startProviderModelHealthPersistWorker (mc : ModelCatalog) : System :=
  {| catalog := withSignal (Some false) mc;
     worker := mkWorker false TimerNil false false |}.

(** The [select] case [<-ctx.Done()] (and the identical [<-mc.done]). *)
Definition workerStopCase (s : System) : System * list Effect :=
  let '(signal, pending) :=
    drainSignals s.(catalog).(providerModelHealthPersistSignal) s.(worker).(pending) in
  let mc := withSignal signal s.(catalog) in
  let '(pending, effects) := flushPending mc pending in
  ({| catalog := mc;
      worker := mkWorker pending (stopTimer s.(worker).(timer))
                  s.(worker).(timerC) true |},
   effects).

(** The [select] case [<-mc.providerModelHealthPersistSignal], taken with a
    token in the channel: the timer is created or stopped, drained and
    reset, and runs in both cases. *)
Definition workerSignalCase (s : System) : System * list Effect :=
  ({| catalog := withSignal (Some false) s.(catalog);
      worker := mkWorker true TimerRunning true false |},
   []).

(** The [select] case [<-timerC], taken with the expiry value in the
    channel. *)
Definition workerTimerCase (s : System) : System * list Effect :=
  let '(pending, effects) := flushPending s.(catalog) s.(worker).(pending) in
  ({| catalog := s.(catalog);
      worker := mkWorker pending TimerIdle false false |},
   effects).

(** What happens around the worker: a caller records a discovery result, the
    debounce delay of the running timer elapses, or the worker's [select]
    takes one of its cases. *)
Inductive Event : Type :=
  | EvRecord (now : time.Time) (provider : ModelProvider) (unfiltered : bool)
      (modelData : option schemas.BifrostListModelsResponse)
      (discoveryErr : option schemas.BifrostError)
  | EvTimerExpires
  | EvSignalCase
  | EvTimerCase
  | EvStopCase.

(** One step; [None] when the event cannot happen in that state: a timer
    that is not running does not expire, a case of the [select] needs its
    channel ready, and a worker that has returned takes no case. *)
Definition step `{Schemas} (s : System) (ev : Event) : option (System * list Effect) :=
  match ev with
  | EvRecord now provider unfiltered modelData discoveryErr =>
      let '(mc, effects) :=
        RecordProviderModelDiscoveryResult s.(catalog) now provider unfiltered
          modelData discoveryErr in
      Some ({| catalog := mc; worker := s.(worker) |}, effects)
  | EvTimerExpires =>
      match s.(worker).(timer) with
      | TimerRunning =>
          Some ({| catalog := s.(catalog);
                   worker := mkWorker s.(worker).(pending) TimerFired
                               s.(worker).(timerC) s.(worker).(returned) |}, [])
      | _ => None
      end
  | EvSignalCase =>
      if negb s.(worker).(returned)
         && bool_decide (s.(catalog).(providerModelHealthPersistSignal) = Some true)
      then Some (workerSignalCase s) else None
  | EvTimerCase =>
      if negb s.(worker).(returned) && s.(worker).(timerC)
         && bool_decide (s.(worker).(timer) = TimerFired)
      then Some (workerTimerCase s) else None
  | EvStopCase =>
      if negb s.(worker).(returned) then Some (workerStopCase s) else None
  end.

(** A sequence of steps and everything it does. *)
Fixpoint run `{Schemas} (s : System) (events : list Event)
  : option (System * list Effect) :=
  match events with
  | [] => Some (s, [])
  | ev :: rest =>
      match step s ev with
      | None => None
      | Some (s', effects) =>
          match run s' rest with
          | None => None
          | Some (s'', effects') => Some (s'', (effects ++ effects')%list)
          end
      end
  end.

(** A write of the health payload: the callback or the store update. *)
Definition isFlush (e : Effect) : bool :=
  match e with
  | CallbackInvoked _ | StoreUpdateConfig _ => true
  | _ => false
  end.

Definition isSignal (e : Effect) : bool :=
  match e with
  | SignalRaised => true
  | _ => false
  end.

(** The events in which the worker itself acts on a flush. *)
Definition isFlushingCase (ev : Event) : bool :=
  match ev with
  | EvTimerCase | EvStopCase => true
  | _ => false
  end.

(** What holds of the worker between two steps while it runs: something is
    pending exactly when the timer channel is armed, an armed timer is
    running or has fired, and the signal channel exists. *)
Definition workerInvariant (s : System) : Prop :=
  s.(catalog).(providerModelHealthPersistSignal) ≠ None
  ∧ (s.(worker).(returned) = false →
     s.(worker).(pending) = s.(worker).(timerC)
     ∧ (s.(worker).(timerC) = true →
        s.(worker).(timer) = TimerRunning ∨ s.(worker).(timer) = TimerFired)).

(** The tokens in flight: the one buffered in the channel and the one
    [pending] stands for. *)
Definition tokens (s : System) : nat :=
  (if bool_decide (s.(catalog).(providerModelHealthPersistSignal) = Some true)
   then 1 else 0)
  + (if s.(worker).(pending) then 1 else 0).

(** The counters of a summary add up to its total. *)
Definition partitioned (summary : ProviderModelSnapshotHealthSummary) : Prop :=
  summary.(TotalProviders)
  = summary.(HealthyProviders) + summary.(StaleProviders)
    + summary.(ErrorProviders) + summary.(DegradedProviders)
    + summary.(UnknownProviders).

(** The number of writes and of raised signals among the effects of a run. *)
Definition countFlushes (effects : list Effect) : nat :=
  length (List.filter isFlush effects).

Definition countSignals (effects : list Effect) : nat :=
  length (List.filter isSignal effects).

(** The events in which a caller records a discovery result. *)
Definition isRecord (ev : Event) : bool :=
  match ev with
  | EvRecord _ _ _ _ _ => true
  | _ => false
  end.

(** The catalog of the debounce test of the package: a fresh catalog with a
    flush callback that counts its calls. *)
Definition callbackCatalog : ModelCatalog :=
  {| modelPool := ∅;
     unfilteredModelPool := ∅;
     providerModelSnapshots := ∅;
     providerModelSources := ∅;
     unfilteredProviderModelSources := ∅;
     providerModelHealth := ∅;
     baseModelIndex := ∅;
     pricingData := ∅;
     configStore := None;
     providerModelHealthPersistCallback := Some (persistCallback "persistCount");
     providerModelHealthPersistSignal := None |}.

(** A fresh catalog over a config store that has the methods of the health
    store and whose [UpdateConfig] answers without error; no flush callback,
    no worker. *)
Definition storeCatalog : ModelCatalog :=
  {| modelPool := ∅;
     unfilteredModelPool := ∅;
     providerModelSnapshots := ∅;
     providerModelSources := ∅;
     unfilteredProviderModelSources := ∅;
     providerModelHealth := ∅;
     baseModelIndex := ∅;
     pricingData := ∅;
     configStore := Some (mkConfigStore true true None);
     providerModelHealthPersistCallback := None;
     providerModelHealthPersistSignal := None |}.

(** Every instant the health map holds is one [MarshalJSON] accepts. *)
Definition encodableHealth (mc : ModelCatalog) : bool :=
  forallb (λ kv : string * providerModelHealthState,
             sonic.encodableDiscovery kv.2.(Filtered)
             && sonic.encodableDiscovery kv.2.(Unfiltered)
             && time.MarshalJSON_ok kv.2.(LastSnapshotUpdated))
          (map_to_list mc.(providerModelHealth)).

(** The clock reading of a recording is one [MarshalJSON] accepts. *)
Definition recordedInRange (ev : Event) : bool :=
  match ev with
  | EvRecord now _ _ _ _ => time.MarshalJSON_ok now
  | _ => true
  end.

(** * Properties *)

(** ** Time arithmetic *)

Section time_facts.

Lemma IsZero_true (t : time.Time) : time.IsZero t = true ↔ t = time.zero.
Proof. unfold time.IsZero, time.zero. apply Z.eqb_eq. Qed.

Lemma IsZero_false (t : time.Time) : time.IsZero t = false ↔ t ≠ time.zero.
Proof. unfold time.IsZero, time.zero. apply Z.eqb_neq. Qed.

Lemma Before_true (t u : time.Time) : time.Before t u = true ↔ t < u.
Proof. unfold time.Before. apply Z.ltb_lt. Qed.

Lemma Before_false (t u : time.Time) : time.Before t u = false ↔ ¬ t < u.
Proof. unfold time.Before. rewrite Z.ltb_ge. lia. Qed.

Lemma StaleAfter_value :
  DefaultProviderModelSnapshotStaleAfter = 86400000000000.
Proof. reflexivity. Qed.

(** The saturation of [Sub] never changes the outcome of the comparison
    with the staleness threshold. *)
Lemma Sub_exceeds_threshold (now t : time.Time) :
  (DefaultProviderModelSnapshotStaleAfter <? time.Sub now t) = true
  ↔ now - t > DefaultProviderModelSnapshotStaleAfter.
Proof.
  rewrite Z.ltb_lt, StaleAfter_value. unfold time.Sub.
  assert (time.minDuration = -9223372036854775808) as -> by reflexivity.
  assert (time.maxDuration = 9223372036854775807) as -> by reflexivity.
  repeat case_match; lia.
Qed.

Lemma Sub_within_threshold (now t : time.Time) :
  (DefaultProviderModelSnapshotStaleAfter <? time.Sub now t) = false
  ↔ now - t ≤ DefaultProviderModelSnapshotStaleAfter.
Proof.
  rewrite <- not_true_iff_false, Sub_exceeds_threshold. lia.
Qed.

End time_facts.

(** ** Status derivation *)

Lemma discoveryStatus_in_table (state : providerDiscoveryState) (now : time.Time) :
  statusTable state now (discoveryStatus state now).
Proof.
  unfold discoveryStatus.
  destruct (time.IsZero (LastAttemptAt state)) eqn:Ha.
  { apply row_no_attempt. by apply IsZero_true. }
  apply IsZero_false in Ha.
  destruct (time.IsZero (LastErrorAt state)) eqn:He;
    destruct (time.IsZero (LastSuccessAt state)) eqn:Hs; simpl.
  - apply row_attempt_only; [done | by apply IsZero_true..].
  - apply IsZero_true in He. apply IsZero_false in Hs.
    destruct (_ <? _) eqn:Hn.
    + apply row_stale; [done | done | by left | by apply Sub_exceeds_threshold].
    + apply row_healthy; [done | done | by left | by apply Sub_within_threshold].
  - apply row_error; [done | by apply IsZero_false | left; by apply IsZero_true].
  - apply IsZero_false in He. apply IsZero_false in Hs.
    destruct (time.Before _ _) eqn:Hb; simpl.
    + apply Before_true in Hb. destruct (_ <? _) eqn:Hn.
      * apply row_stale; [done | done | by right | by apply Sub_exceeds_threshold].
      * apply row_healthy; [done | done | by right | by apply Sub_within_threshold].
    + apply row_error; [done | done | right; by apply Before_false].
Qed.

Lemma statusTable_functional (state : providerDiscoveryState) (now : time.Time)
    (s1 s2 : ProviderModelHealthStatus) :
  statusTable state now s1 → statusTable state now s2 → s1 = s2.
Proof.
  unfold noNewerError.
  destruct 1; destruct 1; try done; unfold noNewerError in *; lia.
Qed.

(** C1.  For every per-variant discovery state and current time, the status
    derived by [toProviderModelDiscoveryHealth] is the one the status table
    gives, and the table gives no other: unknown without an attempt; error
    when an error is recorded that is not strictly before the success or
    when no success was recorded; stale when a success is recorded, no newer
    error exists and the time elapsed since that success exceeds 24 hours;
    healthy when it does not; unknown when only the attempt is recorded. *)
Theorem status_follows_table (state : providerDiscoveryState) (now : time.Time)
    (status : ProviderModelHealthStatus) :
  statusTable state now status
  ↔ (toProviderModelDiscoveryHealth state now).(dh_Status) = status.
Proof.
  simpl. split.
  - intros Hrow. eapply statusTable_functional; [|exact Hrow].
    apply discoveryStatus_in_table.
  - intros <-. apply discoveryStatus_in_table.
Qed.

(** ** Merged status *)

(** C2.  For every pair of per-variant statuses, the merged status is error
    if either is error; otherwise stale if either is stale; otherwise unknown
    if both are unknown; otherwise degraded if exactly one is unknown;
    otherwise healthy. *)
Theorem merge_precedence (filtered unfiltered : ProviderModelHealthStatus) :
  let merged := mergeProviderHealthStatus filtered unfiltered in
  let either s := filtered = s ∨ unfiltered = s in
  let neither s := filtered ≠ s ∧ unfiltered ≠ s in
  (either ProviderModelHealthError → merged = ProviderModelHealthError)
  ∧ (neither ProviderModelHealthError → either ProviderModelHealthStale →
     merged = ProviderModelHealthStale)
  ∧ (neither ProviderModelHealthError → neither ProviderModelHealthStale →
     filtered = ProviderModelHealthUnknown ∧ unfiltered = ProviderModelHealthUnknown →
     merged = ProviderModelHealthUnknown)
  ∧ (neither ProviderModelHealthError → neither ProviderModelHealthStale →
     (filtered = ProviderModelHealthUnknown ∧ unfiltered ≠ ProviderModelHealthUnknown)
     ∨ (filtered ≠ ProviderModelHealthUnknown ∧ unfiltered = ProviderModelHealthUnknown) →
     merged = ProviderModelHealthDegraded)
  ∧ (neither ProviderModelHealthError → neither ProviderModelHealthStale →
     neither ProviderModelHealthUnknown →
     merged = ProviderModelHealthHealthy).
Proof.
  destruct filtered, unfiltered; simpl; intuition congruence.
Qed.

(** ** Discovery recording *)

Section recording.

Context `{Schemas}.

Lemma parsedModelsOfProvider_cons (provider : ModelProvider)
    (model : schemas.Model) (data : list schemas.Model) :
  parsedModelsOfProvider provider (model :: data)
  = if String.eqb (ParseModelString model.(schemas.ID) provider).1 provider
    then (ParseModelString model.(schemas.ID) provider).2
         :: parsedModelsOfProvider provider data
    else parsedModelsOfProvider provider data.
Proof.
  unfold parsedModelsOfProvider. rewrite filter_cons.
  destruct (String.eqb_spec (ParseModelString (schemas.ID model) provider).1 provider);
    by case_decide.
Qed.

(** [seenModels] holds the names met so far. *)
Lemma countStep_seen (provider : ModelProvider) (data : list schemas.Model)
    (acc : Z * gset string) :
  (foldl (countStep provider) acc data).2
  = acc.2 ∪ list_to_set (parsedModelsOfProvider provider data).
Proof.
  revert acc. induction data as [|model data IH]; intros acc; simpl.
  { set_solver. }
  rewrite IH, parsedModelsOfProvider_cons. unfold countStep.
  destruct (ParseModelString (schemas.ID model) provider) as [pp pm]; simpl.
  destruct (String.eqb pp provider); simpl; [|done].
  case_bool_decide; simpl; set_solver.
Qed.

(** [count] is the size of [seenModels]. *)
Lemma countStep_count (provider : ModelProvider) (data : list schemas.Model)
    (acc : Z * gset string) :
  acc.1 = Z.of_nat (size acc.2) →
  (foldl (countStep provider) acc data).1
  = Z.of_nat (size (foldl (countStep provider) acc data).2).
Proof.
  revert acc. induction data as [|model data IH]; intros acc Hacc; simpl; [done|].
  apply IH. unfold countStep.
  destruct (ParseModelString (schemas.ID model) provider) as [pp pm]; simpl.
  destruct (String.eqb pp provider); simpl; [|done].
  case_bool_decide; simpl; [done|].
  rewrite size_union, size_singleton by set_solver. lia.
Qed.

Lemma countProviderModelsInResponse_distinct (provider : ModelProvider)
    (modelData : option schemas.BifrostListModelsResponse) :
  countProviderModelsInResponse provider modelData
  = distinctModelsOfProvider provider modelData.
Proof.
  destruct modelData as [[data]|]; simpl; [|done].
  destruct data as [|model data]; [done|].
  change ((length (model :: data) =? 0)%nat) with false. cbv iota.
  rewrite countStep_count by done.
  rewrite countStep_seen. simpl. f_equal. f_equal. set_solver.
Qed.

Lemma healthOf_withHealth_insert (mc : ModelCatalog) (provider : ModelProvider)
    (state : providerModelHealthState) (other : ModelProvider) :
  healthOf (withHealth (<[provider := state]> mc.(providerModelHealth)) mc) other
  = if decide (provider = other) then state else healthOf mc other.
Proof.
  unfold healthOf. simpl. rewrite lookup_insert. by case_decide.
Qed.

(** Signalling the worker leaves every map of the catalog alone. *)
Lemma persist_keeps_health (mc : ModelCatalog) :
  (persistProviderModelHealthState mc).1.(providerModelHealth)
  = mc.(providerModelHealth).
Proof.
  unfold persistProviderModelHealthState.
  destruct (shouldPersistProviderModelHealthState mc); simpl; [|done].
  by destruct (providerModelHealthPersistSignal mc) as [[]|].
Qed.

Lemma Record_health (mc : ModelCatalog) (now : time.Time) (provider : ModelProvider)
    (unfiltered : bool) (modelData : option schemas.BifrostListModelsResponse)
    (discoveryErr : option schemas.BifrostError) (other : ModelProvider) :
  healthOf (RecordProviderModelDiscoveryResult mc now provider unfiltered
              modelData discoveryErr).1 other
  = if decide (provider = other)
    then updateTarget unfiltered (recordOutcome now provider modelData discoveryErr)
           (healthOf mc provider)
    else healthOf mc other.
Proof.
  unfold RecordProviderModelDiscoveryResult, healthOf at 1.
  rewrite persist_keeps_health. unfold recordLocked.
  apply healthOf_withHealth_insert.
Qed.

Lemma targetOf_updateTarget (unfiltered : bool)
    (f : providerDiscoveryState → providerDiscoveryState)
    (state : providerModelHealthState) :
  targetOf unfiltered (updateTarget unfiltered f state)
  = f (targetOf unfiltered state).
Proof. by destruct unfiltered. Qed.

Lemma targetOf_updateTarget_other (unfiltered : bool)
    (f : providerDiscoveryState → providerDiscoveryState)
    (state : providerModelHealthState) :
  targetOf (negb unfiltered) (updateTarget unfiltered f state)
  = targetOf (negb unfiltered) state.
Proof. by destruct unfiltered. Qed.

Lemma LastSnapshotUpdated_updateTarget (unfiltered : bool)
    (f : providerDiscoveryState → providerDiscoveryState)
    (state : providerModelHealthState) :
  (updateTarget unfiltered f state).(LastSnapshotUpdated)
  = state.(LastSnapshotUpdated).
Proof. by destruct unfiltered. Qed.

End recording.

(** C4.  Recording a discovery error for a provider and variant sets the
    attempt and error timestamps of that variant to the time of the call and
    stores the extracted message: the message field of the error when it is
    not empty, else the text of the wrapped error when there is one, else
    (the error carries none) the generic "model discovery failed".  The
    success timestamp and the last-models count of the variant, the whole
    state of the other variant, the snapshot time and every other provider
    stay as they were. *)
Theorem record_error_frame `{Schemas} (mc : ModelCatalog) (now : time.Time)
    (provider : ModelProvider) (unfiltered : bool)
    (modelData : option schemas.BifrostListModelsResponse)
    (discoveryErr : schemas.BifrostError) :
  let mc' := (RecordProviderModelDiscoveryResult mc now provider unfiltered
                modelData (Some discoveryErr)).1 in
  let before := targetOf unfiltered (healthOf mc provider) in
  let after := targetOf unfiltered (healthOf mc' provider) in
  after.(LastAttemptAt) = now
  ∧ after.(LastErrorAt) = now
  ∧ after.(LastError) = extractDiscoveryErrorMessage (Some discoveryErr)
  ∧ (∀ field, discoveryErr.(schemas.be_Error) = Some field →
       field.(schemas.ef_Message) ≠ "" →
       after.(LastError) = field.(schemas.ef_Message))
  ∧ (∀ field text, discoveryErr.(schemas.be_Error) = Some field →
       field.(schemas.ef_Message) = "" → field.(schemas.ef_Error) = Some text →
       after.(LastError) = text)
  ∧ (discoveryErr.(schemas.be_Error) = None
     ∨ discoveryErr.(schemas.be_Error) = Some (schemas.mkErrorField "" None) →
     after.(LastError) = "model discovery failed")
  ∧ after.(LastSuccessAt) = before.(LastSuccessAt)
  ∧ after.(LastModelsCount) = before.(LastModelsCount)
  ∧ targetOf (negb unfiltered) (healthOf mc' provider)
    = targetOf (negb unfiltered) (healthOf mc provider)
  ∧ (healthOf mc' provider).(LastSnapshotUpdated)
    = (healthOf mc provider).(LastSnapshotUpdated)
  ∧ (∀ other, other ≠ provider → healthOf mc' other = healthOf mc other).
Proof.
  intros mc' before after. subst mc' before after.
  rewrite !Record_health. rewrite decide_True by done.
  rewrite targetOf_updateTarget, targetOf_updateTarget_other,
    LastSnapshotUpdated_updateTarget.
  simpl. repeat split; try done.
  - intros field Hf Hm. rewrite Hf.
    destruct (String.eqb_spec (schemas.ef_Message field) ""); done.
  - intros field text Hf Hm He. by rewrite Hf, Hm, He.
  - by intros [-> | ->].
  - intros other Hne. rewrite Record_health. by rewrite decide_False.
Qed.

(** A variant whose last outcome is a success, read within the staleness
    threshold, is healthy. *)
Lemma fresh_success_is_healthy (state : providerDiscoveryState) (t : time.Time) :
  state.(LastAttemptAt) ≠ time.zero →
  state.(LastSuccessAt) ≠ time.zero →
  state.(LastErrorAt) = time.zero →
  t - state.(LastSuccessAt) ≤ DefaultProviderModelSnapshotStaleAfter →
  discoveryStatus state t = ProviderModelHealthHealthy.
Proof.
  intros Ha Hs He Hn. unfold discoveryStatus.
  apply IsZero_false in Ha as ->. apply IsZero_false in Hs as ->.
  apply IsZero_true in He as ->. apply Sub_within_threshold in Hn as ->.
  done.
Qed.

Lemma splitProviderPrefix_prefixed (provider model : string) :
  splitProviderPrefix provider = None →
  splitProviderPrefix (provider +:+ "/" +:+ model) = Some (provider, model).
Proof.
  induction provider as [|c provider IH]; simpl; [done|].
  destruct (Ascii.eqb c "/"); [done|].
  destruct (splitProviderPrefix provider) as [[]|] eqn:Hp; [done|].
  intros _. by rewrite IH.
Qed.

(** C5.  Recording a success (nil discovery error) for a provider and
    variant sets the attempt and success timestamps to the time of the call,
    clears the error timestamp and message, and sets the last-models count to
    the number of distinct parsed model names among the entries whose parsed
    provider is the expected provider, whatever the parser.  With the parser
    that splits at the first delimiter, the entries X/m1, X/m2, X/m1 for a
    provider X give the count 2, and the status read within the staleness
    threshold is healthy. *)
Theorem record_success_counts_distinct :
  (∀ (S : Schemas) (mc : ModelCatalog) (now : time.Time) (provider : ModelProvider)
     (unfiltered : bool) (modelData : option schemas.BifrostListModelsResponse),
     let mc' := (RecordProviderModelDiscoveryResult mc now provider unfiltered
                   modelData None).1 in
     let after := targetOf unfiltered (healthOf mc' provider) in
     after.(LastAttemptAt) = now
     ∧ after.(LastSuccessAt) = now
     ∧ after.(LastErrorAt) = time.zero
     ∧ after.(LastError) = ""
     ∧ after.(LastModelsCount) = distinctModelsOfProvider provider modelData)
  ∧ (∀ (mc : ModelCatalog) (now t : time.Time) (X m1 m2 : string) (unfiltered : bool),
       splitProviderPrefix X = None →
       m1 ≠ m2 →
       now ≠ time.zero →
       t - now ≤ DefaultProviderModelSnapshotStaleAfter →
       let modelData :=
         Some (schemas.mkListModelsResponse
                 [schemas.mkModel (X +:+ "/" +:+ m1);
                  schemas.mkModel (X +:+ "/" +:+ m2);
                  schemas.mkModel (X +:+ "/" +:+ m1)]) in
       let mc' := (@RecordProviderModelDiscoveryResult scenarioSchemas mc now X
                     unfiltered modelData None).1 in
       let after := targetOf unfiltered (healthOf mc' X) in
       after.(LastModelsCount) = 2
       ∧ (toProviderModelDiscoveryHealth after t).(dh_Status)
         = ProviderModelHealthHealthy).
Proof.
  split.
  - intros S mc now provider unfiltered modelData mc' after. subst mc' after.
    rewrite Record_health, decide_True by done.
    rewrite targetOf_updateTarget. simpl.
    by rewrite countProviderModelsInResponse_distinct.
  - intros mc now t X m1 m2 unfiltered HX Hm Hnow Ht modelData mc' after.
    subst mc' after.
    rewrite Record_health, decide_True by done.
    rewrite targetOf_updateTarget. unfold recordOutcome. split.
    + cbn [LastModelsCount].
      rewrite (@countProviderModelsInResponse_distinct scenarioSchemas).
      unfold distinctModelsOfProvider, modelData. cbn [schemas.Data].
      rewrite !(@parsedModelsOfProvider_cons scenarioSchemas). simpl.
      unfold parseModelString.
      rewrite !splitProviderPrefix_prefixed by done. simpl.
      rewrite String.eqb_refl.
      change (parsedModelsOfProvider X []) with (@nil string).
      assert (list_to_set [m1; m2; m1] = ({[m1]} ∪ {[m2]} : gset string)) as ->
        by set_solver.
      rewrite size_union, !size_singleton by set_solver. done.
    + by apply fresh_success_is_healthy.
Qed.

Lemma record_success_counts_distinct_witness :
  let modelData :=
    Some (schemas.mkListModelsResponse
            [schemas.mkModel "glm/glm-5"; schemas.mkModel "glm/glm-4.7";
             schemas.mkModel "glm/glm-5"]) in
  let mc' := (@RecordProviderModelDiscoveryResult scenarioSchemas emptyCatalog
                1000 "glm" false modelData None).1 in
  (targetOf false (healthOf mc' "glm")).(LastModelsCount) = 2
  ∧ (toProviderModelDiscoveryHealth (targetOf false (healthOf mc' "glm")) 2000).(dh_Status)
    = ProviderModelHealthHealthy.
Proof.
  apply (proj2 record_success_counts_distinct emptyCatalog 1000 2000
           "glm" "glm-5" "glm-4.7" false).
  - reflexivity.
  - discriminate.
  - discriminate.
  - vm_compute. discriminate.
Defined.

(** C10.  A nil discovery error is a success even when the response is nil
    or has no entries: the success timestamp is set, the error timestamp and
    message are cleared, the last-models count is 0, and the status of the
    variant read within the staleness threshold is healthy. *)
Theorem record_success_without_models `{Schemas} (mc : ModelCatalog)
    (now t : time.Time) (provider : ModelProvider) (unfiltered : bool)
    (modelData : option schemas.BifrostListModelsResponse) :
  modelData = None ∨ modelData = Some (schemas.mkListModelsResponse []) →
  now ≠ time.zero →
  t - now ≤ DefaultProviderModelSnapshotStaleAfter →
  let mc' := (RecordProviderModelDiscoveryResult mc now provider unfiltered
                modelData None).1 in
  let after := targetOf unfiltered (healthOf mc' provider) in
  after.(LastAttemptAt) = now
  ∧ after.(LastSuccessAt) = now
  ∧ after.(LastErrorAt) = time.zero
  ∧ after.(LastError) = ""
  ∧ after.(LastModelsCount) = 0
  ∧ (toProviderModelDiscoveryHealth after t).(dh_Status) = ProviderModelHealthHealthy.
Proof.
  intros Hdata Hnow Ht mc' after. subst mc' after.
  rewrite Record_health, decide_True by done.
  rewrite targetOf_updateTarget. simpl.
  repeat split; try done.
  - by destruct Hdata as [-> | ->].
  - by apply fresh_success_is_healthy.
Qed.

Lemma record_success_without_models_witness :
  let mc' := (@RecordProviderModelDiscoveryResult scenarioSchemas emptyCatalog
                1000 "glm" true None None).1 in
  (targetOf true (healthOf mc' "glm")).(LastModelsCount) = 0
  ∧ (toProviderModelDiscoveryHealth (targetOf true (healthOf mc' "glm")) 1000).(dh_Status)
    = ProviderModelHealthHealthy.
Proof.
  pose proof (@record_success_without_models scenarioSchemas emptyCatalog
                1000 1000 "glm" true None) as Hw.
  destruct Hw as (_ & _ & _ & _ & Hcount & Hstatus).
  - by left.
  - discriminate.
  - vm_compute. discriminate.
  - split; [exact Hcount | exact Hstatus].
Defined.

(** ** Persistence signalling *)

(** C8.  Without a persistence collaborator (no config store with the
    methods of the health store, no flush callback) recording a discovery
    result raises no signal and writes nothing, and it updates the health
    state in memory exactly as usual: the entry of the provider holds the
    attempt at the clock reading; on success the success time, a cleared
    error and the count of the response; on error the error time and the
    extracted message beside the success time and count it had; the other
    variant, the snapshot time, the other providers and every other field
    of the catalog are as before; and the health map is the one the same
    call leaves in a catalog with any collaborator. *)
Theorem record_without_collaborator `{Schemas} (mc : ModelCatalog)
    (now : time.Time) (provider : ModelProvider) (unfiltered : bool)
    (modelData : option schemas.BifrostListModelsResponse)
    (discoveryErr : option schemas.BifrostError) :
  getProviderModelHealthStore mc = None →
  mc.(providerModelHealthPersistCallback) = None →
  let result := RecordProviderModelDiscoveryResult mc now provider unfiltered
                  modelData discoveryErr in
  let before := default zeroHealthState (mc.(providerModelHealth) !! provider) in
  result.2 = []
  ∧ result.1.(providerModelHealthPersistSignal) = mc.(providerModelHealthPersistSignal)
  ∧ (∃ after : providerModelHealthState,
       result.1.(providerModelHealth) !! provider = Some after
       ∧ (targetOf unfiltered after).(LastAttemptAt) = now
       ∧ (discoveryErr = None →
          (targetOf unfiltered after).(LastSuccessAt) = now
          ∧ (targetOf unfiltered after).(LastErrorAt) = time.zero
          ∧ (targetOf unfiltered after).(LastError) = ""
          ∧ (targetOf unfiltered after).(LastModelsCount)
            = countProviderModelsInResponse provider modelData)
       ∧ (discoveryErr ≠ None →
          (targetOf unfiltered after).(LastErrorAt) = now
          ∧ (targetOf unfiltered after).(LastError)
            = extractDiscoveryErrorMessage discoveryErr
          ∧ (targetOf unfiltered after).(LastSuccessAt)
            = (targetOf unfiltered before).(LastSuccessAt)
          ∧ (targetOf unfiltered after).(LastModelsCount)
            = (targetOf unfiltered before).(LastModelsCount))
       ∧ targetOf (negb unfiltered) after = targetOf (negb unfiltered) before
       ∧ after.(LastSnapshotUpdated) = before.(LastSnapshotUpdated))
  ∧ (∀ other, other ≠ provider →
       result.1.(providerModelHealth) !! other = mc.(providerModelHealth) !! other)
  ∧ result.1.(modelPool) = mc.(modelPool)
  ∧ result.1.(unfilteredModelPool) = mc.(unfilteredModelPool)
  ∧ result.1.(providerModelSnapshots) = mc.(providerModelSnapshots)
  ∧ result.1.(providerModelSources) = mc.(providerModelSources)
  ∧ result.1.(unfilteredProviderModelSources) = mc.(unfilteredProviderModelSources)
  ∧ result.1.(baseModelIndex) = mc.(baseModelIndex)
  ∧ result.1.(pricingData) = mc.(pricingData)
  ∧ result.1.(configStore) = mc.(configStore)
  ∧ result.1.(providerModelHealthPersistCallback) = None
  ∧ (∀ configured : ModelCatalog,
       configured.(providerModelHealth) = mc.(providerModelHealth) →
       (RecordProviderModelDiscoveryResult configured now provider unfiltered
          modelData discoveryErr).1.(providerModelHealth)
       = result.1.(providerModelHealth)).
Proof.
  intros Hstore Hcb result before.
  assert (result = (recordLocked mc now provider unfiltered modelData discoveryErr, []))
    as Hresult.
  { subst result.
    unfold RecordProviderModelDiscoveryResult, persistProviderModelHealthState.
    assert (shouldPersistProviderModelHealthState
              (recordLocked mc now provider unfiltered modelData discoveryErr) = false)
      as ->; [|done].
    unfold shouldPersistProviderModelHealthState, getProviderModelHealthStore in *.
    simpl. rewrite Hcb. apply bool_decide_eq_false_2.
    destruct (configStore mc) as [store|]; [|by intros []].
    destruct (hasHealthStoreMethods store); [done | by intros []]. }
  rewrite Hresult. cbn [fst snd]. unfold recordLocked.
  cbn [withHealth modelPool unfilteredModelPool providerModelSnapshots
       providerModelSources unfilteredProviderModelSources providerModelHealth
       baseModelIndex pricingData configStore providerModelHealthPersistCallback
       providerModelHealthPersistSignal].
  split_and!; try done.
  - eexists. split; [apply lookup_insert_eq|].
    fold before. change (healthOf mc provider) with before.
    destruct unfiltered, discoveryErr as [e|]; cbn; split_and!; try done;
      intros Hnone; try done; by destruct Hnone.
  - intros other Hne. by rewrite lookup_insert_ne.
  - intros configured Hsame.
    unfold RecordProviderModelDiscoveryResult. rewrite persist_keeps_health.
    unfold recordLocked, healthOf. cbn [withHealth providerModelHealth].
    by rewrite Hsame.
Qed.

Lemma record_without_collaborator_witness :
  let modelData := Some (schemas.mkListModelsResponse
                           [schemas.mkModel "glm/glm-5"; schemas.mkModel "glm/glm-4.7";
                            schemas.mkModel "glm/glm-5"]) in
  let result := @RecordProviderModelDiscoveryResult scenarioSchemas emptyCatalog
                  1000 "glm" false modelData None in
  result.2 = []
  ∧ ∃ after, result.1.(providerModelHealth) !! "glm" = Some after
      ∧ after.(Filtered).(LastAttemptAt) = 1000
      ∧ after.(Filtered).(LastSuccessAt) = 1000
      ∧ after.(Filtered).(LastModelsCount) = 2
      ∧ after.(Unfiltered) = zeroDiscoveryState.
Proof.
  intros modelData result.
  destruct (@record_without_collaborator scenarioSchemas emptyCatalog 1000 "glm"
              false modelData None eq_refl eq_refl)
    as (Hnone & _ & (after & Hafter & Hattempt & Hsuccess & _ & Hother & _) & _).
  split; [exact Hnone|].
  exists after. destruct (Hsuccess eq_refl) as (Hs & _ & _ & Hcount).
  split_and!; [exact Hafter | exact Hattempt | exact Hs | exact Hcount | exact Hother].
Defined.

(** ** Persisted payload *)

Section persisted.

Lemma eqb_empty_true (s : string) : String.eqb s "" = true ↔ s = "".
Proof. apply String.eqb_eq. Qed.

(** Decide one zero test of the goal; a field that is not zero settles
    both directions at once. *)
Ltac zero_test test :=
  destruct test; cbn [negb orb];
  [| split; [discriminate | intros; exfalso; tauto] ].

Lemma isPersistedProviderModelHealthStateEmpty_spec
    (entry : persistedProviderModelHealthState) :
  isPersistedProviderModelHealthStateEmpty entry = true ↔ allZeroRecord entry.
Proof.
  destruct entry as [[a s e m c] [a' s' e' m' c'] u fs us].
  unfold isPersistedProviderModelHealthStateEmpty, allZeroRecord, allZeroDiscovery.
  cbn [p_Filtered p_Unfiltered p_LastSnapshotUpdated p_FilteredSource
       p_UnfilteredSource LastAttemptAt LastSuccessAt LastErrorAt LastError
       LastModelsCount].
  unfold time.IsZero, time.zero.
  zero_test (Z.eqb_spec a 0). zero_test (Z.eqb_spec s 0).
  zero_test (Z.eqb_spec e 0). zero_test (String.eqb_spec m "").
  zero_test (Z.eqb_spec c 0). zero_test (Z.eqb_spec a' 0).
  zero_test (Z.eqb_spec s' 0). zero_test (Z.eqb_spec e' 0).
  zero_test (String.eqb_spec m' ""). zero_test (Z.eqb_spec c' 0).
  zero_test (Z.eqb_spec u 0). zero_test (String.eqb_spec fs "").
  zero_test (String.eqb_spec us ""). tauto.
Qed.

(** The loop stores the entry of every enumerated provider whose entry is
    not empty and touches no other key, in whatever order the providers
    come. *)
Lemma persisted_fold_lookup (mc : ModelCatalog) (range : list ModelProvider)
    (acc : gmap string persistedProviderModelHealthState) (provider : ModelProvider) :
  foldl (λ persistedState p,
           let entry := persistedEntry mc p in
           if isPersistedProviderModelHealthStateEmpty entry then persistedState
           else <[p := entry]> persistedState) acc range !! provider
  = if decide (provider ∈ range
               ∧ isPersistedProviderModelHealthStateEmpty
                   (persistedEntry mc provider) = false)
    then Some (persistedEntry mc provider)
    else acc !! provider.
Proof.
  revert acc. induction range as [|p range IH]; intros acc; cbn [foldl].
  { case_decide as Hd; [|done]. destruct Hd as [Hin _]. by apply elem_of_nil in Hin. }
  rewrite IH. clear IH. cbn zeta.
  destruct (isPersistedProviderModelHealthStateEmpty (persistedEntry mc p)) eqn:Hp.
  - apply decide_ext. rewrite elem_of_cons. split; [tauto|].
    intros [[-> | Hin] He]; [congruence | tauto].
  - destruct (decide (p = provider)) as [-> | Hne].
    + rewrite lookup_insert_eq. rewrite (decide_True (P := _ ∈ _ :: _ ∧ _)).
      * by case_decide.
      * split; [apply elem_of_cons; by left | done].
    + rewrite lookup_insert_ne by done.
      apply decide_ext. rewrite elem_of_cons. split; [tauto|].
      intros [[-> | Hin] He]; [done | tauto].
Qed.

(** A provider that keys none of the three maps has an all-zero record. *)
Lemma persistedEntry_untouched (mc : ModelCatalog) (provider : ModelProvider) :
  provider ∉ persistedProviderSet mc → allZeroRecord (persistedEntry mc provider).
Proof.
  unfold persistedProviderSet. rewrite !not_elem_of_union, !not_elem_of_dom.
  intros [[Hh Hs] Hu].
  unfold allZeroRecord, allZeroDiscovery, persistedEntry, healthOf, sourceOf.
  rewrite Hh, Hs, Hu. simpl. tauto.
Qed.

End persisted.

(** C6.  The persisted health payload leaves out the record of a provider
    exactly when everything the catalog holds for that provider is zero: no
    attempt, success or error timestamp, no error message and a zero count
    in both variants of its health entry, a zero last-snapshot-updated time
    and both source tags empty (an absent map entry reads as zero).  In every
    other case, a source tag alone included, the payload holds the record
    with exactly these values of the catalog. *)
Theorem persisted_omits_iff_all_zero (mc : ModelCatalog) (provider : ModelProvider) :
  let state := default zeroHealthState (mc.(providerModelHealth) !! provider) in
  let filtered := state.(Filtered) in
  let unfiltered := state.(Unfiltered) in
  let filteredSource := default "" (mc.(providerModelSources) !! provider) in
  let unfilteredSource :=
    default "" (mc.(unfilteredProviderModelSources) !! provider) in
  let record :=
    {| p_Filtered := filtered;
       p_Unfiltered := unfiltered;
       p_LastSnapshotUpdated := state.(LastSnapshotUpdated);
       p_FilteredSource := filteredSource;
       p_UnfilteredSource := unfilteredSource |} in
  let payload := getPersistedProviderModelHealthState mc in
  (payload !! provider = None
   ↔ (filtered.(LastAttemptAt) = time.zero
      ∧ filtered.(LastSuccessAt) = time.zero
      ∧ filtered.(LastErrorAt) = time.zero
      ∧ filtered.(LastError) = ""
      ∧ filtered.(LastModelsCount) = 0)
     ∧ (unfiltered.(LastAttemptAt) = time.zero
        ∧ unfiltered.(LastSuccessAt) = time.zero
        ∧ unfiltered.(LastErrorAt) = time.zero
        ∧ unfiltered.(LastError) = ""
        ∧ unfiltered.(LastModelsCount) = 0)
     ∧ state.(LastSnapshotUpdated) = time.zero
     ∧ filteredSource = ""
     ∧ unfilteredSource = "")
  ∧ (payload !! provider = None ∨ payload !! provider = Some record)
  ∧ (filtered.(LastAttemptAt) ≠ time.zero
     ∨ filtered.(LastSuccessAt) ≠ time.zero
     ∨ filtered.(LastErrorAt) ≠ time.zero
     ∨ filtered.(LastError) ≠ ""
     ∨ filtered.(LastModelsCount) ≠ 0
     ∨ unfiltered.(LastAttemptAt) ≠ time.zero
     ∨ unfiltered.(LastSuccessAt) ≠ time.zero
     ∨ unfiltered.(LastErrorAt) ≠ time.zero
     ∨ unfiltered.(LastError) ≠ ""
     ∨ unfiltered.(LastModelsCount) ≠ 0
     ∨ state.(LastSnapshotUpdated) ≠ time.zero
     ∨ filteredSource ≠ ""
     ∨ unfilteredSource ≠ "" →
     payload !! provider = Some record).
Proof.
  intros state filtered unfiltered filteredSource unfilteredSource record payload.
  assert (persistedEntry mc provider = record) as Hentry by done.
  assert (¬ allZeroRecord record → payload !! provider = Some record) as Hstored.
  { intros Hnz. subst payload.
    unfold getPersistedProviderModelHealthState, persistedLoop.
    rewrite persisted_fold_lookup, Hentry. rewrite decide_True; [done|].
    split.
    - apply elem_of_elements. destruct (decide (provider ∈ persistedProviderSet mc));
        [done|]. destruct Hnz. rewrite <- Hentry. by apply persistedEntry_untouched.
    - apply not_true_iff_false.
      by rewrite isPersistedProviderModelHealthStateEmpty_spec. }
  assert (allZeroRecord record → payload !! provider = None) as Homitted.
  { intros Hz. subst payload.
    unfold getPersistedProviderModelHealthState, persistedLoop.
    rewrite persisted_fold_lookup, Hentry. rewrite decide_False; [done|].
    apply isPersistedProviderModelHealthStateEmpty_spec in Hz. intros [_ ?].
    congruence. }
  assert (allZeroRecord record ∨ ¬ allZeroRecord record) as Hcases.
  { destruct (isPersistedProviderModelHealthStateEmpty record) eqn:He.
    - left. by apply isPersistedProviderModelHealthStateEmpty_spec.
    - right. rewrite <- isPersistedProviderModelHealthStateEmpty_spec. congruence. }
  change (allZeroRecord record) with
    ((filtered.(LastAttemptAt) = time.zero
      ∧ filtered.(LastSuccessAt) = time.zero
      ∧ filtered.(LastErrorAt) = time.zero
      ∧ filtered.(LastError) = ""
      ∧ filtered.(LastModelsCount) = 0)
     ∧ (unfiltered.(LastAttemptAt) = time.zero
        ∧ unfiltered.(LastSuccessAt) = time.zero
        ∧ unfiltered.(LastErrorAt) = time.zero
        ∧ unfiltered.(LastError) = ""
        ∧ unfiltered.(LastModelsCount) = 0)
     ∧ state.(LastSnapshotUpdated) = time.zero
     ∧ filteredSource = ""
     ∧ unfilteredSource = "") in *.
  split_and!.
  - split; [|exact Homitted].
    intros Hnone. destruct Hcases as [Hz | Hnz]; [exact Hz|].
    rewrite (Hstored Hnz) in Hnone. discriminate Hnone.
  - destruct Hcases as [Hz | Hnz]; [left; by apply Homitted | right; by apply Hstored].
  - intros Hfield. apply Hstored. intros Hz. tauto.
Qed.

Lemma persisted_omits_iff_all_zero_witness :
  let failure := Some (schemas.mkBifrostError
                         (Some (schemas.mkErrorField "provider list models failed" None))) in
  let mc := (@RecordProviderModelDiscoveryResult scenarioSchemas emptyCatalog
               1000 "glm" true None failure).1 in
  getPersistedProviderModelHealthState mc !! "glm"
  = Some {| p_Filtered := zeroDiscoveryState;
            p_Unfiltered :=
              mkDiscoveryState 1000 0 1000 "provider list models failed" 0;
            p_LastSnapshotUpdated := 0;
            p_FilteredSource := "";
            p_UnfilteredSource := "" |}
  ∧ getPersistedProviderModelHealthState mc !! "qwen" = None
  ∧ getPersistedProviderModelHealthState
      (withFilteredPool "glm" ProviderModelSourceDefaultSeed [] emptyCatalog) !! "glm"
    = Some {| p_Filtered := zeroDiscoveryState;
              p_Unfiltered := zeroDiscoveryState;
              p_LastSnapshotUpdated := 0;
              p_FilteredSource := ProviderModelSourceDefaultSeed;
              p_UnfilteredSource := "" |}.
Proof.
  intros failure mc. split_and!.
  - apply (proj2 (proj2 (persisted_omits_iff_all_zero mc "glm"))).
    do 5 right. left. vm_compute. discriminate.
  - apply (proj1 (persisted_omits_iff_all_zero mc "qwen")). vm_compute. tauto.
  - apply (proj2 (proj2 (persisted_omits_iff_all_zero
                           (withFilteredPool "glm" ProviderModelSourceDefaultSeed []
                              emptyCatalog) "glm"))).
    do 11 right. left. vm_compute. discriminate.
Defined.

(** ** Health report *)

Section report.

Lemma countStatus_total (summary : ProviderModelSnapshotHealthSummary)
    (status : ProviderModelHealthStatus) :
  (countStatus summary status).(TotalProviders) = summary.(TotalProviders) + 1.
Proof. by destruct status. Qed.

Lemma countStatus_counter (summary : ProviderModelSnapshotHealthSummary)
    (status counted : ProviderModelHealthStatus) :
  summaryCounter counted (countStatus summary status)
  = summaryCounter counted summary + (if decide (status = counted) then 1 else 0).
Proof. destruct status, counted; simpl; lia. Qed.

(** The loop appends one item per provider, in order, and counts it. *)
Lemma report_fold_items (mc : ModelCatalog) (now : time.Time)
    (providers : list ModelProvider)
    (acc : list ProviderModelSnapshotHealth * ProviderModelSnapshotHealthSummary) :
  (foldl (reportStep mc now) acc providers).1
  = (acc.1 ++ (reportItem mc now <$> providers))%list.
Proof.
  revert acc. induction providers as [|p providers IH]; intros acc; simpl.
  { by rewrite app_nil_r. }
  rewrite IH. simpl. by rewrite <- app_assoc.
Qed.

Lemma report_fold_total (mc : ModelCatalog) (now : time.Time)
    (providers : list ModelProvider)
    (acc : list ProviderModelSnapshotHealth * ProviderModelSnapshotHealthSummary) :
  (foldl (reportStep mc now) acc providers).2.(TotalProviders)
  = acc.2.(TotalProviders) + Z.of_nat (length providers).
Proof.
  revert acc. induction providers as [|p providers IH]; intros acc; simpl.
  { lia. }
  rewrite IH. simpl. rewrite countStatus_total. lia.
Qed.

Lemma report_fold_counter (mc : ModelCatalog) (now : time.Time)
    (providers : list ModelProvider) (counted : ProviderModelHealthStatus)
    (acc : list ProviderModelSnapshotHealth * ProviderModelSnapshotHealthSummary) :
  summaryCounter counted (foldl (reportStep mc now) acc providers).2
  = summaryCounter counted acc.2
    + countWithStatus counted (reportItem mc now <$> providers).
Proof.
  revert acc. induction providers as [|p providers IH]; intros acc.
  { unfold countWithStatus. simpl. lia. }
  cbn [foldl]. rewrite IH. unfold reportStep. cbn [snd].
  rewrite countStatus_counter. unfold countWithStatus.
  rewrite fmap_cons, filter_cons.
  repeat case_decide; simpl; try done; lia.
Qed.

Lemma countWithStatus_pos (status : ProviderModelHealthStatus)
    (items : list ProviderModelSnapshotHealth) :
  0 < countWithStatus status items
  ↔ ∃ item, item ∈ items ∧ item.(sh_Status) = status.
Proof.
  unfold countWithStatus.
  destruct (filter _ items) as [|item rest] eqn:Hf; simpl.
  - split; [lia|]. intros (item & Hin & Hst).
    assert (item ∈ filter (λ item, sh_Status item = status) items) as Hin'
      by (by apply list_elem_of_filter).
    rewrite Hf in Hin'. by apply elem_of_nil in Hin'.
  - split; [|lia]. intros _. exists item.
    assert (item ∈ filter (λ item, sh_Status item = status) items) as Hin
      by (rewrite Hf; apply elem_of_cons; by left).
    apply list_elem_of_filter in Hin. tauto.
Qed.

Lemma countWithStatus_nonneg (status : ProviderModelHealthStatus)
    (items : list ProviderModelSnapshotHealth) :
  0 ≤ countWithStatus status items.
Proof. unfold countWithStatus. lia. Qed.

(** The fields of the report in closed form. *)
Lemma reportOver_Providers (range : list ModelProvider) (mc : ModelCatalog)
    (now : time.Time) :
  (reportOver range mc now).(Providers)
  = reportItem mc now <$> sortProviders range.
Proof.
  unfold reportOver.
  pose proof (report_fold_items mc now (sortProviders range) ([], zeroSummary)) as Hi.
  destruct (foldl _ _ _) as [items summary]. exact Hi.
Qed.

Lemma reportOver_Summary (range : list ModelProvider) (mc : ModelCatalog)
    (now : time.Time) :
  (reportOver range mc now).(Summary).(TotalProviders)
  = Z.of_nat (length (reportOver range mc now).(Providers))
  ∧ ∀ status, summaryCounter status (reportOver range mc now).(Summary)
              = countWithStatus status (reportOver range mc now).(Providers).
Proof.
  rewrite reportOver_Providers. unfold reportOver.
  pose proof (report_fold_total mc now (sortProviders range) ([], zeroSummary)) as Ht.
  pose proof (λ st, report_fold_counter mc now (sortProviders range) st
                      ([], zeroSummary)) as Hc.
  destruct (foldl _ _ _) as [items summary]. simpl in *. split.
  - rewrite Ht, length_fmap. lia.
  - intros status. rewrite Hc. destruct status; simpl; lia.
Qed.

Lemma reportOver_Status (range : list ModelProvider) (mc : ModelCatalog)
    (now : time.Time) :
  (reportOver range mc now).(Status)
  = reportStatusOf (reportOver range mc now).(Summary).
Proof. unfold reportOver. by destruct (foldl _ _ _). Qed.

Lemma reportOver_GeneratedAt (range : list ModelProvider) (mc : ModelCatalog)
    (now : time.Time) :
  (reportOver range mc now).(GeneratedAt) = now
  ∧ (reportOver range mc now).(StaleAfterSeconds) = 86400.
Proof. unfold reportOver. by destruct (foldl _ _ _). Qed.

End report.

(** C3.  The overall status of the report is derived from the summary
    counts, which count the providers by merged status: unknown when no
    provider is known; error when at least one provider is in error;
    otherwise degraded when at least one provider is stale or degraded;
    otherwise healthy when at least one provider is healthy; otherwise
    unknown.  The report carries the time of the call as generation
    timestamp and the staleness threshold in seconds, 86400. *)
Theorem report_status_from_summary (mc : ModelCatalog) (now : time.Time) :
  let r := GetProviderModelSnapshotHealthReport mc now in
  let some status := ∃ item, item ∈ r.(Providers) ∧ item.(sh_Status) = status in
  (r.(Summary).(TotalProviders) = Z.of_nat (length r.(Providers))
   ∧ ∀ status, summaryCounter status r.(Summary)
               = countWithStatus status r.(Providers))
  ∧ (∀ item, item ∈ r.(Providers) →
       item.(sh_Status)
       = mergeProviderHealthStatus item.(sh_FilteredDiscovery).(dh_Status)
           item.(sh_UnfilteredDiscovery).(dh_Status))
  ∧ r.(Status) = reportStatusOf r.(Summary)
  ∧ (providerSet mc = ∅ → r.(Status) = ProviderModelHealthUnknown)
  ∧ (r.(Providers) = [] → r.(Status) = ProviderModelHealthUnknown)
  ∧ (some ProviderModelHealthError → r.(Status) = ProviderModelHealthError)
  ∧ (¬ some ProviderModelHealthError →
     some ProviderModelHealthStale ∨ some ProviderModelHealthDegraded →
     r.(Status) = ProviderModelHealthDegraded)
  ∧ (¬ some ProviderModelHealthError → ¬ some ProviderModelHealthStale →
     ¬ some ProviderModelHealthDegraded → some ProviderModelHealthHealthy →
     r.(Status) = ProviderModelHealthHealthy)
  ∧ (¬ some ProviderModelHealthError → ¬ some ProviderModelHealthStale →
     ¬ some ProviderModelHealthDegraded → ¬ some ProviderModelHealthHealthy →
     r.(Status) = ProviderModelHealthUnknown)
  ∧ r.(GeneratedAt) = now
  ∧ r.(StaleAfterSeconds) = 86400
  ∧ r.(StaleAfterSeconds) * time.Second = DefaultProviderModelSnapshotStaleAfter.
Proof.
  intros r some. subst r some. unfold GetProviderModelSnapshotHealthReport.
  set (range := elements (providerSet mc)).
  destruct (reportOver_Summary range mc now) as [Htotal Hcount].
  destruct (reportOver_GeneratedAt range mc now) as [Hgen Hsec].
  pose proof (reportOver_Status range mc now) as Hstatus.
  assert (∀ status,
            (∃ item, item ∈ (reportOver range mc now).(Providers)
                     ∧ item.(sh_Status) = status)
            ↔ 0 < summaryCounter status (reportOver range mc now).(Summary)) as Hsome.
  { intros status. by rewrite Hcount, countWithStatus_pos. }
  assert (∀ status, 0 ≤ summaryCounter status (reportOver range mc now).(Summary))
    as Hnonneg.
  { intros status. rewrite Hcount. apply countWithStatus_nonneg. }
  assert (∀ status,
            (∃ item, item ∈ (reportOver range mc now).(Providers)
                     ∧ item.(sh_Status) = status)
            → (reportOver range mc now).(Summary).(TotalProviders) ≠ 0) as Hknown.
  { intros status (item & Hin & _). rewrite Htotal.
    destruct (Providers (reportOver range mc now)); [by apply elem_of_nil in Hin|].
    simpl. lia. }
  pose proof (Hsome ProviderModelHealthError) as He.
  pose proof (Hsome ProviderModelHealthStale) as Hs.
  pose proof (Hsome ProviderModelHealthDegraded) as Hd.
  pose proof (Hsome ProviderModelHealthHealthy) as Hh.
  pose proof (Hnonneg ProviderModelHealthError) as He0.
  pose proof (Hnonneg ProviderModelHealthStale) as Hs0.
  pose proof (Hnonneg ProviderModelHealthDegraded) as Hd0.
  pose proof (Hnonneg ProviderModelHealthHealthy) as Hh0.
  simpl in He, Hs, Hd, Hh, He0, Hs0, Hd0, Hh0.
  assert ((reportOver range mc now).(Providers) = [] →
          (reportOver range mc now).(Status) = ProviderModelHealthUnknown) as Hnone.
  { intros Hnil. rewrite Hstatus. unfold reportStatusOf.
    rewrite Htotal, Hnil. done. }
  split; [done|]. split.
  { intros item. rewrite reportOver_Providers. intros Hin.
    apply list_elem_of_fmap in Hin as (p & -> & _). done. }
  split; [done|]. split.
  { intros Hempty. apply Hnone. rewrite reportOver_Providers.
    subst range. rewrite Hempty, elements_empty. done. }
  split; [done|].
  rewrite Hstatus. unfold reportStatusOf.
  repeat split; try done.
  - intros Hx. pose proof (Hknown _ Hx) as Hk. apply He in Hx.
    apply Z.eqb_neq in Hk as ->. by apply Z.ltb_lt in Hx as ->.
  - intros Hne Hx.
    assert (TotalProviders (Summary (reportOver range mc now)) ≠ 0) as Hk.
    { destruct Hx as [Hx | Hx]; by apply Hknown in Hx. }
    apply Z.eqb_neq in Hk as ->.
    assert (ErrorProviders (Summary (reportOver range mc now)) = 0) as ->
      by (rewrite He in Hne; lia).
    simpl. destruct Hx as [Hx | Hx].
    + apply Hs in Hx. by apply Z.ltb_lt in Hx as ->.
    + apply Hd in Hx. apply Z.ltb_lt in Hx as ->. by rewrite orb_true_r.
  - intros Hne Hns Hnd Hx. pose proof (Hknown _ Hx) as Hk. apply Hh in Hx.
    apply Z.eqb_neq in Hk as ->.
    assert (ErrorProviders (Summary (reportOver range mc now)) = 0) as ->
      by (rewrite He in Hne; lia).
    assert (StaleProviders (Summary (reportOver range mc now)) = 0) as ->
      by (rewrite Hs in Hns; lia).
    assert (DegradedProviders (Summary (reportOver range mc now)) = 0) as ->
      by (rewrite Hd in Hnd; lia).
    simpl. by apply Z.ltb_lt in Hx as ->.
  - intros Hne Hns Hnd Hnh.
    assert (ErrorProviders (Summary (reportOver range mc now)) = 0) as ->
      by (rewrite He in Hne; lia).
    assert (StaleProviders (Summary (reportOver range mc now)) = 0) as ->
      by (rewrite Hs in Hns; lia).
    assert (DegradedProviders (Summary (reportOver range mc now)) = 0) as ->
      by (rewrite Hd in Hnd; lia).
    assert (HealthyProviders (Summary (reportOver range mc now)) = 0) as ->
      by (rewrite Hh in Hnh; lia).
    simpl. by destruct (_ =? 0).
  - by rewrite Hsec.
Qed.

Lemma report_status_from_summary_witness :
  let mc := (@RecordProviderModelDiscoveryResult scenarioSchemas emptyCatalog
               1000 "moonshot" false None None).1 in
  (GetProviderModelSnapshotHealthReport mc (1000 + 48 * time.Hour)).(Status)
  = ProviderModelHealthDegraded.
Proof.
  intros mc.
  destruct (report_status_from_summary mc (1000 + 48 * time.Hour))
    as (_ & _ & _ & _ & _ & _ & Hdegraded & _).
  apply Hdegraded.
  - intros (item & Hin & Hst). vm_compute in Hin.
    apply list_elem_of_singleton in Hin. subst item. discriminate Hst.
  - left. eexists. split; [vm_compute; apply list_elem_of_here | reflexivity].
Defined.

(** ** Order of the providers of a report *)

Section provider_order.

Lemma le_neq_providerLess (a b : ModelProvider) :
  String.le a b → a ≠ b → providerLess a b.
Proof.
  unfold String.le, String.leb, providerLess, String.ltb.
  destruct (String.compare a b) eqn:Hc; [|done|done].
  apply String.compare_eq_iff in Hc. congruence.
Qed.

(** Sorting forgets the order in which the runtime enumerated the keys. *)
Lemma sortProviders_Permutation (range1 range2 : list ModelProvider) :
  range1 ≡ₚ range2 → sortProviders range1 = sortProviders range2.
Proof.
  intros Hperm. unfold sortProviders.
  apply (Sorted_unique String.le); [apply Sorted_merge_sort; apply _..|].
  by rewrite !merge_sort_Permutation.
Qed.

Lemma StronglySorted_le_NoDup (l : list ModelProvider) :
  StronglySorted String.le l → NoDup l → StronglySorted providerLess l.
Proof.
  induction 1 as [|x l Hl IH Hx]; intros Hnd; constructor.
  - apply IH. by apply NoDup_cons in Hnd as [_ ?].
  - apply NoDup_cons in Hnd as [Hnin _].
    rewrite Forall_forall in Hx |- *. intros y Hy.
    apply le_neq_providerLess; [by apply Hx|]. intros ->. done.
Qed.

Lemma sortProviders_sorted (range : list ModelProvider) :
  NoDup range → StronglySorted providerLess (sortProviders range).
Proof.
  intros Hnd. apply StronglySorted_le_NoDup.
  - apply StronglySorted_merge_sort; apply _.
  - unfold sortProviders. by rewrite merge_sort_Permutation.
Qed.

Lemma sortProviders_elem_of (range : list ModelProvider) (p : ModelProvider) :
  p ∈ sortProviders range ↔ p ∈ range.
Proof. unfold sortProviders. by rewrite merge_sort_Permutation. Qed.

Lemma report_keys (range : list ModelProvider) (mc : ModelCatalog) (now : time.Time) :
  sh_Provider <$> (reportOver range mc now).(Providers) = sortProviders range.
Proof.
  rewrite reportOver_Providers, <- list_fmap_compose.
  apply list_fmap_id.
Qed.

Lemma elem_of_providerSet (mc : ModelCatalog) (p : ModelProvider) :
  p ∈ providerSet mc
  ↔ is_Some (mc.(modelPool) !! p) ∨ is_Some (mc.(unfilteredModelPool) !! p)
    ∨ is_Some (mc.(providerModelSnapshots) !! p)
    ∨ is_Some (mc.(providerModelHealth) !! p)
    ∨ is_Some (mc.(providerModelSources) !! p)
    ∨ is_Some (mc.(unfilteredProviderModelSources) !! p).
Proof. unfold providerSet. rewrite !elem_of_union, !elem_of_dom. tauto. Qed.

(** The status of a variant does not move while the age of its success
    stays on one side of the threshold. *)
Lemma discoveryStatus_same_side (state : providerDiscoveryState)
    (now1 now2 : time.Time) :
  sameSideOfThreshold now1 now2 state →
  discoveryStatus state now1 = discoveryStatus state now2.
Proof.
  unfold sameSideOfThreshold, discoveryStatus. intros Hside.
  assert ((DefaultProviderModelSnapshotStaleAfter
             <? time.Sub now1 state.(LastSuccessAt))
          = (DefaultProviderModelSnapshotStaleAfter
               <? time.Sub now2 state.(LastSuccessAt))) as ->; [|done].
  apply eq_true_iff_eq. by rewrite !Sub_exceeds_threshold.
Qed.

Lemma reportItem_same_side (mc : ModelCatalog) (now1 now2 : time.Time)
    (p : ModelProvider) :
  (∀ state, mc.(providerModelHealth) !! p = Some state →
     sameSideOfThreshold now1 now2 state.(Filtered)
     ∧ sameSideOfThreshold now1 now2 state.(Unfiltered)) →
  reportItem mc now1 p = reportItem mc now2 p.
Proof.
  intros Hside. unfold reportItem, toProviderModelDiscoveryHealth, healthOf.
  destruct (providerModelHealth mc !! p) as [state|]; simpl; [|done].
  destruct (Hside state eq_refl) as [Hf Hu].
  by rewrite (discoveryStatus_same_side _ _ _ Hf),
    (discoveryStatus_same_side _ _ _ Hu).
Qed.

Lemma reportOver_withGeneratedAt (range : list ModelProvider) (mc : ModelCatalog)
    (now t : time.Time) :
  withGeneratedAt t (reportOver range mc now)
  = let '(items, summary) :=
      foldl (reportStep mc now) ([], zeroSummary) (sortProviders range) in
    mkReport (reportStatusOf summary) t 86400 summary items.
Proof. unfold reportOver. by destruct (foldl _ _ _). Qed.

Lemma report_fold_ext (mc : ModelCatalog) (now1 now2 : time.Time)
    (providers : list ModelProvider)
    (acc : list ProviderModelSnapshotHealth * ProviderModelSnapshotHealthSummary) :
  (∀ p, p ∈ providers → reportItem mc now1 p = reportItem mc now2 p) →
  foldl (reportStep mc now1) acc providers = foldl (reportStep mc now2) acc providers.
Proof.
  revert acc. induction providers as [|p providers IH]; intros acc Hitems; [done|].
  cbn [foldl]. rewrite IH.
  - unfold reportStep. rewrite (Hitems p); [done | apply list_elem_of_here].
  - intros q Hq. apply Hitems. by apply list_elem_of_further.
Qed.

End provider_order.

(** The report is a function of the catalog and of the clock: with the
    catalog untouched, a report taken exactly 24 hours after the recorded
    successes is healthy and the one taken a nanosecond later is degraded. *)
Lemma report_changes_across_threshold :
  withGeneratedAt 0
    (GetProviderModelSnapshotHealthReport discoveredCatalog (1000 + 24 * time.Hour))
  ≠ withGeneratedAt 0
      (GetProviderModelSnapshotHealthReport discoveredCatalog
         (1000 + 24 * time.Hour + 1)).
Proof. vm_compute. discriminate. Qed.

(** C7 (amended).  Two reports of an unchanged catalog are identical except
    for the generation timestamp, whatever the order in which the runtime
    enumerates the provider keys, provided that no recorded success crosses
    the staleness threshold between the two calls; and the providers of a
    report are the union of the keys of the pool, snapshot, source and health
    maps, in strictly ascending order of identifier. *)
Theorem report_deterministic_sorted (mc : ModelCatalog) (now1 now2 t : time.Time)
    (range1 range2 : list ModelProvider) :
  range1 ≡ₚ elements (providerSet mc) →
  range2 ≡ₚ elements (providerSet mc) →
  (∀ p state, mc.(providerModelHealth) !! p = Some state →
     sameSideOfThreshold now1 now2 state.(Filtered)
     ∧ sameSideOfThreshold now1 now2 state.(Unfiltered)) →
  withGeneratedAt t (reportOver range1 mc now1)
  = withGeneratedAt t (reportOver range2 mc now2)
  ∧ reportOver range1 mc now1 = GetProviderModelSnapshotHealthReport mc now1
  ∧ StronglySorted providerLess
      (sh_Provider <$> (reportOver range1 mc now1).(Providers))
  ∧ ∀ p, p ∈ sh_Provider <$> (reportOver range1 mc now1).(Providers)
         ↔ is_Some (mc.(modelPool) !! p) ∨ is_Some (mc.(unfilteredModelPool) !! p)
           ∨ is_Some (mc.(providerModelSnapshots) !! p)
           ∨ is_Some (mc.(providerModelHealth) !! p)
           ∨ is_Some (mc.(providerModelSources) !! p)
           ∨ is_Some (mc.(unfilteredProviderModelSources) !! p).
Proof.
  intros Hr1 Hr2 Hside. repeat split.
  - rewrite !reportOver_withGeneratedAt.
    rewrite (sortProviders_Permutation range1 range2) by (by rewrite Hr1, Hr2).
    rewrite (report_fold_ext mc now1 now2); [done|].
    intros p _. apply reportItem_same_side. intros state. apply Hside.
  - unfold GetProviderModelSnapshotHealthReport, reportOver.
    by rewrite (sortProviders_Permutation range1 (elements (providerSet mc))).
  - rewrite report_keys. apply sortProviders_sorted.
    rewrite Hr1. apply NoDup_elements.
  - rewrite report_keys, sortProviders_elem_of, Hr1, elem_of_elements.
    apply elem_of_providerSet.
  - rewrite report_keys, sortProviders_elem_of, Hr1, elem_of_elements.
    apply elem_of_providerSet.
Qed.

Lemma report_deterministic_sorted_witness :
  withGeneratedAt 0
    (reportOver (elements (providerSet discoveredCatalog)) discoveredCatalog 2000)
  = withGeneratedAt 0
      (reportOver (elements (providerSet discoveredCatalog)) discoveredCatalog 3000).
Proof.
  apply (report_deterministic_sorted discoveredCatalog 2000 3000 0
           (elements (providerSet discoveredCatalog))
           (elements (providerSet discoveredCatalog))).
  - reflexivity.
  - reflexivity.
  - intros p state Hp.
    assert (discoveredCatalog.(providerModelHealth)
            = {[ "glm" := mkHealthState (mkDiscoveryState 1000 1000 0 "" 1)
                            (mkDiscoveryState 1000 1000 0 "" 1) 0 ]}) as Hmap
      by (vm_compute; reflexivity).
    rewrite Hmap in Hp. apply lookup_singleton_Some in Hp as [_ <-].
    unfold sameSideOfThreshold. simpl. rewrite StaleAfter_value. lia.
Defined.

(** ** Pool resolution *)

Section pool_resolution.

Context `{Schemas}.

(** Signalling the worker leaves the pools and their tags alone. *)
Lemma persist_keeps_pools (mc : ModelCatalog) :
  let mc' := (persistProviderModelHealthState mc).1 in
  mc'.(modelPool) = mc.(modelPool)
  ∧ mc'.(unfilteredModelPool) = mc.(unfilteredModelPool)
  ∧ mc'.(providerModelSnapshots) = mc.(providerModelSnapshots)
  ∧ mc'.(providerModelSources) = mc.(providerModelSources)
  ∧ mc'.(unfilteredProviderModelSources) = mc.(unfilteredProviderModelSources).
Proof.
  unfold persistProviderModelHealthState.
  destruct (shouldPersistProviderModelHealthState mc); simpl; [|done].
  by destruct (providerModelHealthPersistSignal mc) as [[]|].
Qed.

Lemma firstNonEmptyTier_cons_nonempty (source : ProviderModelSource)
    (models : list string) (rest : list (ProviderModelSource * list string)) :
  models ≠ [] → firstNonEmptyTier ((source, models) :: rest) = Some (source, models).
Proof. by destruct models. Qed.

Lemma firstNonEmptyTier_cons_empty (source : ProviderModelSource)
    (rest : list (ProviderModelSource * list string)) :
  firstNonEmptyTier ((source, []) :: rest) = firstNonEmptyTier rest.
Proof. done. Qed.

(** What both upserts store once the pool is resolved from a fallback
    tier. *)
Lemma upsert_resolved (mc : ModelCatalog) (now : time.Time) (provider : ModelProvider)
    (modelData : option schemas.BifrostListModelsResponse)
    (discoveryErr : option schemas.BifrostError)
    (source : ProviderModelSource) (models : list string) :
  resolvePool mc provider modelData = Some (source, models) →
  source ≠ ProviderModelSourceLiveDiscovery →
  let filtered := (UpsertModelDataForProvider mc provider modelData discoveryErr).1 in
  let unfiltered := (UpsertUnfilteredModelDataForProvider mc now provider modelData).1 in
  filtered.(modelPool) !! provider = Some models
  ∧ filtered.(providerModelSources) !! provider = Some source
  ∧ unfiltered.(unfilteredModelPool) !! provider = Some models
  ∧ unfiltered.(unfilteredProviderModelSources) !! provider = Some source
  ∧ unfiltered.(providerModelSnapshots) = mc.(providerModelSnapshots).
Proof.
  intros Hres Hsrc filtered unfiltered. subst filtered unfiltered.
  unfold UpsertModelDataForProvider, UpsertUnfilteredModelDataForProvider.
  rewrite Hres.
  destruct (String.eqb_spec source ProviderModelSourceLiveDiscovery); [done|].
  destruct (persist_keeps_pools (withFilteredPool provider source models mc))
    as (-> & _ & _ & -> & _).
  destruct (persist_keeps_pools (withUnfilteredPool provider source models mc))
    as (_ & -> & -> & _ & ->).
  simpl. by rewrite !lookup_insert_eq.
Qed.

End pool_resolution.

(** C9.  When an upsert call brings no usable discovery data, the pool is
    resolved from the fallback tiers in strict order, the first non-empty
    tier winning: a non-empty durable snapshot becomes the pool as it is,
    whatever the pricing catalog and the seed list hold; with an empty
    snapshot the pricing entries of the provider do; with both empty the
    default seed list does.  The source tag is the tag of the tier that
    produced the pool, and the snapshot itself stays as it was.  This holds
    for the filtered and the unfiltered upsert alike. *)
Theorem upsert_fallback_precedence `{Schemas} (mc : ModelCatalog) (now : time.Time)
    (provider : ModelProvider)
    (modelData : option schemas.BifrostListModelsResponse)
    (discoveryErr : option schemas.BifrostError) :
  liveDiscoveryModels mc provider modelData = [] →
  let snapshot := modelsOf mc.(providerModelSnapshots) provider in
  let pricing := pricingModelsForProvider mc provider in
  let seed := getDefaultModelsForProvider provider in
  let filtered := (UpsertModelDataForProvider mc provider modelData discoveryErr).1 in
  let unfiltered := (UpsertUnfilteredModelDataForProvider mc now provider modelData).1 in
  let resolvedTo source models :=
    filtered.(modelPool) !! provider = Some models
    ∧ filtered.(providerModelSources) !! provider = Some source
    ∧ unfiltered.(unfilteredModelPool) !! provider = Some models
    ∧ unfiltered.(unfilteredProviderModelSources) !! provider = Some source
    ∧ unfiltered.(providerModelSnapshots) = mc.(providerModelSnapshots) in
  (snapshot ≠ [] → resolvedTo ProviderModelSourcePersistedSnapshot snapshot)
  ∧ (snapshot = [] → pricing ≠ [] →
     resolvedTo ProviderModelSourcePricingCatalog pricing)
  ∧ (snapshot = [] → pricing = [] → seed ≠ [] →
     resolvedTo ProviderModelSourceDefaultSeed seed).
Proof.
  intros Hlive snapshot pricing seed filtered unfiltered resolvedTo.
  subst resolvedTo filtered unfiltered. cbv beta.
  assert (resolvePool mc provider modelData
          = firstNonEmptyTier (fallbackTiers mc provider)) as Hres.
  { unfold resolvePool. by rewrite Hlive. }
  unfold fallbackTiers in Hres. fold snapshot pricing seed in Hres.
  split; [|split]; intros.
  all: eapply upsert_resolved;
    [| let Heq := fresh in intros Heq; vm_compute in Heq; discriminate Heq].
  - by rewrite Hres, firstNonEmptyTier_cons_nonempty.
  - rewrite Hres. subst snapshot pricing. 
    match goal with Hs : modelsOf _ _ = [] |- _ => rewrite Hs end.
    by rewrite firstNonEmptyTier_cons_empty, firstNonEmptyTier_cons_nonempty.
  - rewrite Hres. subst snapshot pricing seed.
    repeat match goal with Hs : _ = [] |- _ => rewrite Hs; clear Hs end.
    by rewrite !firstNonEmptyTier_cons_empty, firstNonEmptyTier_cons_nonempty.
Qed.

Lemma upsert_fallback_precedence_witness :
  (@UpsertModelDataForProvider scenarioSchemas snapshotAndPricingCatalog "glm"
     (Some (schemas.mkListModelsResponse [])) None).1.(modelPool) !! "glm"
  = Some ["glm-snapshot-primary"].
Proof.
  apply (@upsert_fallback_precedence scenarioSchemas snapshotAndPricingCatalog 1000
           "glm" (Some (schemas.mkListModelsResponse [])) None).
  - reflexivity.
  - vm_compute. discriminate.
Defined.

(** ** Scenarios *)

(** Every state the recorder writes has its attempt recorded, so on the
    states the tracker produces the first row of the status table never
    competes with the others. *)
Lemma recordOutcome_attempt_recorded `{Schemas} (now : time.Time)
    (provider : ModelProvider)
    (modelData : option schemas.BifrostListModelsResponse)
    (discoveryErr : option schemas.BifrostError) (target : providerDiscoveryState) :
  now ≠ time.zero →
  (recordOutcome now provider modelData discoveryErr target).(LastAttemptAt)
  ≠ time.zero.
Proof. intros Hnow. by destruct discoveryErr. Qed.

Lemma status_follows_table_witness :
  (toProviderModelDiscoveryHealth (mkDiscoveryState 1000 1000 2000 "boom" 3)
     5000).(dh_Status) = ProviderModelHealthError.
Proof.
  apply (proj1 (status_follows_table (mkDiscoveryState 1000 1000 2000 "boom" 3)
                  5000 ProviderModelHealthError)).
  apply row_error; simpl.
  - discriminate.
  - discriminate.
  - right. lia.
Defined.

Lemma merge_precedence_witness :
  mergeProviderHealthStatus ProviderModelHealthHealthy ProviderModelHealthUnknown
  = ProviderModelHealthDegraded.
Proof.
  destruct (merge_precedence ProviderModelHealthHealthy ProviderModelHealthUnknown)
    as (_ & _ & _ & Hdegraded & _).
  apply Hdegraded.
  - split; discriminate.
  - split; discriminate.
  - right. split; [discriminate | reflexivity].
Defined.

Lemma record_error_frame_witness :
  let failure :=
    schemas.mkBifrostError
      (Some (schemas.mkErrorField "provider list models failed" None)) in
  let mc' := (@RecordProviderModelDiscoveryResult scenarioSchemas discoveredCatalog
                2000 "glm" false None (Some failure)).1 in
  (targetOf false (healthOf mc' "glm")).(LastError) = "provider list models failed"
  ∧ (targetOf false (healthOf mc' "glm")).(LastSuccessAt) = 1000.
Proof.
  intros failure mc'.
  destruct (@record_error_frame scenarioSchemas discoveredCatalog 2000 "glm" false
              None failure)
    as (_ & _ & _ & Hmessage & _ & _ & Hsuccess & _).
  split.
  - apply (Hmessage (schemas.mkErrorField "provider list models failed" None)).
    + reflexivity.
    + discriminate.
  - exact Hsuccess.
Defined.

(** * Further properties *)

(** ** Unique append ([appendUniqueModels]) *)

Section unique_append.

(** The loop, started with [seenModels] holding the names of [target]:
    what it appends has no duplicates, keeps the order of [candidates] and
    is what [candidates] has beyond [target]. *)
Lemma appendUnique_loop (candidates target : list string) (seen : gset string) :
  seen = list_to_set target →
  ∃ added : list string,
    (foldl (λ (acc : list string * gset string) (model : string),
              if bool_decide (model ∈ acc.2) then acc
              else ((acc.1 ++ [model])%list, {[model]} ∪ acc.2))
           (target, seen) candidates).1 = (target ++ added)%list
    ∧ NoDup added
    ∧ added `sublist_of` candidates
    ∧ ∀ x, x ∈ added ↔ x ∈ candidates ∧ x ∉ target.
Proof.
  revert target seen.
  induction candidates as [|c candidates IH]; intros target seen Hseen.
  { exists []. rewrite app_nil_r. split_and!; try done.
    - constructor.
    - intros x. split; [by intros ?%elem_of_nil | by intros [?%elem_of_nil _]]. }
  cbn [foldl fst snd]. case_bool_decide as Hc.
  - destruct (IH target seen Hseen) as (added & Heq & Hnd & Hsub & Hin).
    exists added. split_and!; try done.
    + by apply sublist_cons.
    + intros x. rewrite Hin, elem_of_cons. split; [tauto|].
      intros [[-> | Hx] Hnt]; [|done].
      exfalso. apply Hnt. subst seen. by apply elem_of_list_to_set in Hc.
  - destruct (IH (target ++ [c])%list ({[c]} ∪ seen))
      as (added & Heq & Hnd & Hsub & Hin).
    { subst seen. rewrite list_to_set_app_L. set_solver. }
    assert (c ∉ target) as Hct.
    { subst seen. by rewrite elem_of_list_to_set in Hc. }
    exists (c :: added). rewrite Heq, <- app_assoc. split_and!; try done.
    + apply NoDup_cons. split; [|done]. intros Hca. apply Hin in Hca as [_ Hca].
      apply Hca. apply elem_of_app. right. by apply list_elem_of_singleton.
    + by apply sublist_skip.
    + intros x. rewrite !elem_of_cons, Hin, elem_of_app, list_elem_of_singleton.
      split.
      * intros [-> | [Hx Hnt]]; [tauto|]. split; [by right | tauto].
      * intros [[-> | Hx] Hnt]; [by left|].
        destruct (decide (x = c)) as [-> | Hne]; [by left|]. right. tauto.
Qed.

(** The order of what the loop appends: a name appended before another
    occurs in [candidates] before every occurrence of the other. *)
Lemma appendUnique_loop_order (candidates target : list string) (seen : gset string)
    (added : list string) :
  seen = list_to_set target →
  (foldl (λ (acc : list string * gset string) (model : string),
            if bool_decide (model ∈ acc.2) then acc
            else ((acc.1 ++ [model])%list, {[model]} ∪ acc.2))
         (target, seen) candidates).1 = (target ++ added)%list →
  ∀ (i j : nat) (x y : string),
    added !! i = Some x → added !! j = Some y → (i < j)%nat →
    ∃ k : nat, candidates !! k = Some x ∧ y ∉ take k candidates.
Proof.
  revert target seen added.
  induction candidates as [|c candidates IH]; intros target seen added Hseen Heq.
  { cbn [foldl fst] in Heq. rewrite <- (app_nil_r target) in Heq at 1.
    apply app_inv_head in Heq as <-. by intros i j x y ?. }
  cbn [foldl fst snd] in Heq. case_bool_decide as Hc.
  - destruct (appendUnique_loop candidates target seen Hseen)
      as (added0 & Heq0 & _ & _ & Hin0).
    rewrite Heq in Heq0. apply app_inv_head in Heq0 as <-.
    intros i j x y Hx Hy Hij.
    destruct (IH target seen added Hseen Heq i j x y Hx Hy Hij) as (k & Hk & Hnot).
    exists (S k). split; [done|]. cbn [take]. apply not_elem_of_cons. split; [|done].
    intros ->. apply list_elem_of_lookup_2, Hin0 in Hy as [_ Hy].
    apply Hy. subst seen. by apply elem_of_list_to_set in Hc.
  - assert ({[c]} ∪ seen = list_to_set (target ++ [c])) as Hseen'.
    { subst seen. rewrite list_to_set_app_L. set_solver. }
    destruct (appendUnique_loop candidates (target ++ [c])%list ({[c]} ∪ seen) Hseen')
      as (added0 & Heq0 & _ & _ & Hin0).
    assert (added = c :: added0) as ->.
    { rewrite Heq0, <- app_assoc in Heq. by apply app_inv_head in Heq. }
    intros i j x y Hx Hy Hij.
    destruct j as [|j]; [lia|]. cbn [lookup list_lookup] in Hy.
    assert (y ≠ c) as Hyc.
    { intros ->. apply list_elem_of_lookup_2, Hin0 in Hy as [_ Hy].
      apply Hy, elem_of_app. right. by apply list_elem_of_singleton. }
    destruct i as [|i].
    + injection Hx as <-. exists 0%nat. split; [done|]. cbn [take]. apply not_elem_of_nil.
    + cbn [lookup list_lookup] in Hx.
      destruct (IH (target ++ [c])%list ({[c]} ∪ seen) added0 Hseen' Heq0
                  i j x y Hx Hy ltac:(lia)) as (k & Hk & Hnot).
      exists (S k). split; [done|]. cbn [take]. by apply not_elem_of_cons.
Qed.

(** "Occurs in [candidates] before every occurrence of": two names that
    each occur before the other are the same name. *)
Lemma occurs_before_antisym (candidates : list string) (x y : string) :
  (∃ k : nat, candidates !! k = Some x ∧ y ∉ take k candidates) →
  (∃ k : nat, candidates !! k = Some y ∧ x ∉ take k candidates) →
  x = y.
Proof.
  intros (k1 & Hx & Hny) (k2 & Hy & Hnx).
  destruct (decide (k1 < k2)%nat) as [Hlt|].
  { destruct Hnx. apply elem_of_take. by exists k1. }
  destruct (decide (k2 < k1)%nat) as [Hlt|].
  { destruct Hny. apply elem_of_take. by exists k2. }
  assert (k1 = k2) as -> by lia. congruence.
Qed.

(** A list ordered position by position is strongly sorted. *)
Lemma ordered_StronglySorted (R : relation string) (l : list string) :
  (∀ (i j : nat) (x y : string),
     l !! i = Some x → l !! j = Some y → (i < j)%nat → R x y) →
  StronglySorted R l.
Proof.
  induction l as [|a l IH]; intros Hord; constructor.
  - apply IH. intros i j x y Hx Hy Hij. apply (Hord (S i) (S j)); [done | done | lia].
  - apply Forall_lookup. intros j y Hy. apply (Hord 0%nat (S j)); [done | done | lia].
Qed.

(** Membership, the absence of duplicates and the order of first
    occurrence leave one list only. *)
Lemma first_occurrence_order_unique (candidates l1 l2 : list string) :
  NoDup l1 → NoDup l2 → (∀ x, x ∈ l1 ↔ x ∈ l2) →
  (∀ (i j : nat) (x y : string),
     l1 !! i = Some x → l1 !! j = Some y → (i < j)%nat →
     ∃ k : nat, candidates !! k = Some x ∧ y ∉ take k candidates) →
  (∀ (i j : nat) (x y : string),
     l2 !! i = Some x → l2 !! j = Some y → (i < j)%nat →
     ∃ k : nat, candidates !! k = Some x ∧ y ∉ take k candidates) →
  l1 = l2.
Proof.
  intros Hnd1 Hnd2 Hsame Hord1 Hord2.
  apply (StronglySorted_unique_strong
           (λ x y, ∃ k : nat, candidates !! k = Some x ∧ y ∉ take k candidates)).
  - intros x y _ _. apply occurs_before_antisym.
  - by apply ordered_StronglySorted.
  - by apply ordered_StronglySorted.
  - by apply NoDup_Permutation.
Qed.

Lemma sublist_full_length (l1 l2 : list string) :
  l1 `sublist_of` l2 → (length l2 ≤ length l1)%nat → l1 = l2.
Proof.
  induction 1 as [|x l1 l2 Hsub IH|x l1 l2 Hsub IH]; simpl; intros Hlen.
  - done.
  - f_equal. apply IH. lia.
  - apply sublist_length in Hsub. lia.
Qed.

Lemma appendUniqueModels_added (target candidates : list string) :
  ∃ added : list string,
    appendUniqueModels target candidates = (target ++ added)%list
    ∧ NoDup added
    ∧ added `sublist_of` candidates
    ∧ ∀ x, x ∈ added ↔ x ∈ candidates ∧ x ∉ target.
Proof.
  unfold appendUniqueModels.
  destruct (appendUnique_loop candidates target (list_to_set target) eq_refl)
    as (added & Heq & Hnd & Hsub & Hin).
  exists added. split_and!; try done.
  destruct candidates; [|done]. apply sublist_nil_r in Hsub as ->.
  by rewrite app_nil_r.
Qed.

Lemma appendUniqueModels_elem_of (target candidates : list string) (x : string) :
  x ∈ appendUniqueModels target candidates ↔ x ∈ target ∨ x ∈ candidates.
Proof.
  destruct (appendUniqueModels_added target candidates) as (added & -> & _ & _ & Hin).
  rewrite elem_of_app, Hin. destruct (decide (x ∈ target)); tauto.
Qed.

Lemma appendUniqueModels_noop (target candidates : list string) :
  (∀ x, x ∈ candidates → x ∈ target) →
  appendUniqueModels target candidates = target.
Proof.
  intros Hall.
  destruct (appendUniqueModels_added target candidates) as (added & -> & _ & _ & Hin).
  destruct added as [|a added]; [by rewrite app_nil_r|].
  exfalso. destruct (proj1 (Hin a) (list_elem_of_here _ _)) as [Hc Hnt].
  by apply Hnt, Hall.
Qed.

End unique_append.

(** X1.  [appendUniqueModels] keeps [target] as it is at the front of the
    result, and what it appends are the candidates that [target] lacks, each
    once and in the order of their first occurrence: of two appended names
    the earlier one occurs in [candidates] before every occurrence of the
    later one, and no other list has these properties.  A target without
    duplicates gives a result without duplicates. *)
Theorem appendUniqueModels_appends (target candidates : list string) :
  ∃ added : list string,
    appendUniqueModels target candidates = (target ++ added)%list
    ∧ NoDup added
    ∧ added `sublist_of` candidates
    ∧ (∀ x, x ∈ added ↔ x ∈ candidates ∧ x ∉ target)
    ∧ (∀ (i j : nat) (x y : string),
         added !! i = Some x → added !! j = Some y → (i < j)%nat →
         ∃ k : nat, candidates !! k = Some x ∧ y ∉ take k candidates)
    ∧ (∀ other : list string,
         NoDup other →
         (∀ x, x ∈ other ↔ x ∈ candidates ∧ x ∉ target) →
         (∀ (i j : nat) (x y : string),
            other !! i = Some x → other !! j = Some y → (i < j)%nat →
            ∃ k : nat, candidates !! k = Some x ∧ y ∉ take k candidates) →
         other = added)
    ∧ (∀ x, x ∈ appendUniqueModels target candidates ↔ x ∈ target ∨ x ∈ candidates)
    ∧ (NoDup target → NoDup (appendUniqueModels target candidates)).
Proof.
  destruct (appendUniqueModels_added target candidates)
    as (added & Heq & Hnd & Hsub & Hin).
  assert (∀ (i j : nat) (x y : string),
            added !! i = Some x → added !! j = Some y → (i < j)%nat →
            ∃ k : nat, candidates !! k = Some x ∧ y ∉ take k candidates) as Hord.
  { destruct candidates as [|c candidates].
    { apply sublist_nil_r in Hsub as ->. by intros i j x y ?. }
    apply (appendUnique_loop_order (c :: candidates) target (list_to_set target));
      [done | exact Heq]. }
  exists added. split_and!; try done.
  - intros other Hndo Hino Hordo.
    apply (first_occurrence_order_unique candidates); try done.
    intros x. by rewrite Hino, Hin.
  - intros x. apply appendUniqueModels_elem_of.
  - intros Hnt. rewrite Heq. apply NoDup_app. split_and!; try done.
    intros x Hx Hxa. by apply Hin in Hxa as [_ ?].
Qed.

Lemma appendUniqueModels_appends_witness :
  appendUniqueModels ["glm-5"] ["glm-4.7"; "glm-4.6"; "glm-4.7"; "glm-5"]
  = ["glm-5"; "glm-4.7"; "glm-4.6"]
  ∧ NoDup (appendUniqueModels ["glm-5"] ["glm-4.7"; "glm-4.6"; "glm-4.7"; "glm-5"]).
Proof.
  destruct (appendUniqueModels_appends ["glm-5"]
              ["glm-4.7"; "glm-4.6"; "glm-4.7"; "glm-5"])
    as (added & Heq & _ & _ & _ & _ & Hunique & _ & Hnd).
  split; [|apply Hnd, NoDup_singleton].
  rewrite Heq. rewrite <- (Hunique ["glm-4.7"; "glm-4.6"]); [reflexivity | | |].
  - apply NoDup_cons. split; [|apply NoDup_singleton].
    intros Hin. apply list_elem_of_singleton in Hin. discriminate Hin.
  - intros x. rewrite !elem_of_cons, !elem_of_nil. split.
    + intros [-> | [-> | []]]; (split; [tauto|]); intros [[=] | []].
    + intros [[-> | [-> | [-> | [-> | []]]]] Hnot]; tauto.
  - intros i j x y Hx Hy Hij.
    destruct i as [|[|i]]; destruct j as [|[|j]]; try lia; try done.
    injection Hx as <-. injection Hy as <-. exists 0%nat.
    split; [reflexivity | apply not_elem_of_nil].
Defined.

(** X2.  Candidates that are all in [target] already change nothing, so
    appending the same candidates a second time is a no-op; candidates
    without duplicates that [target] lacks are appended as they are. *)
Theorem appendUniqueModels_idempotent (target candidates : list string) :
  ((∀ x, x ∈ candidates → x ∈ target) →
   appendUniqueModels target candidates = target)
  ∧ appendUniqueModels (appendUniqueModels target candidates) candidates
    = appendUniqueModels target candidates
  ∧ (NoDup candidates → (∀ x, x ∈ candidates → x ∉ target) →
     appendUniqueModels target candidates = (target ++ candidates)%list).
Proof.
  split_and!.
  - apply appendUniqueModels_noop.
  - apply appendUniqueModels_noop. intros x Hx.
    apply appendUniqueModels_elem_of. by right.
  - intros Hnd Hdisj.
    destruct (appendUniqueModels_added target candidates)
      as (added & -> & Hna & Hsub & Hin).
    f_equal. apply sublist_full_length; [done|].
    apply submseteq_length, NoDup_submseteq; [done|].
    intros x Hx. apply Hin. split; [done | by apply Hdisj].
Qed.

Lemma appendUniqueModels_idempotent_witness :
  appendUniqueModels ["glm-5"] ["glm-4.7"; "glm-4.6"]
  = ["glm-5"; "glm-4.7"; "glm-4.6"].
Proof.
  apply (appendUniqueModels_idempotent ["glm-5"] ["glm-4.7"; "glm-4.6"]).
  - apply NoDup_cons. split.
    + intros Hin. apply list_elem_of_singleton in Hin. discriminate Hin.
    + apply NoDup_singleton.
  - intros x Hx Hin. apply list_elem_of_singleton in Hin. subst x.
    apply elem_of_cons in Hx as [Hx | Hx]; [discriminate Hx|].
    apply list_elem_of_singleton in Hx. discriminate Hx.
Defined.

(** ** Default seed list and model count *)

Section seed_and_count.

Context `{Schemas}.

Lemma size_list_to_set_le (l : list string) :
  (size (list_to_set l : gset string) ≤ length l)%nat.
Proof.
  induction l as [|x l IH].
  { rewrite list_to_set_nil, size_empty. done. }
  rewrite list_to_set_cons, size_union_alt, size_singleton. cbn [length].
  assert (size (list_to_set l ∖ {[x]} : gset string)
          ≤ size (list_to_set l : gset string))%nat
    by (apply subseteq_size; set_solver).
  lia.
Qed.

Lemma elem_of_parsedModelsOfProvider (provider : ModelProvider)
    (data : list schemas.Model) (name : string) :
  name ∈ parsedModelsOfProvider provider data
  ↔ ∃ model, model ∈ data
             ∧ (ParseModelString model.(schemas.ID) provider).1 = provider
             ∧ (ParseModelString model.(schemas.ID) provider).2 = name.
Proof.
  unfold parsedModelsOfProvider. rewrite list_elem_of_fmap. split.
  - intros (model & -> & Hin). apply list_elem_of_filter in Hin as [Hp Hin].
    by exists model.
  - intros (model & Hin & Hp & <-). exists model. split; [done|].
    by apply list_elem_of_filter.
Qed.

End seed_and_count.

(** X3.  [getDefaultModelsForProvider] answers with a non-empty seed list
    exactly for the six seeded providers; every other provider gets the empty
    list. *)
Theorem getDefaultModelsForProvider_seeded `{Schemas} (provider : ModelProvider) :
  getDefaultModelsForProvider provider ≠ []
  ↔ provider ∈ [GLM; Minimax; Deepseek; Moonshot; Volcengine; Qwen].
Proof.
  unfold getDefaultModelsForProvider.
  destruct (defaultProviderModels !! provider) as [models|] eqn:Hlook.
  - unfold defaultProviderModels in Hlook.
    apply elem_of_list_to_map_2 in Hlook.
    repeat (apply elem_of_cons in Hlook as [Hlook | Hlook];
            [injection Hlook as -> ->; split; [intros _ | done];
             repeat first [apply list_elem_of_here | apply list_elem_of_further]|]).
    by apply elem_of_nil in Hlook.
  - unfold defaultProviderModels in Hlook.
    apply not_elem_of_list_to_map in Hlook. simpl in Hlook. split; [done|].
    intros Hin. by destruct Hlook.
Qed.

(** X4.  The count of [countProviderModelsInResponse] is never negative and
    never above the number of entries of the response whose parsed provider
    is the expected one, hence never above the length of the response; a nil
    response counts 0. *)
Theorem countProviderModelsInResponse_bounds `{Schemas} (provider : ModelProvider)
    (modelData : option schemas.BifrostListModelsResponse) :
  let entries := match modelData with
                 | Some r => r.(schemas.Data)
                 | None => []
                 end in
  let matching :=
    filter (λ model, (ParseModelString model.(schemas.ID) provider).1 = provider)
           entries in
  0 ≤ countProviderModelsInResponse provider modelData
  ∧ countProviderModelsInResponse provider modelData ≤ Z.of_nat (length matching)
  ∧ Z.of_nat (length matching) ≤ Z.of_nat (length entries).
Proof.
  intros entries matching. subst entries matching.
  rewrite countProviderModelsInResponse_distinct.
  destruct modelData as [[data]|]; simpl; [|done].
  split_and!.
  - lia.
  - pose proof (size_list_to_set_le (parsedModelsOfProvider provider data)) as Hle.
    unfold parsedModelsOfProvider in Hle at 2. rewrite length_fmap in Hle. lia.
  - apply Nat2Z.inj_le, length_filter.
Qed.

(** X5.  The count depends on the set of entries of the response only: two
    responses with the same entries, whatever their order and however often
    each is repeated, give the same count. *)
Theorem countProviderModelsInResponse_same_entries `{Schemas}
    (provider : ModelProvider) (r1 r2 : schemas.BifrostListModelsResponse) :
  (∀ model, model ∈ r1.(schemas.Data) ↔ model ∈ r2.(schemas.Data)) →
  countProviderModelsInResponse provider (Some r1)
  = countProviderModelsInResponse provider (Some r2).
Proof.
  intros Hsame. rewrite !countProviderModelsInResponse_distinct. simpl.
  f_equal. f_equal. apply set_eq. intros name.
  rewrite !elem_of_list_to_set, !elem_of_parsedModelsOfProvider.
  split; intros (model & Hin & Hp); exists model; (split; [by apply Hsame | done]).
Qed.

Lemma countProviderModelsInResponse_same_entries_witness :
  @countProviderModelsInResponse scenarioSchemas "glm"
    (Some (schemas.mkListModelsResponse
             [schemas.mkModel "glm/glm-5"; schemas.mkModel "glm/glm-4.7";
              schemas.mkModel "glm/glm-5"]))
  = @countProviderModelsInResponse scenarioSchemas "glm"
      (Some (schemas.mkListModelsResponse
               [schemas.mkModel "glm/glm-4.7"; schemas.mkModel "glm/glm-5"])).
Proof.
  apply (@countProviderModelsInResponse_same_entries scenarioSchemas "glm").
  intros model. simpl. rewrite !elem_of_cons, !elem_of_nil. tauto.
Defined.

(** ** Status over time and across recordings *)

Section status_facts.

Lemma discoveryStatus_values (state : providerDiscoveryState) (now : time.Time) :
  discoveryStatus state now = ProviderModelHealthUnknown
  ∨ discoveryStatus state now = ProviderModelHealthHealthy
  ∨ discoveryStatus state now = ProviderModelHealthStale
  ∨ discoveryStatus state now = ProviderModelHealthError.
Proof. unfold discoveryStatus. repeat case_match; tauto. Qed.

(** The stale test can only switch on as time passes. *)
Lemma stale_test_monotone (state : providerDiscoveryState) (now1 now2 : time.Time) :
  now1 ≤ now2 →
  (DefaultProviderModelSnapshotStaleAfter <? time.Sub now1 state.(LastSuccessAt)) = true →
  (DefaultProviderModelSnapshotStaleAfter <? time.Sub now2 state.(LastSuccessAt)) = true.
Proof. rewrite !Sub_exceeds_threshold. lia. Qed.

(** A recorded error that is not before the success decides the status at
    every instant. *)
Lemma error_not_before_success (state : providerDiscoveryState) (t : time.Time) :
  state.(LastAttemptAt) ≠ time.zero →
  state.(LastErrorAt) ≠ time.zero →
  state.(LastSuccessAt) ≤ state.(LastErrorAt) →
  discoveryStatus state t = ProviderModelHealthError.
Proof.
  intros Ha He Hle. unfold discoveryStatus.
  apply IsZero_false in Ha as ->. apply IsZero_false in He as ->.
  assert (time.Before (LastErrorAt state) (LastSuccessAt state) = false) as ->
    by (apply Before_false; lia).
  simpl. by rewrite orb_true_r.
Qed.

Lemma merge_error_l (other : ProviderModelHealthStatus) :
  mergeProviderHealthStatus ProviderModelHealthError other = ProviderModelHealthError.
Proof. done. Qed.

Lemma merge_error_r (other : ProviderModelHealthStatus) :
  mergeProviderHealthStatus other ProviderModelHealthError = ProviderModelHealthError.
Proof. by destruct other. Qed.

(** The items of a report are the items of the providers of the key set. *)
Lemma report_items (mc : ModelCatalog) (now : time.Time)
    (item : ProviderModelSnapshotHealth) :
  item ∈ (GetProviderModelSnapshotHealthReport mc now).(Providers)
  ↔ ∃ p, p ∈ providerSet mc ∧ item = reportItem mc now p.
Proof.
  unfold GetProviderModelSnapshotHealthReport.
  rewrite reportOver_Providers, list_elem_of_fmap.
  setoid_rewrite sortProviders_elem_of. setoid_rewrite elem_of_elements.
  naive_solver.
Qed.

(** The overall status is error exactly when some provider is in error. *)
Lemma report_error_iff (mc : ModelCatalog) (now : time.Time) :
  (GetProviderModelSnapshotHealthReport mc now).(Status) = ProviderModelHealthError
  ↔ ∃ item, item ∈ (GetProviderModelSnapshotHealthReport mc now).(Providers)
            ∧ item.(sh_Status) = ProviderModelHealthError.
Proof.
  unfold GetProviderModelSnapshotHealthReport.
  set (range := elements (providerSet mc)).
  destruct (reportOver_Summary range mc now) as [Htotal Hcount].
  rewrite reportOver_Status, <- countWithStatus_pos,
    <- (Hcount ProviderModelHealthError).
  pose proof (countWithStatus_nonneg ProviderModelHealthError
                (reportOver range mc now).(Providers)) as Hnn.
  rewrite <- (Hcount ProviderModelHealthError) in Hnn.
  assert (countWithStatus ProviderModelHealthError
            (reportOver range mc now).(Providers)
          ≤ Z.of_nat (length (reportOver range mc now).(Providers))) as Hle.
  { unfold countWithStatus. apply Nat2Z.inj_le, length_filter. }
  rewrite <- (Hcount ProviderModelHealthError), <- Htotal in Hle.
  simpl in *. unfold reportStatusOf.
  destruct (Z.eqb_spec (TotalProviders (Summary (reportOver range mc now))) 0).
  { split; [done | lia]. }
  destruct (Z.ltb_spec 0 (ErrorProviders (Summary (reportOver range mc now)))).
  { done. }
  split; [|lia]. repeat case_match; done.
Qed.

Lemma healthOf_in_providerSet (mc : ModelCatalog) (p : ModelProvider) :
  is_Some (mc.(providerModelHealth) !! p) → p ∈ providerSet mc.
Proof. intros Hp. apply elem_of_providerSet. tauto. Qed.

Lemma Record_health_key `{Schemas} (mc : ModelCatalog) (now : time.Time)
    (provider : ModelProvider) (unfiltered : bool)
    (modelData : option schemas.BifrostListModelsResponse)
    (discoveryErr : option schemas.BifrostError) :
  (RecordProviderModelDiscoveryResult mc now provider unfiltered modelData
     discoveryErr).1.(providerModelHealth)
  = <[provider := updateTarget unfiltered
                    (recordOutcome now provider modelData discoveryErr)
                    (healthOf mc provider)]> mc.(providerModelHealth).
Proof.
  unfold RecordProviderModelDiscoveryResult. by rewrite persist_keeps_health.
Qed.

End status_facts.

(** X6.  The status of a single variant is never degraded, and the merged
    status of a provider is degraded exactly when one of its variants is
    unknown and the other healthy. *)
Theorem degraded_only_by_merge (filtered unfiltered : providerDiscoveryState)
    (now : time.Time) :
  (toProviderModelDiscoveryHealth filtered now).(dh_Status) ≠ ProviderModelHealthDegraded
  ∧ (mergeProviderHealthStatus
       (toProviderModelDiscoveryHealth filtered now).(dh_Status)
       (toProviderModelDiscoveryHealth unfiltered now).(dh_Status)
     = ProviderModelHealthDegraded
     ↔ ((toProviderModelDiscoveryHealth filtered now).(dh_Status)
          = ProviderModelHealthUnknown
        ∧ (toProviderModelDiscoveryHealth unfiltered now).(dh_Status)
          = ProviderModelHealthHealthy)
       ∨ ((toProviderModelDiscoveryHealth filtered now).(dh_Status)
            = ProviderModelHealthHealthy
          ∧ (toProviderModelDiscoveryHealth unfiltered now).(dh_Status)
            = ProviderModelHealthUnknown)).
Proof.
  simpl.
  destruct (discoveryStatus_values filtered now) as [-> | [-> | [-> | ->]]];
    destruct (discoveryStatus_values unfiltered now) as [-> | [-> | [-> | ->]]];
    vm_compute (mergeProviderHealthStatus _ _); intuition congruence.
Qed.

(** X7.  With the state untouched, the passage of time changes the status of
    a variant in one way only: a healthy variant becomes stale.  Unknown,
    error and stale stay what they are. *)
Theorem status_changes_only_to_stale (state : providerDiscoveryState)
    (now1 now2 : time.Time) :
  now1 ≤ now2 →
  discoveryStatus state now2 = discoveryStatus state now1
  ∨ (discoveryStatus state now1 = ProviderModelHealthHealthy
     ∧ discoveryStatus state now2 = ProviderModelHealthStale).
Proof.
  intros Hle. pose proof (stale_test_monotone state now1 now2 Hle) as Hmono.
  unfold discoveryStatus.
  destruct (time.IsZero (LastAttemptAt state)); [by left|].
  destruct (negb _ && _); [by left|].
  destruct (time.IsZero (LastSuccessAt state)); [by left|].
  destruct (_ <? time.Sub now1 _).
  - left. by rewrite Hmono.
  - destruct (_ <? time.Sub now2 _); [by right | by left].
Qed.

Lemma status_changes_only_to_stale_witness :
  discoveryStatus (mkDiscoveryState 1000 1000 0 "" 2) (1000 + 25 * time.Hour)
  = ProviderModelHealthStale.
Proof.
  destruct (status_changes_only_to_stale (mkDiscoveryState 1000 1000 0 "" 2)
              2000 (1000 + 25 * time.Hour)) as [Hsame | [_ Hstale]].
  - vm_compute. discriminate.
  - vm_compute in Hsame. discriminate Hsame.
  - exact Hstale.
Defined.

(** ** Recordings in sequence *)

(** X8.  A success followed by an error of the same provider and variant,
    the clock of the error not before that of the success: the variant keeps
    the success time and count, holds the error time and the extracted
    message, and is in error at whatever instant it is read; so is the
    provider, whatever its other variant, and so is the whole report. *)
Theorem later_error_dominates `{Schemas} (mc : ModelCatalog) (t1 t2 t : time.Time)
    (provider : ModelProvider) (unfiltered : bool)
    (data1 data2 : option schemas.BifrostListModelsResponse)
    (failure : schemas.BifrostError) :
  t1 ≤ t2 →
  t2 ≠ time.zero →
  let mc1 := (RecordProviderModelDiscoveryResult mc t1 provider unfiltered
                data1 None).1 in
  let mc2 := (RecordProviderModelDiscoveryResult mc1 t2 provider unfiltered
                data2 (Some failure)).1 in
  let variant := targetOf unfiltered (healthOf mc2 provider) in
  variant.(LastSuccessAt) = t1
  ∧ variant.(LastErrorAt) = t2
  ∧ variant.(LastError) = extractDiscoveryErrorMessage (Some failure)
  ∧ variant.(LastModelsCount) = countProviderModelsInResponse provider data1
  ∧ (toProviderModelDiscoveryHealth variant t).(dh_Status) = ProviderModelHealthError
  ∧ (reportItem mc2 t provider).(sh_Status) = ProviderModelHealthError
  ∧ (GetProviderModelSnapshotHealthReport mc2 t).(Status) = ProviderModelHealthError.
Proof.
  intros Hle Hnz mc1 mc2 variant.
  assert (variant = recordOutcome t2 provider data2 (Some failure)
                      (recordOutcome t1 provider data1 None
                         (targetOf unfiltered (healthOf mc provider)))) as Hv.
  { subst variant mc2 mc1. rewrite !Record_health, !decide_True by done.
    by rewrite !targetOf_updateTarget. }
  assert (discoveryStatus variant t = ProviderModelHealthError) as Hstatus.
  { rewrite Hv. apply error_not_before_success; simpl; done. }
  assert ((reportItem mc2 t provider).(sh_Status) = ProviderModelHealthError) as Hitem.
  { unfold reportItem. cbn [sh_Status toProviderModelDiscoveryHealth dh_Status].
    subst variant. destruct unfiltered; cbn [targetOf] in Hstatus; rewrite Hstatus.
    - apply merge_error_r.
    - apply merge_error_l. }
  rewrite Hv at 1 2 3 4. simpl. split_and!; try done.
  apply report_error_iff. exists (reportItem mc2 t provider). split; [|done].
  apply report_items. exists provider. split; [|done].
  apply healthOf_in_providerSet. subst mc2.
  rewrite Record_health_key, lookup_insert_eq. by eexists.
Qed.

Lemma later_error_dominates_witness :
  let failure := schemas.mkBifrostError
                   (Some (schemas.mkErrorField "provider list models failed" None)) in
  let mc2 := (@RecordProviderModelDiscoveryResult scenarioSchemas
                (@RecordProviderModelDiscoveryResult scenarioSchemas emptyCatalog
                   1000 "minimax" false None None).1
                2000 "minimax" false None (Some failure)).1 in
  (GetProviderModelSnapshotHealthReport mc2 3000).(Status) = ProviderModelHealthError.
Proof.
  intros failure mc2.
  apply (@later_error_dominates scenarioSchemas emptyCatalog 1000 2000 3000
           "minimax" false None None failure).
  - vm_compute. discriminate.
  - discriminate.
Defined.

(** X9.  The error dominates by its clock reading only: when the clock has
    stepped back and the error is recorded with a reading strictly before
    that of the earlier success, the variant is not in error but healthy or
    stale by the age of the success. *)
Theorem error_with_earlier_clock_is_hidden `{Schemas} (mc : ModelCatalog)
    (t1 t2 t : time.Time) (provider : ModelProvider) (unfiltered : bool)
    (data1 data2 : option schemas.BifrostListModelsResponse)
    (failure : schemas.BifrostError) :
  t2 < t1 →
  t1 ≠ time.zero →
  t2 ≠ time.zero →
  let mc1 := (RecordProviderModelDiscoveryResult mc t1 provider unfiltered
                data1 None).1 in
  let mc2 := (RecordProviderModelDiscoveryResult mc1 t2 provider unfiltered
                data2 (Some failure)).1 in
  let variant := targetOf unfiltered (healthOf mc2 provider) in
  (toProviderModelDiscoveryHealth variant t).(dh_Status)
  = if bool_decide (t - t1 > DefaultProviderModelSnapshotStaleAfter)
    then ProviderModelHealthStale else ProviderModelHealthHealthy.
Proof.
  intros Hlt Hz1 Hz2 mc1 mc2 variant. subst variant mc2 mc1.
  rewrite !Record_health, !decide_True by done.
  rewrite !targetOf_updateTarget. simpl. unfold discoveryStatus. simpl.
  apply IsZero_false in Hz1 as ->. apply IsZero_false in Hz2 as ->.
  assert (time.Before t2 t1 = true) as -> by (by apply Before_true).
  simpl. case_bool_decide as Hage.
  - by apply Sub_exceeds_threshold in Hage as ->.
  - assert (t - t1 ≤ DefaultProviderModelSnapshotStaleAfter) as Hin by lia.
    by apply Sub_within_threshold in Hin as ->.
Qed.

Lemma error_with_earlier_clock_is_hidden_witness :
  let failure := schemas.mkBifrostError None in
  let mc2 := (@RecordProviderModelDiscoveryResult scenarioSchemas
                (@RecordProviderModelDiscoveryResult scenarioSchemas emptyCatalog
                   2000 "minimax" false None None).1
                1000 "minimax" false None (Some failure)).1 in
  (toProviderModelDiscoveryHealth (targetOf false (healthOf mc2 "minimax")) 3000).(dh_Status)
  = ProviderModelHealthHealthy.
Proof.
  intros failure mc2.
  apply (@error_with_earlier_clock_is_hidden scenarioSchemas emptyCatalog 2000 1000
           3000 "minimax" false None None failure).
  - reflexivity.
  - discriminate.
  - discriminate.
Defined.

(** X10.  After a success, whatever the variant held before (an error
    included), its status is decided by the age of that success alone: stale
    beyond 24 hours, healthy otherwise. *)
Theorem success_status_by_age `{Schemas} (mc : ModelCatalog) (now t : time.Time)
    (provider : ModelProvider) (unfiltered : bool)
    (modelData : option schemas.BifrostListModelsResponse) :
  now ≠ time.zero →
  let mc' := (RecordProviderModelDiscoveryResult mc now provider unfiltered
                modelData None).1 in
  (toProviderModelDiscoveryHealth (targetOf unfiltered (healthOf mc' provider)) t).(dh_Status)
  = if bool_decide (t - now > DefaultProviderModelSnapshotStaleAfter)
    then ProviderModelHealthStale else ProviderModelHealthHealthy.
Proof.
  intros Hnz mc'. subst mc'.
  rewrite Record_health, decide_True by done.
  rewrite targetOf_updateTarget. simpl. unfold discoveryStatus. simpl.
  apply IsZero_false in Hnz as ->. simpl. case_bool_decide as Hage.
  - by apply Sub_exceeds_threshold in Hage as ->.
  - assert (t - now ≤ DefaultProviderModelSnapshotStaleAfter) as Hin by lia.
    by apply Sub_within_threshold in Hin as ->.
Qed.

Lemma success_status_by_age_witness :
  (toProviderModelDiscoveryHealth
     (targetOf true
        (healthOf (@RecordProviderModelDiscoveryResult scenarioSchemas emptyCatalog
                     1000 "moonshot" true None None).1 "moonshot"))
     (1000 + 48 * time.Hour)).(dh_Status)
  = ProviderModelHealthStale.
Proof.
  apply (@success_status_by_age scenarioSchemas emptyCatalog 1000
           (1000 + 48 * time.Hour) "moonshot" true None).
  discriminate.
Defined.

(** ** What a recording reaches *)

Section record_reach.

Context `{Schemas}.

Lemma persist_signal (mc : ModelCatalog) :
  let mc' := (persistProviderModelHealthState mc).1 in
  mc'.(providerModelHealthPersistSignal) = mc.(providerModelHealthPersistSignal)
  ∨ (mc.(providerModelHealthPersistSignal) = Some false
     ∧ mc'.(providerModelHealthPersistSignal) = Some true).
Proof.
  intros mc'. subst mc'. unfold persistProviderModelHealthState.
  destruct (shouldPersistProviderModelHealthState mc); simpl; [|by left].
  destruct (providerModelHealthPersistSignal mc) as [[]|] eqn:Hsig; simpl;
    [by left | by right | by left].
Qed.

Lemma persist_keeps_config (mc : ModelCatalog) :
  let mc' := (persistProviderModelHealthState mc).1 in
  mc'.(baseModelIndex) = mc.(baseModelIndex)
  ∧ mc'.(pricingData) = mc.(pricingData)
  ∧ mc'.(configStore) = mc.(configStore)
  ∧ mc'.(providerModelHealthPersistCallback)
    = mc.(providerModelHealthPersistCallback).
Proof.
  intros mc'. subst mc'. unfold persistProviderModelHealthState.
  destruct (shouldPersistProviderModelHealthState mc); simpl; [|done].
  by destruct (providerModelHealthPersistSignal mc) as [[]|].
Qed.

(** A record that is not all-zero is in the payload. *)
Lemma persisted_lookup_stored (mc : ModelCatalog) (provider : ModelProvider) :
  ¬ allZeroRecord (persistedEntry mc provider) →
  getPersistedProviderModelHealthState mc !! provider
  = Some (persistedEntry mc provider).
Proof.
  intros Hnz. unfold getPersistedProviderModelHealthState, persistedLoop.
  rewrite persisted_fold_lookup. rewrite decide_True; [done|]. split.
  - apply elem_of_elements. destruct (decide (provider ∈ persistedProviderSet mc));
      [done|]. by destruct Hnz; apply persistedEntry_untouched.
  - apply not_true_iff_false.
    by rewrite isPersistedProviderModelHealthStateEmpty_spec.
Qed.

Lemma persisted_lookup_Some (mc : ModelCatalog) (provider : ModelProvider)
    (entry : persistedProviderModelHealthState) :
  getPersistedProviderModelHealthState mc !! provider = Some entry →
  entry = persistedEntry mc provider
  ∧ provider ∈ persistedProviderSet mc
  ∧ ¬ allZeroRecord entry.
Proof.
  unfold getPersistedProviderModelHealthState, persistedLoop.
  rewrite persisted_fold_lookup. case_decide as Hd; [|by rewrite lookup_empty].
  destruct Hd as [Hin He]. intros [= <-]. split_and!; try done.
  - by apply elem_of_elements.
  - rewrite <- isPersistedProviderModelHealthStateEmpty_spec. congruence.
Qed.

End record_reach.

(** X11.  Recording a discovery result changes nothing of the catalog but
    the health entry of that provider: the pools, the snapshots, the source
    tags, the base model index, the pricing data and the persistence
    collaborators are as before, the health map gains at most the key of the
    provider, and the signal channel is as before or has taken one token. *)
Theorem record_touches_health_only `{Schemas} (mc : ModelCatalog) (now : time.Time)
    (provider : ModelProvider) (unfiltered : bool)
    (modelData : option schemas.BifrostListModelsResponse)
    (discoveryErr : option schemas.BifrostError) :
  let mc' := (RecordProviderModelDiscoveryResult mc now provider unfiltered
                modelData discoveryErr).1 in
  mc'.(modelPool) = mc.(modelPool)
  ∧ mc'.(unfilteredModelPool) = mc.(unfilteredModelPool)
  ∧ mc'.(providerModelSnapshots) = mc.(providerModelSnapshots)
  ∧ mc'.(providerModelSources) = mc.(providerModelSources)
  ∧ mc'.(unfilteredProviderModelSources) = mc.(unfilteredProviderModelSources)
  ∧ mc'.(baseModelIndex) = mc.(baseModelIndex)
  ∧ mc'.(pricingData) = mc.(pricingData)
  ∧ mc'.(configStore) = mc.(configStore)
  ∧ mc'.(providerModelHealthPersistCallback) = mc.(providerModelHealthPersistCallback)
  ∧ dom mc'.(providerModelHealth) = {[provider]} ∪ dom mc.(providerModelHealth)
  ∧ (mc'.(providerModelHealthPersistSignal) = mc.(providerModelHealthPersistSignal)
     ∨ (mc.(providerModelHealthPersistSignal) = Some false
        ∧ mc'.(providerModelHealthPersistSignal) = Some true)).
Proof.
  intros mc'. subst mc'.
  pose proof (Record_health_key mc now provider unfiltered modelData discoveryErr)
    as Hhealth.
  unfold RecordProviderModelDiscoveryResult in *.
  set (locked := recordLocked mc now provider unfiltered modelData discoveryErr) in *.
  destruct (persist_keeps_pools locked) as (-> & -> & -> & -> & ->).
  destruct (persist_keeps_config locked) as (-> & -> & -> & ->).
  rewrite Hhealth, dom_insert_L.
  split_and!; try done.
  apply (persist_signal locked).
Qed.

(** X12.  Every recording shows in the report: the provider, known to the
    catalog before or not, has an item in the next report, and the recorded
    variant of that item is the health derived from what the recording
    wrote. *)
Theorem recorded_provider_is_reported `{Schemas} (mc : ModelCatalog)
    (now t : time.Time) (provider : ModelProvider) (unfiltered : bool)
    (modelData : option schemas.BifrostListModelsResponse)
    (discoveryErr : option schemas.BifrostError) :
  let mc' := (RecordProviderModelDiscoveryResult mc now provider unfiltered
                modelData discoveryErr).1 in
  let item := reportItem mc' t provider in
  item ∈ (GetProviderModelSnapshotHealthReport mc' t).(Providers)
  ∧ item.(sh_Provider) = provider
  ∧ (if unfiltered then item.(sh_UnfilteredDiscovery) else item.(sh_FilteredDiscovery))
    = toProviderModelDiscoveryHealth
        (recordOutcome now provider modelData discoveryErr
           (targetOf unfiltered (healthOf mc provider))) t
  ∧ (if unfiltered then item.(sh_FilteredDiscovery) else item.(sh_UnfilteredDiscovery))
    = toProviderModelDiscoveryHealth
        (targetOf (negb unfiltered) (healthOf mc provider)) t.
Proof.
  intros mc' item. subst item. split_and!.
  - apply report_items. exists provider. split; [|done].
    apply healthOf_in_providerSet. subst mc'.
    rewrite Record_health_key, lookup_insert_eq. by eexists.
  - done.
  - unfold reportItem. subst mc'. simpl.
    rewrite Record_health, decide_True by done. by destruct unfiltered.
  - unfold reportItem. subst mc'. simpl.
    rewrite Record_health, decide_True by done. by destruct unfiltered.
Qed.

(** X13.  Every recording made at an instant other than the zero time is in
    the persisted payload: the payload has the record of the provider, and
    the recorded variant of that record is what the recording wrote. *)
Theorem recorded_provider_is_persisted `{Schemas} (mc : ModelCatalog)
    (now : time.Time) (provider : ModelProvider) (unfiltered : bool)
    (modelData : option schemas.BifrostListModelsResponse)
    (discoveryErr : option schemas.BifrostError) :
  now ≠ time.zero →
  let mc' := (RecordProviderModelDiscoveryResult mc now provider unfiltered
                modelData discoveryErr).1 in
  ∃ entry,
    getPersistedProviderModelHealthState mc' !! provider = Some entry
    ∧ (if unfiltered then entry.(p_Unfiltered) else entry.(p_Filtered))
      = recordOutcome now provider modelData discoveryErr
          (targetOf unfiltered (healthOf mc provider))
    ∧ (if unfiltered then entry.(p_Filtered) else entry.(p_Unfiltered))
      = targetOf (negb unfiltered) (healthOf mc provider).
Proof.
  intros Hnz mc'. exists (persistedEntry mc' provider).
  assert ((if unfiltered then (persistedEntry mc' provider).(p_Unfiltered)
           else (persistedEntry mc' provider).(p_Filtered))
          = recordOutcome now provider modelData discoveryErr
              (targetOf unfiltered (healthOf mc provider))) as Htarget.
  { unfold persistedEntry. subst mc'. simpl.
    rewrite Record_health, decide_True by done. by destruct unfiltered. }
  split_and!; try done.
  - apply persisted_lookup_stored. intros (Hf & Hu & _).
    assert (allZeroDiscovery (recordOutcome now provider modelData discoveryErr
                                (targetOf unfiltered (healthOf mc provider)))) as Hz.
    { rewrite <- Htarget. by destruct unfiltered. }
    destruct Hz as [Ha _]. by destruct discoveryErr.
  - unfold persistedEntry. subst mc'. simpl.
    rewrite Record_health, decide_True by done. by destruct unfiltered.
Qed.

Lemma recorded_provider_is_persisted_witness :
  ∃ entry,
    getPersistedProviderModelHealthState
      (@RecordProviderModelDiscoveryResult scenarioSchemas emptyCatalog 1000
         "minimax" false None None).1 !! "minimax" = Some entry
    ∧ entry.(p_Filtered) = mkDiscoveryState 1000 1000 0 "" 0.
Proof.
  destruct (@recorded_provider_is_persisted scenarioSchemas emptyCatalog 1000
              "minimax" false None None) as (entry & Hlook & Htarget & _).
  - discriminate.
  - exists entry. split; [exact Hlook | exact Htarget].
Defined.

(** ** Shape of the report *)

Section report_shape.

Lemma countStatus_partitioned (summary : ProviderModelSnapshotHealthSummary)
    (status : ProviderModelHealthStatus) :
  partitioned summary → partitioned (countStatus summary status).
Proof. unfold partitioned. destruct status; simpl; lia. Qed.

Lemma report_fold_partitioned (mc : ModelCatalog) (now : time.Time)
    (providers : list ModelProvider)
    (acc : list ProviderModelSnapshotHealth * ProviderModelSnapshotHealthSummary) :
  partitioned acc.2 → partitioned (foldl (reportStep mc now) acc providers).2.
Proof.
  revert acc. induction providers as [|p providers IH]; intros acc Hacc; [done|].
  cbn [foldl]. apply IH. by apply countStatus_partitioned.
Qed.

Lemma reportOver_partitioned (range : list ModelProvider) (mc : ModelCatalog)
    (now : time.Time) :
  partitioned (reportOver range mc now).(Summary).
Proof.
  unfold reportOver.
  pose proof (report_fold_partitioned mc now (sortProviders range)
                ([], zeroSummary) eq_refl) as Hp.
  by destruct (foldl _ _ _).
Qed.

Lemma sortProviders_length (range : list ModelProvider) :
  length (sortProviders range) = length range.
Proof. unfold sortProviders. by rewrite merge_sort_Permutation. Qed.

End report_shape.

(** X14.  A report has exactly one item per provider of the catalog's maps:
    the number of items is the number of distinct provider keys, no provider
    appears twice, and the five status counters of the summary add up to the
    total, which is that number. *)
Theorem report_counts_partition (mc : ModelCatalog) (now : time.Time) :
  let r := GetProviderModelSnapshotHealthReport mc now in
  length r.(Providers) = size (providerSet mc)
  ∧ NoDup (sh_Provider <$> r.(Providers))
  ∧ r.(Summary).(TotalProviders) = Z.of_nat (size (providerSet mc))
  ∧ r.(Summary).(TotalProviders)
    = r.(Summary).(HealthyProviders) + r.(Summary).(StaleProviders)
      + r.(Summary).(ErrorProviders) + r.(Summary).(DegradedProviders)
      + r.(Summary).(UnknownProviders)
  ∧ 0 ≤ r.(Summary).(HealthyProviders)
  ∧ 0 ≤ r.(Summary).(StaleProviders)
  ∧ 0 ≤ r.(Summary).(ErrorProviders)
  ∧ 0 ≤ r.(Summary).(DegradedProviders)
  ∧ 0 ≤ r.(Summary).(UnknownProviders).
Proof.
  intros r. subst r. unfold GetProviderModelSnapshotHealthReport.
  set (range := elements (providerSet mc)).
  destruct (reportOver_Summary range mc now) as [Htotal Hcount].
  assert (length (reportOver range mc now).(Providers) = size (providerSet mc)) as Hlen.
  { rewrite reportOver_Providers, length_fmap, sortProviders_length. done. }
  assert (∀ st, 0 ≤ summaryCounter st (reportOver range mc now).(Summary)) as Hnn'.
  { intros st. rewrite Hcount. apply countWithStatus_nonneg. }
  split_and!.
  - done.
  - rewrite report_keys. unfold sortProviders. rewrite merge_sort_Permutation.
    apply NoDup_elements.
  - by rewrite Htotal, Hlen.
  - apply reportOver_partitioned.
  - apply (Hnn' ProviderModelHealthHealthy).
  - apply (Hnn' ProviderModelHealthStale).
  - apply (Hnn' ProviderModelHealthError).
  - apply (Hnn' ProviderModelHealthDegraded).
  - apply (Hnn' ProviderModelHealthUnknown).
Qed.

(** X15.  The overall status of a report is never stale (stale providers
    show as degraded), and each of its values is reached in one situation
    only: error exactly when some provider is in error; degraded exactly when
    none is in error and some provider is stale or degraded; healthy exactly
    when every provider is healthy or unknown and at least one is healthy;
    unknown exactly when every provider, if any, is unknown. *)
Theorem report_status_characterised (mc : ModelCatalog) (now : time.Time) :
  let r := GetProviderModelSnapshotHealthReport mc now in
  let some status := ∃ item, item ∈ r.(Providers) ∧ item.(sh_Status) = status in
  r.(Status) ≠ ProviderModelHealthStale
  ∧ (r.(Status) = ProviderModelHealthError ↔ some ProviderModelHealthError)
  ∧ (r.(Status) = ProviderModelHealthDegraded
     ↔ ¬ some ProviderModelHealthError
       ∧ (some ProviderModelHealthStale ∨ some ProviderModelHealthDegraded))
  ∧ (r.(Status) = ProviderModelHealthHealthy
     ↔ some ProviderModelHealthHealthy
       ∧ ∀ item, item ∈ r.(Providers) →
           item.(sh_Status) = ProviderModelHealthHealthy
           ∨ item.(sh_Status) = ProviderModelHealthUnknown)
  ∧ (r.(Status) = ProviderModelHealthUnknown
     ↔ ∀ item, item ∈ r.(Providers) → item.(sh_Status) = ProviderModelHealthUnknown).
Proof.
  intros r some. subst r some. unfold GetProviderModelSnapshotHealthReport.
  set (range := elements (providerSet mc)).
  set (r := reportOver range mc now).
  destruct (reportOver_Summary range mc now) as [Htotal Hcount]. fold r in Htotal, Hcount.
  pose proof (reportOver_partitioned range mc now) as Hpart. fold r in Hpart.
  unfold partitioned in Hpart.
  assert (∀ status,
            (∃ item, item ∈ r.(Providers) ∧ item.(sh_Status) = status)
            ↔ 0 < summaryCounter status r.(Summary)) as Hsome.
  { intros status. by rewrite Hcount, countWithStatus_pos. }
  assert (∀ status, 0 ≤ summaryCounter status r.(Summary)) as Hnn.
  { intros status. rewrite Hcount. apply countWithStatus_nonneg. }
  assert (∀ status,
            summaryCounter status r.(Summary) = 0
            ↔ ∀ item, item ∈ r.(Providers) → item.(sh_Status) ≠ status) as Hnone.
  { intros status. specialize (Hsome status). specialize (Hnn status). split.
    - intros Hz item Hin Hst. assert (0 < summaryCounter status (Summary r)); [|lia].
      apply Hsome. by exists item.
    - intros Hall. destruct (decide (0 < summaryCounter status (Summary r))) as [Hp|];
        [|lia]. apply Hsome in Hp as (item & Hin & Hst). by destruct (Hall item Hin). }
  pose proof (Hsome ProviderModelHealthError) as HeS.
  pose proof (Hsome ProviderModelHealthStale) as HsS.
  pose proof (Hsome ProviderModelHealthDegraded) as HdS.
  pose proof (Hsome ProviderModelHealthHealthy) as HhS.
  pose proof (Hnone ProviderModelHealthError) as HeN.
  pose proof (Hnone ProviderModelHealthStale) as HsN.
  pose proof (Hnone ProviderModelHealthDegraded) as HdN.
  pose proof (Hnone ProviderModelHealthHealthy) as HhN.
  pose proof (Hnn ProviderModelHealthError) as He0.
  pose proof (Hnn ProviderModelHealthStale) as Hs0.
  pose proof (Hnn ProviderModelHealthDegraded) as Hd0.
  pose proof (Hnn ProviderModelHealthHealthy) as Hh0.
  pose proof (Hnn ProviderModelHealthUnknown) as Hu0.
  cbn [summaryCounter] in *.
  assert ((∀ item, item ∈ r.(Providers) →
             item.(sh_Status) = ProviderModelHealthHealthy
             ∨ item.(sh_Status) = ProviderModelHealthUnknown)
          ↔ StaleProviders (Summary r) = 0 ∧ ErrorProviders (Summary r) = 0
            ∧ DegradedProviders (Summary r) = 0) as HallHU.
  { rewrite HsN, HeN, HdN. split.
    - intros Hall. split_and!; intros item Hin; destruct (Hall item Hin); congruence.
    - intros (Hs & He & Hd) item Hin.
      specialize (Hs item Hin). specialize (He item Hin). specialize (Hd item Hin).
      destruct (sh_Status item); tauto. }
  assert ((∀ item, item ∈ r.(Providers) →
             item.(sh_Status) = ProviderModelHealthUnknown)
          ↔ HealthyProviders (Summary r) = 0 ∧ StaleProviders (Summary r) = 0
            ∧ ErrorProviders (Summary r) = 0
            ∧ DegradedProviders (Summary r) = 0) as HallU.
  { rewrite HhN, HsN, HeN, HdN. split.
    - intros Hall. split_and!; intros item Hin; rewrite (Hall item Hin); done.
    - intros (Hh & Hs & He & Hd) item Hin.
      specialize (Hh item Hin). specialize (Hs item Hin).
      specialize (He item Hin). specialize (Hd item Hin).
      destruct (sh_Status item); tauto. }
  assert (Status r = reportStatusOf (Summary r)) as -> by apply reportOver_Status.
  rewrite HeS, HsS, HdS, HhS, HallHU, HallU.
  unfold reportStatusOf.
  destruct (Z.eqb_spec (TotalProviders (Summary r)) 0);
    [|destruct (Z.ltb_spec 0 (ErrorProviders (Summary r)));
      [|destruct (Z.ltb_spec 0 (StaleProviders (Summary r)));
        [|destruct (Z.ltb_spec 0 (DegradedProviders (Summary r)));
          [|destruct (Z.ltb_spec 0 (HealthyProviders (Summary r)))]]]];
    cbn [orb]; split_and!; try discriminate;
    (split; [intros Hst; try discriminate Hst | intros Hc; try reflexivity; exfalso];
     lia).
Qed.

(** ** Loading what was persisted *)

Section keyed_loops.

Context {E V : Type}.
Context (field : ModelCatalog → gmap string V).
Context (body : ModelCatalog → string → E → ModelCatalog).
Context (update : E → option V).

(** A loop over the entries of a map whose body writes one field of the
    catalog at the key of the entry only: whatever the order of the
    entries, the field ends up with the update of each entry at its key. *)
Lemma keyed_fold_lookup (range : list (string * E)) (mc : ModelCatalog)
    (p : string) :
  (∀ mc k e, field (body mc k e)
             = match update e with
               | Some v => <[k := v]> (field mc)
               | None => field mc
               end) →
  NoDup range.*1 →
  field (foldl (λ mc item, body mc item.1 item.2) mc range) !! p
  = match (list_to_map range : gmap string E) !! p with
    | Some e => match update e with
                | Some v => Some v
                | None => field mc !! p
                end
    | None => field mc !! p
    end.
Proof.
  intros Hbody. revert mc.
  induction range as [|[k e] range IH]; intros mc Hnd; [done|].
  rewrite fmap_cons in Hnd. apply NoDup_cons in Hnd as [Hk Hnd].
  cbn [foldl fst snd]. rewrite IH by done.
  rewrite list_to_map_cons, Hbody.
  destruct (decide (k = p)) as [-> | Hne].
  - rewrite lookup_insert_eq, not_elem_of_list_to_map_1 by done.
    destruct (update e); [by rewrite lookup_insert_eq | done].
  - rewrite lookup_insert_ne by done.
    assert (match update e with
            | Some v => <[k := v]> (field mc)
            | None => field mc
            end !! p = field mc !! p) as ->; [|done].
    destruct (update e); [by rewrite lookup_insert_ne | done].
Qed.

End keyed_loops.

Section kept_fields.

Context {E A : Type}.
Context (field : ModelCatalog → A).
Context (body : ModelCatalog → string → E → ModelCatalog).

Lemma fold_keeps_field (range : list (string * E)) (mc : ModelCatalog) :
  (∀ mc k e, field (body mc k e) = field mc) →
  field (foldl (λ mc item, body mc item.1 item.2) mc range) = field mc.
Proof.
  intros Hbody. revert mc.
  induction range as [|[k e] range IH]; intros mc; [done|].
  cbn [foldl fst snd]. by rewrite IH, Hbody.
Qed.

End kept_fields.

Section load_health.

Lemma loadHealth_health (mc : ModelCatalog)
    (m : gmap string persistedProviderModelHealthState) (p : ModelProvider) :
  (loadHealthLoop mc (map_to_list m)).(providerModelHealth) !! p
  = match m !! p with
    | Some entry => Some {| Filtered := entry.(p_Filtered);
                            Unfiltered := entry.(p_Unfiltered);
                            LastSnapshotUpdated := entry.(p_LastSnapshotUpdated) |}
    | None => mc.(providerModelHealth) !! p
    end.
Proof.
  unfold loadHealthLoop.
  rewrite (keyed_fold_lookup providerModelHealth loadHealthEntry
             (λ entry, Some {| Filtered := entry.(p_Filtered);
                               Unfiltered := entry.(p_Unfiltered);
                               LastSnapshotUpdated := entry.(p_LastSnapshotUpdated) |}));
    [|done | apply NoDup_fst_map_to_list].
  by rewrite list_to_map_to_list.
Qed.

Lemma loadHealth_sources (mc : ModelCatalog)
    (m : gmap string persistedProviderModelHealthState) (p : ModelProvider) :
  (loadHealthLoop mc (map_to_list m)).(providerModelSources) !! p
  = match m !! p with
    | Some entry => if String.eqb entry.(p_FilteredSource) ""
                    then mc.(providerModelSources) !! p
                    else Some entry.(p_FilteredSource)
    | None => mc.(providerModelSources) !! p
    end.
Proof.
  unfold loadHealthLoop.
  rewrite (keyed_fold_lookup providerModelSources loadHealthEntry
             (λ entry, if String.eqb entry.(p_FilteredSource) "" then None
                       else Some entry.(p_FilteredSource)));
    [| | apply NoDup_fst_map_to_list].
  - rewrite list_to_map_to_list. destruct (m !! p) as [entry|]; [|done].
    by destruct (String.eqb _ _).
  - intros mc' k e. simpl. by destruct (String.eqb _ _).
Qed.

Lemma loadHealth_unfilteredSources (mc : ModelCatalog)
    (m : gmap string persistedProviderModelHealthState) (p : ModelProvider) :
  (loadHealthLoop mc (map_to_list m)).(unfilteredProviderModelSources) !! p
  = match m !! p with
    | Some entry => if String.eqb entry.(p_UnfilteredSource) ""
                    then mc.(unfilteredProviderModelSources) !! p
                    else Some entry.(p_UnfilteredSource)
    | None => mc.(unfilteredProviderModelSources) !! p
    end.
Proof.
  unfold loadHealthLoop.
  rewrite (keyed_fold_lookup unfilteredProviderModelSources loadHealthEntry
             (λ entry, if String.eqb entry.(p_UnfilteredSource) "" then None
                       else Some entry.(p_UnfilteredSource)));
    [| | apply NoDup_fst_map_to_list].
  - rewrite list_to_map_to_list. destruct (m !! p) as [entry|]; [|done].
    by destruct (String.eqb _ _).
  - intros mc' k e. simpl. by destruct (String.eqb _ _).
Qed.

Lemma allZeroRecord_eq (entry : persistedProviderModelHealthState) :
  allZeroRecord entry →
  entry = mkPersisted zeroDiscoveryState zeroDiscoveryState time.zero "" "".
Proof.
  destruct entry as [[a s e m c] [a' s' e' m' c'] u fs us].
  unfold allZeroRecord, allZeroDiscovery. simpl.
  intros ((-> & -> & -> & -> & ->) & (-> & -> & -> & -> & ->) & -> & -> & ->).
  done.
Qed.

End load_health.

(** X16.  With a health store and a row that decodes, loading replaces the
    health entry of every provider of the decoded map by the persisted one,
    sets a source tag where the persisted tag is not empty and leaves it as
    it is where the persisted tag is empty, and touches neither the pools nor
    the snapshots nor any provider outside the map.  In every other case (no
    store, row not found, store error, nil row, empty or malformed value) the
    catalog is left as it is. *)
Theorem load_health_applies_decoded (mc : ModelCatalog) (answer : GetConfigAnswer) :
  let loaded := (loadProviderModelHealthState mc answer).1 in
  (∀ m, is_Some (getProviderModelHealthStore mc) →
        answer = GetConfigRow (Some (ValueDecoded m)) →
        (∀ p, loaded.(providerModelHealth) !! p
              = match m !! p with
                | Some entry =>
                    Some {| Filtered := entry.(p_Filtered);
                            Unfiltered := entry.(p_Unfiltered);
                            LastSnapshotUpdated := entry.(p_LastSnapshotUpdated) |}
                | None => mc.(providerModelHealth) !! p
                end)
        ∧ (∀ p, loaded.(providerModelSources) !! p
                = match m !! p with
                  | Some entry => if String.eqb entry.(p_FilteredSource) ""
                                  then mc.(providerModelSources) !! p
                                  else Some entry.(p_FilteredSource)
                  | None => mc.(providerModelSources) !! p
                  end)
        ∧ (∀ p, loaded.(unfilteredProviderModelSources) !! p
                = match m !! p with
                  | Some entry => if String.eqb entry.(p_UnfilteredSource) ""
                                  then mc.(unfilteredProviderModelSources) !! p
                                  else Some entry.(p_UnfilteredSource)
                  | None => mc.(unfilteredProviderModelSources) !! p
                  end)
        ∧ loaded.(modelPool) = mc.(modelPool)
        ∧ loaded.(unfilteredModelPool) = mc.(unfilteredModelPool)
        ∧ loaded.(providerModelSnapshots) = mc.(providerModelSnapshots))
  ∧ ((getProviderModelHealthStore mc = None
      ∨ ∀ m, answer ≠ GetConfigRow (Some (ValueDecoded m))) →
     loaded = mc).
Proof.
  intros loaded. subst loaded. unfold loadProviderModelHealthState. split.
  - intros m [store ->] ->. cbn [fst]. split_and!.
    + apply loadHealth_health.
    + apply loadHealth_sources.
    + apply loadHealth_unfilteredSources.
    + by apply (fold_keeps_field modelPool loadHealthEntry).
    + by apply (fold_keeps_field unfilteredModelPool loadHealthEntry).
    + by apply (fold_keeps_field providerModelSnapshots loadHealthEntry).
  - intros [-> | Hno]; [done|].
    destruct (getProviderModelHealthStore mc); [|done].
    destruct answer as [| |[[| |m]|]]; try done. by destruct (Hno m).
Qed.

Lemma load_health_applies_decoded_witness :
  let mc := {| modelPool := ∅; unfilteredModelPool := ∅; providerModelSnapshots := ∅;
               providerModelSources := ∅; unfilteredProviderModelSources := ∅;
               providerModelHealth := ∅; baseModelIndex := ∅; pricingData := ∅;
               configStore := Some (mkConfigStore true true None);
               providerModelHealthPersistCallback := None;
               providerModelHealthPersistSignal := None |} in
  (loadProviderModelHealthState mc GetConfigNotFound).1 = mc.
Proof.
  intros mc.
  apply (proj2 (load_health_applies_decoded mc GetConfigNotFound)).
  right. intros m. discriminate.
Defined.

(** X17.  Round trip: the payload of a catalog, loaded into a catalog with a
    health store and empty health and source maps, gives back for every
    provider the record it was built from, and the payload of the loaded
    catalog is the payload that was loaded. *)
Theorem persisted_payload_round_trip (mc fresh : ModelCatalog) :
  is_Some (getProviderModelHealthStore fresh) →
  fresh.(providerModelHealth) = ∅ →
  fresh.(providerModelSources) = ∅ →
  fresh.(unfilteredProviderModelSources) = ∅ →
  let payload := getPersistedProviderModelHealthState mc in
  let loaded := (loadProviderModelHealthState fresh
                   (GetConfigRow (Some (ValueDecoded payload)))).1 in
  (∀ p, persistedEntry loaded p = persistedEntry mc p)
  ∧ getPersistedProviderModelHealthState loaded = payload.
Proof.
  intros [store Hstore] Hh Hs Hu payload loaded.
  assert (∀ p, persistedEntry loaded p = persistedEntry mc p) as Hentry.
  { intros p. subst loaded. unfold loadProviderModelHealthState. rewrite Hstore.
    cbn [fst]. unfold persistedEntry, healthOf, sourceOf.
    rewrite loadHealth_health, loadHealth_sources, loadHealth_unfilteredSources.
    rewrite Hh, Hs, Hu, !lookup_empty. fold payload.
    destruct (payload !! p) as [entry|] eqn:Hp.
    - apply persisted_lookup_Some in Hp as (-> & _ & _). simpl.
      unfold persistedEntry, healthOf, sourceOf. f_equal.
      + destruct (String.eqb_spec
                    (default "" (providerModelSources mc !! p)) ""); simpl; by f_equal.
      + destruct (String.eqb_spec
                    (default "" (unfilteredProviderModelSources mc !! p)) "");
          simpl; by f_equal.
    - assert (allZeroRecord (persistedEntry mc p)) as Hz.
      { destruct (isPersistedProviderModelHealthStateEmpty (persistedEntry mc p))
          eqn:He.
        - by apply isPersistedProviderModelHealthStateEmpty_spec.
        - unfold payload in Hp. rewrite persisted_lookup_stored in Hp; [done|].
          rewrite <- isPersistedProviderModelHealthStateEmpty_spec. congruence. }
      apply allZeroRecord_eq in Hz. unfold persistedEntry, healthOf, sourceOf in Hz.
      by rewrite Hz. }
  split; [done|]. apply map_eq. intros p.
  destruct (payload !! p) as [entry|] eqn:Hp.
  - pose proof Hp as Hp'. apply persisted_lookup_Some in Hp' as (-> & _ & Hnz).
    rewrite <- Hentry in Hnz |- *. by apply persisted_lookup_stored.
  - destruct (getPersistedProviderModelHealthState loaded !! p) as [entry|] eqn:Hl;
      [|done].
    apply persisted_lookup_Some in Hl as (-> & _ & Hnz). rewrite Hentry in Hnz.
    unfold payload in Hp. by rewrite persisted_lookup_stored in Hp.
Qed.

Lemma persisted_payload_round_trip_witness :
  let fresh := {| modelPool := ∅; unfilteredModelPool := ∅; providerModelSnapshots := ∅;
                  providerModelSources := ∅; unfilteredProviderModelSources := ∅;
                  providerModelHealth := ∅; baseModelIndex := ∅; pricingData := ∅;
                  configStore := Some (mkConfigStore true true None);
                  providerModelHealthPersistCallback := None;
                  providerModelHealthPersistSignal := None |} in
  getPersistedProviderModelHealthState
    (loadProviderModelHealthState fresh
       (GetConfigRow (Some (ValueDecoded
          (getPersistedProviderModelHealthState discoveredCatalog))))).1
  = getPersistedProviderModelHealthState discoveredCatalog.
Proof.
  intros fresh.
  apply (persisted_payload_round_trip discoveredCatalog fresh).
  - by eexists.
  - reflexivity.
  - reflexivity.
  - reflexivity.
Defined.

(** ** Snapshots *)

Section load_snapshots.

Lemma loadSnapshot_models (field : ModelCatalog → gmap string (list string))
    (mc : ModelCatalog) (m : gmap string (list string)) (p : ModelProvider) :
  (∀ mc k models, field (loadSnapshotEntry mc k models)
                  = match (if (length models =? 0)%nat then None else Some models) with
                    | Some v => <[k := v]> (field mc)
                    | None => field mc
                    end) →
  field (loadSnapshotLoop mc (map_to_list m)) !! p
  = match m !! p with
    | Some [] => field mc !! p
    | Some models => Some models
    | None => field mc !! p
    end.
Proof.
  intros Hbody. unfold loadSnapshotLoop.
  rewrite (keyed_fold_lookup field loadSnapshotEntry
             (λ models, if (length models =? 0)%nat then None else Some models));
    [|done | apply NoDup_fst_map_to_list].
  rewrite list_to_map_to_list. by destruct (m !! p) as [[|]|].
Qed.

Lemma loadSnapshot_tags (field : ModelCatalog → gmap string string)
    (mc : ModelCatalog) (m : gmap string (list string)) (p : ModelProvider) :
  (∀ mc k models, field (loadSnapshotEntry mc k models)
                  = match (if (length models =? 0)%nat then None
                           else Some ProviderModelSourcePersistedSnapshot) with
                    | Some v => <[k := v]> (field mc)
                    | None => field mc
                    end) →
  field (loadSnapshotLoop mc (map_to_list m)) !! p
  = match m !! p with
    | Some [] => field mc !! p
    | Some _ => Some ProviderModelSourcePersistedSnapshot
    | None => field mc !! p
    end.
Proof.
  intros Hbody. unfold loadSnapshotLoop.
  rewrite (keyed_fold_lookup field loadSnapshotEntry
             (λ models, if (length models =? 0)%nat then None
                        else Some ProviderModelSourcePersistedSnapshot));
    [|done | apply NoDup_fst_map_to_list].
  rewrite list_to_map_to_list. by destruct (m !! p) as [[|]|].
Qed.

Lemma loadSnapshotEntry_models_body (mc : ModelCatalog) (k : string)
    (models : list string) :
  (loadSnapshotEntry mc k models).(providerModelSnapshots)
  = match (if (length models =? 0)%nat then None else Some models) with
    | Some v => <[k := v]> mc.(providerModelSnapshots)
    | None => mc.(providerModelSnapshots)
    end
  ∧ (loadSnapshotEntry mc k models).(modelPool)
    = match (if (length models =? 0)%nat then None else Some models) with
      | Some v => <[k := v]> mc.(modelPool)
      | None => mc.(modelPool)
      end
  ∧ (loadSnapshotEntry mc k models).(unfilteredModelPool)
    = match (if (length models =? 0)%nat then None else Some models) with
      | Some v => <[k := v]> mc.(unfilteredModelPool)
      | None => mc.(unfilteredModelPool)
      end.
Proof. unfold loadSnapshotEntry. by destruct models. Qed.

Lemma loadSnapshotEntry_tags_body (mc : ModelCatalog) (k : string)
    (models : list string) :
  (loadSnapshotEntry mc k models).(providerModelSources)
  = match (if (length models =? 0)%nat then None
           else Some ProviderModelSourcePersistedSnapshot) with
    | Some v => <[k := v]> mc.(providerModelSources)
    | None => mc.(providerModelSources)
    end
  ∧ (loadSnapshotEntry mc k models).(unfilteredProviderModelSources)
    = match (if (length models =? 0)%nat then None
             else Some ProviderModelSourcePersistedSnapshot) with
      | Some v => <[k := v]> mc.(unfilteredProviderModelSources)
      | None => mc.(unfilteredProviderModelSources)
      end.
Proof. unfold loadSnapshotEntry. by destruct models. Qed.

(** The five maps of a catalog after the snapshots of [m] were loaded. *)
Lemma loadSnapshotLoop_lookup (mc : ModelCatalog) (m : gmap string (list string))
    (p : ModelProvider) :
  let loaded := loadSnapshotLoop mc (map_to_list m) in
  match m !! p with
  | Some (model :: models) =>
      loaded.(providerModelSnapshots) !! p = Some (model :: models)
      ∧ loaded.(modelPool) !! p = Some (model :: models)
      ∧ loaded.(unfilteredModelPool) !! p = Some (model :: models)
      ∧ loaded.(providerModelSources) !! p
        = Some ProviderModelSourcePersistedSnapshot
      ∧ loaded.(unfilteredProviderModelSources) !! p
        = Some ProviderModelSourcePersistedSnapshot
  | _ =>
      loaded.(providerModelSnapshots) !! p = mc.(providerModelSnapshots) !! p
      ∧ loaded.(modelPool) !! p = mc.(modelPool) !! p
      ∧ loaded.(unfilteredModelPool) !! p = mc.(unfilteredModelPool) !! p
      ∧ loaded.(providerModelSources) !! p = mc.(providerModelSources) !! p
      ∧ loaded.(unfilteredProviderModelSources) !! p
        = mc.(unfilteredProviderModelSources) !! p
  end.
Proof.
  intros loaded. subst loaded.
  rewrite (loadSnapshot_models providerModelSnapshots),
    (loadSnapshot_models modelPool), (loadSnapshot_models unfilteredModelPool),
    (loadSnapshot_tags providerModelSources),
    (loadSnapshot_tags unfilteredProviderModelSources);
    try (intros; apply loadSnapshotEntry_models_body);
    try (intros; apply loadSnapshotEntry_tags_body).
  by destruct (m !! p) as [[|]|].
Qed.

Lemma loadSnapshotLoop_health (mc : ModelCatalog) (m : gmap string (list string)) :
  (loadSnapshotLoop mc (map_to_list m)).(providerModelHealth)
  = mc.(providerModelHealth).
Proof.
  apply (fold_keeps_field providerModelHealth loadSnapshotEntry).
  intros mc' k models. unfold loadSnapshotEntry. by destruct models.
Qed.

(** A report all of whose providers are unknown is unknown. *)
Lemma report_all_unknown (mc : ModelCatalog) (now : time.Time) :
  (∀ item, item ∈ (GetProviderModelSnapshotHealthReport mc now).(Providers) →
           item.(sh_Status) = ProviderModelHealthUnknown) →
  (GetProviderModelSnapshotHealthReport mc now).(Status) = ProviderModelHealthUnknown.
Proof.
  unfold GetProviderModelSnapshotHealthReport.
  set (r := reportOver (elements (providerSet mc)) mc now). intros Hall.
  destruct (reportOver_Summary (elements (providerSet mc)) mc now) as [_ Hcount].
  fold r in Hcount.
  assert (∀ status, status ≠ ProviderModelHealthUnknown →
            summaryCounter status r.(Summary) = 0) as Hzero.
  { intros status Hst. pose proof (countWithStatus_nonneg status r.(Providers)).
    destruct (decide (0 < countWithStatus status r.(Providers))) as [Hp|];
      [|rewrite Hcount; lia].
    apply countWithStatus_pos in Hp as (item & Hin & Heq).
    rewrite (Hall item Hin) in Heq. by destruct Hst. }
  assert (Status r = reportStatusOf (Summary r)) as -> by apply reportOver_Status.
  unfold reportStatusOf.
  pose proof (Hzero ProviderModelHealthError) as He.
  pose proof (Hzero ProviderModelHealthStale) as Hs.
  pose proof (Hzero ProviderModelHealthDegraded) as Hd.
  pose proof (Hzero ProviderModelHealthHealthy) as Hh.
  cbn [summaryCounter] in *.
  rewrite He, Hs, Hd, Hh by done. by destruct (_ =? 0).
Qed.

End load_snapshots.

(** X18.  With a model store that answers, loading the snapshots installs
    every non-empty list as the snapshot, the filtered pool and the
    unfiltered pool of its provider, all three equal, with both source tags
    set to persisted_snapshot; a provider whose list is empty and a provider
    the store does not know keep what they had, and no health entry is
    touched.  Without a model store, or when the store answers with an
    error, the catalog is left as it is. *)
Theorem load_snapshots_installs (mc : ModelCatalog)
    (answer : option (gmap string (list string))) :
  let loaded := (loadProviderModelSnapshots mc answer).1 in
  (∀ m, is_Some (getProviderModelStore mc) → answer = Some m →
        (∀ p models, m !! p = Some models → models ≠ [] →
           loaded.(providerModelSnapshots) !! p = Some models
           ∧ loaded.(modelPool) !! p = Some models
           ∧ loaded.(unfilteredModelPool) !! p = Some models
           ∧ loaded.(providerModelSources) !! p
             = Some ProviderModelSourcePersistedSnapshot
           ∧ loaded.(unfilteredProviderModelSources) !! p
             = Some ProviderModelSourcePersistedSnapshot)
        ∧ (∀ p, m !! p = None ∨ m !! p = Some [] →
             loaded.(providerModelSnapshots) !! p = mc.(providerModelSnapshots) !! p
             ∧ loaded.(modelPool) !! p = mc.(modelPool) !! p
             ∧ loaded.(unfilteredModelPool) !! p = mc.(unfilteredModelPool) !! p
             ∧ loaded.(providerModelSources) !! p = mc.(providerModelSources) !! p
             ∧ loaded.(unfilteredProviderModelSources) !! p
               = mc.(unfilteredProviderModelSources) !! p)
        ∧ loaded.(providerModelHealth) = mc.(providerModelHealth))
  ∧ (getProviderModelStore mc = None ∨ answer = None → loaded = mc).
Proof.
  intros loaded. subst loaded. unfold loadProviderModelSnapshots. split.
  - intros m [store ->] ->. cbn [fst]. split_and!.
    + intros p models Hp Hne. pose proof (loadSnapshotLoop_lookup mc m p) as Hl.
      rewrite Hp in Hl. by destruct models.
    + intros p Hp. pose proof (loadSnapshotLoop_lookup mc m p) as Hl.
      cbv zeta in Hl. by destruct Hp as [Hp | Hp]; rewrite Hp in Hl.
    + apply loadSnapshotLoop_health.
  - intros [-> | ->]; [done|]. by destruct (getProviderModelStore mc).
Qed.

Lemma load_snapshots_installs_witness :
  let mc := {| modelPool := ∅; unfilteredModelPool := ∅; providerModelSnapshots := ∅;
               providerModelSources := ∅; unfilteredProviderModelSources := ∅;
               providerModelHealth := ∅; baseModelIndex := ∅; pricingData := ∅;
               configStore := Some (mkConfigStore true true None);
               providerModelHealthPersistCallback := None;
               providerModelHealthPersistSignal := None |} in
  (loadProviderModelSnapshots mc
     (Some {[ "glm" := ["glm-5"; "glm-4.7"] ]})).1.(modelPool) !! "glm"
  = Some ["glm-5"; "glm-4.7"].
Proof.
  intros mc.
  destruct (load_snapshots_installs mc (Some {[ "glm" := ["glm-5"; "glm-4.7"] ]}))
    as [Hinstall _].
  destruct (Hinstall {[ "glm" := ["glm-5"; "glm-4.7"] ]}) as (Hfound & _ & _).
  - by eexists.
  - reflexivity.
  - destruct (Hfound "glm" ["glm-5"; "glm-4.7"]) as (_ & Hpool & _).
    + reflexivity.
    + discriminate.
    + exact Hpool.
Defined.

(** X19.  A catalog hydrated from the snapshot store alone reports exactly
    the providers with a non-empty stored list, each with unknown health,
    the length of its list as snapshot, filtered and unfiltered count, and
    persisted_snapshot as both source tags; the report as a whole is
    unknown. *)
Theorem hydrated_catalog_report (fresh : ModelCatalog)
    (m : gmap string (list string)) (now : time.Time) :
  is_Some (getProviderModelStore fresh) →
  fresh.(modelPool) = ∅ →
  fresh.(unfilteredModelPool) = ∅ →
  fresh.(providerModelSnapshots) = ∅ →
  fresh.(providerModelSources) = ∅ →
  fresh.(unfilteredProviderModelSources) = ∅ →
  fresh.(providerModelHealth) = ∅ →
  let loaded := (loadProviderModelSnapshots fresh (Some m)).1 in
  let r := GetProviderModelSnapshotHealthReport loaded now in
  (∀ p, p ∈ sh_Provider <$> r.(Providers)
        ↔ ∃ models, m !! p = Some models ∧ models ≠ [])
  ∧ (∀ item, item ∈ r.(Providers) →
       ∃ models, m !! item.(sh_Provider) = Some models
         ∧ item.(sh_Status) = ProviderModelHealthUnknown
         ∧ item.(sh_SnapshotModelCount) = Z.of_nat (length models)
         ∧ item.(sh_FilteredModelCount) = Z.of_nat (length models)
         ∧ item.(sh_UnfilteredModelCount) = Z.of_nat (length models)
         ∧ item.(sh_FilteredSource) = ProviderModelSourcePersistedSnapshot
         ∧ item.(sh_UnfilteredSource) = ProviderModelSourcePersistedSnapshot
         ∧ item.(sh_LastSnapshotUpdated) = None)
  ∧ r.(Status) = ProviderModelHealthUnknown.
Proof.
  intros [store Hstore] Hp Hu Hs Hfs Hus Hh loaded r.
  assert (loaded = loadSnapshotLoop fresh (map_to_list m)) as Hloaded.
  { subst loaded. unfold loadProviderModelSnapshots. by rewrite Hstore. }
  assert (loaded.(providerModelHealth) = ∅) as Hlh.
  { by rewrite Hloaded, loadSnapshotLoop_health. }
  assert (∀ p, p ∈ providerSet loaded ↔ ∃ models, m !! p = Some models ∧ models ≠ [])
    as Hkeys.
  { intros p. rewrite elem_of_providerSet, Hlh, lookup_empty.
    pose proof (loadSnapshotLoop_lookup fresh m p) as Hl. rewrite <- Hloaded in Hl.
    rewrite Hp, Hu, Hs, Hfs, Hus, !lookup_empty in Hl.
    destruct (m !! p) as [[|model models]|];
      destruct Hl as (-> & -> & -> & -> & ->); split.
    - intros [[? ?] | [[? ?] | [[? ?] | [[? ?] | [[? ?] | [? ?]]]]]]; done.
    - by intros (models & [= <-] & ?).
    - intros _. by eexists.
    - intros _. left. by eexists.
    - intros [[? ?] | [[? ?] | [[? ?] | [[? ?] | [[? ?] | [? ?]]]]]]; done.
    - by intros (models & ? & ?). }
  assert (∀ item, item ∈ r.(Providers) →
            ∃ models, m !! item.(sh_Provider) = Some models
              ∧ item.(sh_Status) = ProviderModelHealthUnknown
              ∧ item.(sh_SnapshotModelCount) = Z.of_nat (length models)
              ∧ item.(sh_FilteredModelCount) = Z.of_nat (length models)
              ∧ item.(sh_UnfilteredModelCount) = Z.of_nat (length models)
              ∧ item.(sh_FilteredSource) = ProviderModelSourcePersistedSnapshot
              ∧ item.(sh_UnfilteredSource) = ProviderModelSourcePersistedSnapshot
              ∧ item.(sh_LastSnapshotUpdated) = None) as Hitems.
  { intros item Hin. apply report_items in Hin as (p & Hpk & ->).
    apply Hkeys in Hpk as (models & Hm & Hne). exists models.
    pose proof (loadSnapshotLoop_lookup fresh m p) as Hl. rewrite <- Hloaded in Hl.
    rewrite Hm in Hl. destruct models as [|model models]; [done|].
    destruct Hl as (Hl1 & Hl2 & Hl3 & Hl4 & Hl5).
    unfold reportItem, reportSource, sourceOf, modelsOf, healthOf.
    rewrite Hl1, Hl2, Hl3, Hl4, Hl5, Hlh, lookup_empty. done. }
  split_and!.
  - intros p. subst r. unfold GetProviderModelSnapshotHealthReport.
    rewrite report_keys, sortProviders_elem_of, elem_of_elements. apply Hkeys.
  - exact Hitems.
  - apply report_all_unknown. intros item Hin.
    by destruct (Hitems item Hin) as (models & _ & ? & _).
Qed.

Lemma hydrated_catalog_report_witness :
  let fresh := {| modelPool := ∅; unfilteredModelPool := ∅; providerModelSnapshots := ∅;
                  providerModelSources := ∅; unfilteredProviderModelSources := ∅;
                  providerModelHealth := ∅; baseModelIndex := ∅; pricingData := ∅;
                  configStore := Some (mkConfigStore true true None);
                  providerModelHealthPersistCallback := None;
                  providerModelHealthPersistSignal := None |} in
  (GetProviderModelSnapshotHealthReport
     (loadProviderModelSnapshots fresh (Some {[ "glm" := ["glm-5"] ]})).1
     1000).(Status) = ProviderModelHealthUnknown.
Proof.
  intros fresh.
  apply (hydrated_catalog_report fresh {[ "glm" := ["glm-5"] ]} 1000);
    first [by eexists | reflexivity].
Defined.

(** X20.  [persistProviderModelSnapshot] never sends an empty list to the
    store: it calls the store at most once, for the given provider with the
    given names, and only when the list is not empty and the store has the
    methods.  So whatever it writes, [loadProviderModelSnapshots] installs
    from a store that returns it. *)
Theorem persist_snapshot_never_empty (mc : ModelCatalog) (provider : ModelProvider)
    (models : list string) (replaceFails : bool) :
  let effects := persistProviderModelSnapshot mc provider models replaceFails in
  (∀ p names, StoreReplaceProviderModelNames p names ∈ effects →
     p = provider ∧ names = models ∧ names ≠ []
     ∧ is_Some (getProviderModelStore mc))
  ∧ (models ≠ [] → is_Some (getProviderModelStore mc) →
     effects = if replaceFails
               then [StoreReplaceProviderModelNames provider models;
                     SnapshotWarn "failed to persist provider model snapshot"]
               else [StoreReplaceProviderModelNames provider models])
  ∧ (models = [] ∨ getProviderModelStore mc = None → effects = [])
  ∧ (∀ p names (other : ModelCatalog) (stored : gmap string (list string)),
       StoreReplaceProviderModelNames p names ∈ effects →
       is_Some (getProviderModelStore other) →
       stored !! p = Some names →
       (loadProviderModelSnapshots other (Some stored)).1.(providerModelSnapshots) !! p
       = Some names).
Proof.
  intros effects.
  assert (∀ p names, StoreReplaceProviderModelNames p names ∈ effects →
            p = provider ∧ names = models ∧ names ≠ []
            ∧ is_Some (getProviderModelStore mc)) as Hwritten.
  { intros p names. subst effects. unfold persistProviderModelSnapshot.
    destruct models as [|model models]; [by intros ?%elem_of_nil|]. cbn [length Nat.eqb].
    destruct (getProviderModelStore mc) as [store|]; [|by intros ?%elem_of_nil].
    destruct replaceFails.
    - rewrite elem_of_cons, list_elem_of_singleton. intros [[= -> ->] | [=]]. by eauto.
    - rewrite list_elem_of_singleton. intros [= -> ->]. by eauto. }
  split_and!.
  - exact Hwritten.
  - intros Hne [store Hstore]. subst effects. unfold persistProviderModelSnapshot.
    rewrite Hstore. by destruct models.
  - intros [-> | Hno]; subst effects; unfold persistProviderModelSnapshot; [done|].
    rewrite Hno. by destruct models.
  - intros p names other stored Hin [store Hstore] Hstored.
    destruct (Hwritten p names Hin) as (_ & _ & Hne & _).
    unfold loadProviderModelSnapshots. rewrite Hstore. cbn [fst].
    pose proof (loadSnapshotLoop_lookup other stored p) as Hl. cbv zeta in Hl.
    rewrite Hstored in Hl. destruct names; [done|]. by destruct Hl.
Qed.

Lemma persist_snapshot_never_empty_witness :
  let mc := {| modelPool := ∅; unfilteredModelPool := ∅; providerModelSnapshots := ∅;
               providerModelSources := ∅; unfilteredProviderModelSources := ∅;
               providerModelHealth := ∅; baseModelIndex := ∅; pricingData := ∅;
               configStore := Some (mkConfigStore true true None);
               providerModelHealthPersistCallback := None;
               providerModelHealthPersistSignal := None |} in
  persistProviderModelSnapshot mc "glm" ["glm-5"] false
  = [StoreReplaceProviderModelNames "glm" ["glm-5"]].
Proof.
  intros mc.
  apply (persist_snapshot_never_empty mc "glm" ["glm-5"] false).
  - discriminate.
  - by eexists.
Defined.

(** ** Health route *)

(** X21.  The model-catalog health route answers 503 exactly when the
    configuration or its catalog is missing or some provider of the report
    is in error, and 200 in every other case; with a catalog the body is the
    report itself. *)
Theorem health_route_status (config : option Config) (now : time.Time) :
  let response := getModelCatalogHealth config now in
  (responseStatus response = StatusServiceUnavailable
   ↔ config = None
     ∨ (∃ c, config = Some c ∧ c.(cfg_ModelCatalog) = None)
     ∨ (∃ c mc item, config = Some c ∧ c.(cfg_ModelCatalog) = Some mc
          ∧ item ∈ (GetProviderModelSnapshotHealthReport mc now).(Providers)
          ∧ item.(sh_Status) = ProviderModelHealthError))
  ∧ (responseStatus response = StatusServiceUnavailable
     ∨ responseStatus response = StatusOK)
  ∧ (∀ c mc, config = Some c → c.(cfg_ModelCatalog) = Some mc →
       response = SendJSONWithStatus (GetProviderModelSnapshotHealthReport mc now)
                    (responseStatus response)).
Proof.
  intros response. subst response. unfold getModelCatalogHealth.
  destruct config as [[[mc|]]|]; cbn [cfg_ModelCatalog responseStatus].
  - pose proof (report_error_iff mc now) as Herr. case_bool_decide as Hst.
    + split_and!.
      * split; [|done]. intros _. right. right.
        apply Herr in Hst as (item & Hin & Hitem). by exists (mkConfig (Some mc)), mc, item.
      * by left.
      * by intros c mc' [= <-] [= <-].
    + split_and!.
      * split; [done|]. intros [? | [(c & [= <-] & ?) | (c & mc' & item & [= <-] & [= <-] & Hin & Hitem)]];
          try done. destruct Hst. apply Herr. by exists item.
      * by right.
      * by intros c mc' [= <-] [= <-].
  - split_and!.
    + split; [|done]. intros _. right. left. by eexists.
    + by left.
    + by intros c mc [= <-] ?.
  - split_and!.
    + split; [|done]. intros _. by left.
    + by left.
    + by intros c mc ?.
Qed.

Lemma health_route_status_witness :
  getModelCatalogHealth (Some (mkConfig (Some discoveredCatalog))) 2000
  = SendJSONWithStatus (GetProviderModelSnapshotHealthReport discoveredCatalog 2000)
      StatusOK.
Proof.
  destruct (health_route_status (Some (mkConfig (Some discoveredCatalog))) 2000)
    as (_ & _ & Hbody).
  rewrite (Hbody (mkConfig (Some discoveredCatalog)) discoveredCatalog eq_refl eq_refl)
    at 1.
  reflexivity.
Defined.

(** ** Persistence worker *)

Section worker.

Context `{Schemas}.

Lemma persistNow_withSignal (signal : option bool) (mc : ModelCatalog) :
  persistProviderModelHealthStateNow (withSignal signal mc)
  = persistProviderModelHealthStateNow mc.
Proof. done. Qed.

Lemma persistNow_flushes (mc : ModelCatalog) :
  (countFlushes (persistProviderModelHealthStateNow mc) ≤ 1)%nat.
Proof.
  unfold persistProviderModelHealthStateNow, countFlushes.
  destruct (providerModelHealthPersistCallback mc); [simpl; lia|].
  destruct (getProviderModelHealthStore mc) as [store|]; [|simpl; lia].
  destruct (sonic.Marshal _); [|simpl; lia].
  destruct (UpdateConfig_error store); simpl; lia.
Qed.

Lemma persistNow_signals (mc : ModelCatalog) :
  countSignals (persistProviderModelHealthStateNow mc) = 0%nat.
Proof.
  unfold persistProviderModelHealthStateNow, countSignals.
  destruct (providerModelHealthPersistCallback mc); [done|].
  destruct (getProviderModelHealthStore mc) as [store|]; [|done].
  destruct (sonic.Marshal _); [|done].
  by destruct (UpdateConfig_error store).
Qed.

(** The call writes exactly when there is a flush callback, or a health
    store and a payload that encodes. *)
Lemma persistNow_writes (mc : ModelCatalog) :
  countFlushes (persistProviderModelHealthStateNow mc) = 1%nat
  ↔ is_Some mc.(providerModelHealthPersistCallback)
    ∨ (is_Some (getProviderModelHealthStore mc)
       ∧ is_Some (sonic.Marshal (getPersistedProviderModelHealthState mc))).
Proof.
  unfold persistProviderModelHealthStateNow, countFlushes.
  destruct (providerModelHealthPersistCallback mc) as [cb|].
  { split; [by left | done]. }
  destruct (getProviderModelHealthStore mc) as [store|].
  - cbv zeta. destruct (sonic.Marshal _) as [payloadJSON|].
    + split; [by right | intros _]. by destruct (UpdateConfig_error store).
    + split; [done | intros [[? [=]] | [_ [? [=]]]]].
  - split; [done | intros [[? [=]] | [[? [=]] _]]].
Qed.

Lemma encodableHealth_spec (mc : ModelCatalog) :
  encodableHealth mc = true
  ↔ ∀ provider state, mc.(providerModelHealth) !! provider = Some state →
      sonic.encodableDiscovery state.(Filtered) = true
      ∧ sonic.encodableDiscovery state.(Unfiltered) = true
      ∧ time.MarshalJSON_ok state.(LastSnapshotUpdated) = true.
Proof.
  unfold encodableHealth. rewrite forallb_forall. split.
  - intros Hall provider state Hlookup.
    apply elem_of_map_to_list, list_elem_of_In, Hall in Hlookup.
    cbn [snd] in Hlookup. by apply andb_true_iff in Hlookup as [[??]%andb_true_iff ?].
  - intros Hall [provider state] Hin.
    apply list_elem_of_In, elem_of_map_to_list, Hall in Hin as (Hf & Hu & Ht).
    cbn [snd]. by rewrite Hf, Hu, Ht.
Qed.

(** A health map whose instants all encode gives a payload that encodes. *)
Lemma marshal_encodable (mc : ModelCatalog) :
  encodableHealth mc = true →
  sonic.Marshal (getPersistedProviderModelHealthState mc)
  = Some (getPersistedProviderModelHealthState mc).
Proof.
  intros Hok. unfold sonic.Marshal.
  assert (forallb (λ kv : string * persistedProviderModelHealthState,
                     sonic.encodable kv.2)
            (map_to_list (getPersistedProviderModelHealthState mc)) = true) as ->;
    [|done].
  apply forallb_forall. intros [provider entry] Hin.
  apply list_elem_of_In, elem_of_map_to_list, persisted_lookup_Some in Hin
    as (-> & _ & _).
  cbn [snd]. unfold sonic.encodable, persistedEntry, healthOf.
  cbn [p_Filtered p_Unfiltered p_LastSnapshotUpdated].
  destruct (providerModelHealth mc !! provider) as [state|] eqn:Hlookup; [|done].
  cbn [default id].
  by destruct (proj1 (encodableHealth_spec mc) Hok provider state Hlookup)
    as (-> & -> & ->).
Qed.

(** A recording at an instant that encodes keeps the health map
    encodable. *)
Lemma Record_keeps_encodable (mc : ModelCatalog) (now : time.Time)
    (provider : ModelProvider) (unfiltered : bool)
    (modelData : option schemas.BifrostListModelsResponse)
    (discoveryErr : option schemas.BifrostError) :
  encodableHealth mc = true →
  time.MarshalJSON_ok now = true →
  encodableHealth (RecordProviderModelDiscoveryResult mc now provider unfiltered
                     modelData discoveryErr).1 = true.
Proof.
  intros Hok Hnow. apply encodableHealth_spec. intros p state.
  unfold RecordProviderModelDiscoveryResult. rewrite persist_keeps_health.
  unfold recordLocked. cbn [withHealth providerModelHealth].
  pose proof (proj1 (encodableHealth_spec mc) Hok) as Hall.
  destruct (decide (provider = p)) as [<- | Hne];
    [|rewrite lookup_insert_ne by done; apply Hall].
  rewrite lookup_insert_eq. intros [= <-].
  assert (sonic.encodableDiscovery (healthOf mc provider).(Filtered) = true
          ∧ sonic.encodableDiscovery (healthOf mc provider).(Unfiltered) = true
          ∧ time.MarshalJSON_ok (healthOf mc provider).(LastSnapshotUpdated) = true)
    as (Hf & Hu & Ht).
  { unfold healthOf.
    destruct (providerModelHealth mc !! provider) as [state|] eqn:Hlookup;
      [by apply Hall in Hlookup | done]. }
  assert (∀ target, sonic.encodableDiscovery target = true →
            sonic.encodableDiscovery
              (recordOutcome now provider modelData discoveryErr target) = true)
    as Hout.
  { intros target. unfold sonic.encodableDiscovery, recordOutcome.
    rewrite !andb_true_iff. intros [[Ha Hs] He].
    destruct discoveryErr; cbn [LastAttemptAt LastSuccessAt LastErrorAt];
      rewrite ?Hnow, ?Hs; done. }
  destruct unfiltered; cbn [updateTarget Filtered Unfiltered LastSnapshotUpdated];
    split_and!; try done; by apply Hout.
Qed.

Lemma countFlushes_app (e1 e2 : list Effect) :
  countFlushes (e1 ++ e2) = (countFlushes e1 + countFlushes e2)%nat.
Proof. unfold countFlushes. by rewrite List.filter_app, length_app. Qed.

Lemma countSignals_app (e1 e2 : list Effect) :
  countSignals (e1 ++ e2) = (countSignals e1 + countSignals e2)%nat.
Proof. unfold countSignals. by rewrite List.filter_app, length_app. Qed.

(** What a recording does to the channel when there is one: nothing, or
    one token into the free buffer with the signal as only effect. *)
Lemma Record_with_channel (mc : ModelCatalog) (now : time.Time)
    (provider : ModelProvider) (unfiltered : bool)
    (modelData : option schemas.BifrostListModelsResponse)
    (discoveryErr : option schemas.BifrostError) :
  mc.(providerModelHealthPersistSignal) ≠ None →
  let result := RecordProviderModelDiscoveryResult mc now provider unfiltered
                  modelData discoveryErr in
  (result.2 = []
   ∧ result.1.(providerModelHealthPersistSignal)
     = mc.(providerModelHealthPersistSignal)
   ∧ (shouldPersistProviderModelHealthState mc = false
      ∨ mc.(providerModelHealthPersistSignal) = Some true))
  ∨ (result.2 = [SignalRaised]
     ∧ mc.(providerModelHealthPersistSignal) = Some false
     ∧ result.1.(providerModelHealthPersistSignal) = Some true
     ∧ shouldPersistProviderModelHealthState mc = true).
Proof.
  intros Hsig result. subst result.
  unfold RecordProviderModelDiscoveryResult, persistProviderModelHealthState.
  change (shouldPersistProviderModelHealthState
            (recordLocked mc now provider unfiltered modelData discoveryErr))
    with (shouldPersistProviderModelHealthState mc).
  change (providerModelHealthPersistSignal
            (recordLocked mc now provider unfiltered modelData discoveryErr))
    with (providerModelHealthPersistSignal mc).
  destruct (shouldPersistProviderModelHealthState mc); cbn [negb].
  - destruct (providerModelHealthPersistSignal mc) as [[]|] eqn:Hs; [| |done].
    + left. by split_and!; [| |right].
    + right. by split_and!.
  - left. by split_and!; [| |left].
Qed.

Lemma start_invariant (mc : ModelCatalog) :
  workerInvariant (startProviderModelHealthPersistWorker mc).
Proof. split; [done|]. intros _. split; [done|]. done. Qed.

Lemma step_invariant (s s' : System) (ev : Event) (effects : list Effect) :
  workerInvariant s → step s ev = Some (s', effects) → workerInvariant s'.
Proof.
  intros [Hsig Hrun]. destruct ev as [now provider unfiltered modelData discoveryErr| | | |];
    unfold step.
  - pose proof (Record_with_channel (catalog s) now provider unfiltered modelData
                  discoveryErr Hsig) as Hrec. cbv zeta in Hrec.
    destruct (RecordProviderModelDiscoveryResult _ _ _ _ _ _) as [mc eff].
    intros [= <- <-]. split; [|done]. simpl in *.
    destruct Hrec as [(_ & -> & _) | (_ & _ & -> & _)]; done.
  - destruct (timer (worker s)) eqn:Ht; try done. intros [= <- <-].
    split; [done|]. simpl. intros Hr. destruct (Hrun Hr) as [Hp _].
    split; [done|]. by right.
  - destruct (negb _ && _); [|done]. intros [= <- <-].
    split; [done|]. simpl. intros _. split; [done|]. by left.
  - destruct (negb _ && _ && _); [|done]. unfold workerTimerCase, flushPending.
    destruct (pending (worker s)); simpl; intros [= <- <-]; split; try done.
  - destruct (negb _); [|done]. unfold workerStopCase, drainSignals, flushPending.
    destruct (providerModelHealthPersistSignal (catalog s)) as [[]|] eqn:Hs;
      destruct (pending (worker s)); simpl; intros [= <- <-]; split; done.
Qed.

Lemma run_invariant (events : list Event) (s s' : System) (effects : list Effect) :
  workerInvariant s → run s events = Some (s', effects) → workerInvariant s'.
Proof.
  revert s effects. induction events as [|ev events IH]; intros s effects Hinv; simpl.
  { by intros [= <- <-]. }
  destruct (step s ev) as [[s1 e1]|] eqn:Hstep; [|done].
  destruct (run s1 events) as [[s2 e2]|] eqn:Hrun; [|done].
  intros [= <- <-]. eapply IH; [|done]. by eapply step_invariant.
Qed.

(** Settle an inequality between tallies of effects and tokens. *)
Ltac tally :=
  unfold tokens; cbn;
  repeat case_bool_decide; simplify_eq;
  repeat case_match; simplify_eq; lia.

(** One step never writes more than the tokens it uses up. *)
Lemma step_tokens (s s' : System) (ev : Event) (effects : list Effect) :
  workerInvariant s → step s ev = Some (s', effects) →
  (countFlushes effects + tokens s' ≤ countSignals effects + tokens s)%nat.
Proof.
  intros [Hsig Hrun]. destruct ev as [now provider unfiltered modelData discoveryErr| | | |];
    unfold step.
  - pose proof (Record_with_channel (catalog s) now provider unfiltered modelData
                  discoveryErr Hsig) as Hrec. cbv zeta in Hrec.
    destruct (RecordProviderModelDiscoveryResult _ _ _ _ _ _) as [mc eff].
    intros [= <- <-]. unfold tokens. cbn [catalog worker fst snd] in *.
    destruct Hrec as [(-> & -> & _) | (-> & -> & -> & _)]; tally.
  - destruct (timer (worker s)); try done. intros [= <- <-]. tally.
  - destruct (negb _); [|done]. cbn [andb]. case_bool_decide as Hs; [|done].
    intros [= <- <-]. unfold tokens. cbn [catalog worker workerSignalCase
      providerModelHealthPersistSignal withSignal pending fst]. rewrite Hs. tally.
  - destruct (negb _ && _ && _); [|done]. unfold workerTimerCase, flushPending.
    pose proof (persistNow_flushes (catalog s)) as Hf.
    pose proof (persistNow_signals (catalog s)) as Hn.
    destruct (pending (worker s)) eqn:Hp; cbn [negb]; intros [= <- <-];
      unfold tokens; cbn [catalog worker pending]; rewrite Hp.
    + rewrite Hn. lia.
    + tally.
  - destruct (negb _); [|done]. unfold workerStopCase, drainSignals, flushPending.
    pose proof (persistNow_flushes (catalog s)) as Hf.
    pose proof (persistNow_signals (catalog s)) as Hn.
    unfold tokens.
    destruct (providerModelHealthPersistSignal (catalog s)) as [[]|] eqn:Hs;
      destruct (pending (worker s)) eqn:Hp; cbn [negb]; intros [= <- <-];
      cbn [catalog worker pending providerModelHealthPersistSignal withSignal];
      rewrite ?persistNow_withSignal, ?Hn;
      repeat case_bool_decide; simplify_eq; cbn [countFlushes countSignals
        List.filter length]; lia.
Qed.

Lemma run_tokens (events : list Event) (s s' : System) (effects : list Effect) :
  workerInvariant s → run s events = Some (s', effects) →
  (countFlushes effects + tokens s' ≤ countSignals effects + tokens s)%nat.
Proof.
  revert s effects. induction events as [|ev events IH]; intros s effects Hinv; simpl.
  { intros [= <- <-]. unfold countFlushes, countSignals. simpl. lia. }
  destruct (step s ev) as [[s1 e1]|] eqn:Hstep; [|done].
  destruct (run s1 events) as [[s2 e2]|] eqn:Hrun; [|done].
  intros [= <- <-]. rewrite countFlushes_app, countSignals_app.
  pose proof (step_tokens _ _ _ _ Hinv Hstep).
  pose proof (IH _ _ (step_invariant _ _ _ _ Hinv Hstep) Hrun). lia.
Qed.

(** Outside the timer case and the stop case nothing is written. *)
Lemma step_quiet (s s' : System) (ev : Event) (effects : list Effect) :
  workerInvariant s → isFlushingCase ev = false →
  step s ev = Some (s', effects) → countFlushes effects = 0%nat.
Proof.
  intros [Hsig Hrun] Hev.
  destruct ev as [now provider unfiltered modelData discoveryErr| | | |];
    try done; unfold step.
  - pose proof (Record_with_channel (catalog s) now provider unfiltered modelData
                  discoveryErr Hsig) as Hrec. cbv zeta in Hrec.
    destruct (RecordProviderModelDiscoveryResult _ _ _ _ _ _) as [mc eff].
    intros [= <- <-]. simpl in *.
    by destruct Hrec as [(-> & _) | (-> & _)].
  - destruct (timer (worker s)); try done. by intros [= <- <-].
  - destruct (negb _ && _); [|done]. by intros [= <- <-].
Qed.

End worker.

Section worker_runs.

Context `{Schemas}.

Lemma run_app (s : System) (events1 events2 : list Event) :
  run s (events1 ++ events2)
  = match run s events1 with
    | Some (s1, effects1) =>
        match run s1 events2 with
        | Some (s2, effects2) => Some (s2, (effects1 ++ effects2)%list)
        | None => None
        end
    | None => None
    end.
Proof.
  revert s. induction events1 as [|ev events1 IH]; intros s; simpl.
  { by destruct (run s events2) as [[]|]. }
  destruct (step s ev) as [[s1 e1]|]; [|done]. rewrite IH.
  destruct (run s1 events1) as [[s2 e2]|]; [|done].
  destruct (run s2 events2) as [[s3 e3]|]; [|done].
  by rewrite app_assoc.
Qed.

Lemma run_quiet (events : list Event) (s s' : System) (effects : list Effect) :
  workerInvariant s →
  Forall (λ ev, isFlushingCase ev = false) events →
  run s events = Some (s', effects) →
  Forall (λ e, e = SignalRaised) effects.
Proof.
  revert s effects. induction events as [|ev events IH]; intros s effects Hinv Hq; simpl.
  { intros [= <- <-]. constructor. }
  apply Forall_cons in Hq as [Hev Hq].
  destruct (step s ev) as [[s1 e1]|] eqn:Hstep; [|done].
  destruct (run s1 events) as [[s2 e2]|] eqn:Hrun; [|done].
  intros [= <- <-]. apply Forall_app. split.
  - destruct Hinv as [Hsig _].
    destruct ev as [now provider unfiltered modelData discoveryErr| | | |];
      try done; unfold step in Hstep.
    + pose proof (Record_with_channel (catalog s) now provider unfiltered modelData
                    discoveryErr Hsig) as Hrec. cbv zeta in Hrec.
      destruct (RecordProviderModelDiscoveryResult _ _ _ _ _ _) as [mc eff].
      injection Hstep as <- <-. cbn [snd] in Hrec.
      destruct Hrec as [(-> & _) | (-> & _)]; repeat constructor.
    + destruct (timer (worker s)); try done. injection Hstep as <- <-. constructor.
    + destruct (negb _ && _); [|done]. injection Hstep as <- <-. constructor.
  - eapply IH; [|done|done]. by eapply step_invariant.
Qed.

Lemma Record_keeps_shouldPersist (mc : ModelCatalog) (now : time.Time)
    (provider : ModelProvider) (unfiltered : bool)
    (modelData : option schemas.BifrostListModelsResponse)
    (discoveryErr : option schemas.BifrostError) :
  let mc' := (RecordProviderModelDiscoveryResult mc now provider unfiltered
                modelData discoveryErr).1 in
  shouldPersistProviderModelHealthState mc'
  = shouldPersistProviderModelHealthState mc
  ∧ mc'.(providerModelHealthPersistCallback)
    = mc.(providerModelHealthPersistCallback).
Proof.
  intros mc'. subst mc'. unfold RecordProviderModelDiscoveryResult.
  destruct (persist_keeps_config
              (recordLocked mc now provider unfiltered modelData discoveryErr))
    as (_ & _ & Hstore & Hcb).
  unfold shouldPersistProviderModelHealthState, getProviderModelHealthStore.
  by rewrite Hstore, Hcb.
Qed.

(** Recordings while a token is buffered: every one of them is dropped. *)
Lemma run_records_buffered (records : list Event) (s : System) :
  Forall (λ ev, isRecord ev = true) records →
  s.(catalog).(providerModelHealthPersistSignal) = Some true →
  ∃ s', run s records = Some (s', [])
        ∧ s'.(worker) = s.(worker)
        ∧ s'.(catalog).(providerModelHealthPersistSignal) = Some true
        ∧ shouldPersistProviderModelHealthState s'.(catalog)
          = shouldPersistProviderModelHealthState s.(catalog)
        ∧ s'.(catalog).(providerModelHealthPersistCallback)
          = s.(catalog).(providerModelHealthPersistCallback).
Proof.
  revert s. induction records as [|ev records IH]; intros s Hrec Hsig.
  { by exists s. }
  apply Forall_cons in Hrec as [Hev Hrec].
  destruct ev as [now provider unfiltered modelData discoveryErr| | | |]; try done.
  cbn [run step].
  pose proof (Record_with_channel (catalog s) now provider unfiltered modelData
                discoveryErr) as Hone. cbv zeta in Hone.
  pose proof (Record_keeps_shouldPersist (catalog s) now provider unfiltered
                modelData discoveryErr) as Hkeep. cbv zeta in Hkeep.
  destruct (RecordProviderModelDiscoveryResult _ _ _ _ _ _) as [mc eff].
  cbn [fst snd] in *.
  destruct Hone as [(-> & Hsame & _) | (_ & Hfalse & _)]; [by rewrite Hsig| |congruence].
  destruct (IH {| catalog := mc; worker := worker s |} Hrec)
    as (s' & -> & Hw & Hs' & Hp & Hcb); [cbn; congruence|].
  exists s'. cbn in *. destruct Hkeep as [Hk1 Hk2].
  split_and!; try done; congruence.
Qed.

(** Recordings at instants that encode keep the health map encodable. *)
Lemma run_records_encodable (records : list Event) (s s' : System)
    (effects : list Effect) :
  Forall (λ ev, isRecord ev = true) records →
  Forall (λ ev, recordedInRange ev = true) records →
  encodableHealth s.(catalog) = true →
  run s records = Some (s', effects) →
  encodableHealth s'.(catalog) = true.
Proof.
  revert s effects. induction records as [|ev records IH];
    intros s effects Hrec Hrange Hok; cbn [run].
  { by intros [= <- <-]. }
  apply Forall_cons in Hrec as [Hev Hrec]. apply Forall_cons in Hrange as [Hin Hrange].
  destruct ev as [now provider unfiltered modelData discoveryErr| | | |]; try done.
  cbn [step].
  pose proof (Record_keeps_encodable (catalog s) now provider unfiltered modelData
                discoveryErr Hok Hin) as Hok1.
  destruct (RecordProviderModelDiscoveryResult _ _ _ _ _ _) as [mc1 eff1].
  cbn [fst] in Hok1.
  destruct (run {| catalog := mc1; worker := worker s |} records)
    as [[s2 e2]|] eqn:Hrun; [|done].
  intros [= <- <-]. eapply IH; [done | done | | exact Hrun]. exact Hok1.
Qed.

End worker_runs.

(** X22.  Whatever recordings, timer expiries and worker cases follow the
    start of the worker, while the worker runs a write is pending exactly
    when its timer channel is armed, and an armed timer is running or has
    fired: a pending write never waits without a timer that will flush
    it. *)
Theorem worker_pending_has_timer `{Schemas} (mc : ModelCatalog) (events : list Event)
    (s : System) (effects : list Effect) :
  run (startProviderModelHealthPersistWorker mc) events = Some (s, effects) →
  s.(catalog).(providerModelHealthPersistSignal) ≠ None
  ∧ (s.(worker).(returned) = false →
     s.(worker).(pending) = s.(worker).(timerC)
     ∧ (s.(worker).(pending) = true →
        s.(worker).(timer) = TimerRunning ∨ s.(worker).(timer) = TimerFired)).
Proof.
  intros Hrun.
  destruct (run_invariant events _ _ _ (start_invariant mc) Hrun) as [Hsig Hw].
  split; [done|]. intros Hr. destruct (Hw Hr) as [Hp Ht].
  split; [done|]. rewrite Hp. exact Ht.
Qed.

Lemma worker_pending_has_timer_witness :
  ∃ s effects,
    @run scenarioSchemas (startProviderModelHealthPersistWorker callbackCatalog)
      [EvRecord 1000 "glm" false None None; EvSignalCase] = Some (s, effects)
    ∧ s.(worker).(pending) = s.(worker).(timerC).
Proof.
  destruct (@run scenarioSchemas (startProviderModelHealthPersistWorker callbackCatalog)
              [EvRecord 1000 "glm" false None None; EvSignalCase])
    as [[s effects]|] eqn:Hrun.
  - exists s, effects. split; [reflexivity|].
    destruct (@worker_pending_has_timer scenarioSchemas callbackCatalog _ s effects Hrun)
      as [_ Hw].
    apply Hw. vm_compute in Hrun. by injection Hrun as <- <-.
  - vm_compute in Hrun. discriminate Hrun.
Defined.

(** X23.  Coalescing: in every run from the start of the worker, the writes
    performed plus the signals still buffered or pending never exceed the
    signals raised; so there are never more writes than raised signals. *)
Theorem worker_coalesces `{Schemas} (mc : ModelCatalog) (events : list Event)
    (s : System) (effects : list Effect) :
  run (startProviderModelHealthPersistWorker mc) events = Some (s, effects) →
  (countFlushes effects + tokens s ≤ countSignals effects)%nat
  ∧ (countFlushes effects ≤ countSignals effects)%nat.
Proof.
  intros Hrun.
  pose proof (run_tokens events _ _ _ (start_invariant mc) Hrun) as Hle.
  change (tokens (startProviderModelHealthPersistWorker mc)) with 0%nat in Hle.
  lia.
Qed.

(** X24.  Debounce: as long as the worker takes neither its timer case nor
    its stop case, nothing is written, however many results are recorded;
    the only effect of the recordings is raising the signal. *)
Theorem no_write_before_timer `{Schemas} (mc : ModelCatalog) (events : list Event)
    (s : System) (effects : list Effect) :
  run (startProviderModelHealthPersistWorker mc) events = Some (s, effects) →
  Forall (λ ev, isFlushingCase ev = false) events →
  Forall (λ e, e = SignalRaised) effects ∧ countFlushes effects = 0%nat.
Proof.
  intros Hrun Hquiet.
  pose proof (run_quiet events _ _ _ (start_invariant mc) Hquiet Hrun) as Hsig.
  split; [done|]. unfold countFlushes. clear Hrun.
  induction Hsig as [|e effects' -> _ IH]; [done|]. exact IH.
Qed.

Lemma worker_coalesces_witness :
  ∃ s effects,
    @run scenarioSchemas (startProviderModelHealthPersistWorker callbackCatalog)
      [EvRecord 1000 "glm" false None None; EvRecord 1001 "glm" false None None;
       EvSignalCase; EvTimerExpires; EvTimerCase] = Some (s, effects)
    ∧ (countFlushes effects ≤ countSignals effects)%nat.
Proof.
  destruct (@run scenarioSchemas (startProviderModelHealthPersistWorker callbackCatalog)
              [EvRecord 1000 "glm" false None None; EvRecord 1001 "glm" false None None;
               EvSignalCase; EvTimerExpires; EvTimerCase])
    as [[s effects]|] eqn:Hrun.
  - exists s, effects. split; [reflexivity|].
    apply (@worker_coalesces scenarioSchemas callbackCatalog _ s effects Hrun).
  - vm_compute in Hrun. discriminate Hrun.
Defined.

Lemma no_write_before_timer_witness :
  ∃ s effects,
    @run scenarioSchemas (startProviderModelHealthPersistWorker callbackCatalog)
      [EvRecord 1000 "glm" false None None; EvSignalCase;
       EvRecord 1001 "glm" false None None; EvTimerExpires] = Some (s, effects)
    ∧ countFlushes effects = 0%nat.
Proof.
  destruct (@run scenarioSchemas (startProviderModelHealthPersistWorker callbackCatalog)
              [EvRecord 1000 "glm" false None None; EvSignalCase;
               EvRecord 1001 "glm" false None None; EvTimerExpires])
    as [[s effects]|] eqn:Hrun.
  - exists s, effects. split; [reflexivity|].
    apply (@no_write_before_timer scenarioSchemas callbackCatalog _ s effects Hrun).
    repeat constructor.
  - vm_compute in Hrun. discriminate Hrun.
Defined.

Section worker_cases.

Context `{Schemas}.

(** Once the worker has returned nothing is written any more. *)
Lemma run_after_return (events : list Event) (s s' : System) (effects : list Effect) :
  workerInvariant s → s.(worker).(returned) = true →
  run s events = Some (s', effects) →
  countFlushes effects = 0%nat ∧ s'.(worker).(returned) = true.
Proof.
  revert s effects. induction events as [|ev events IH]; intros s effects Hinv Hret; simpl.
  { by intros [= <- <-]. }
  destruct (step s ev) as [[s1 e1]|] eqn:Hstep; [|done].
  destruct (run s1 events) as [[s2 e2]|] eqn:Hrun; [|done].
  intros [= <- <-]. rewrite countFlushes_app.
  assert (countFlushes e1 = 0%nat ∧ returned (worker s1) = true) as [-> Hret1].
  { destruct ev as [now provider unfiltered modelData discoveryErr| | | |];
      unfold step in Hstep; rewrite ?Hret in Hstep; try done.
    - split; [by eapply (step_quiet s s1 (EvRecord _ _ _ _ _))|].
      destruct (RecordProviderModelDiscoveryResult _ _ _ _ _ _).
      by injection Hstep as <- <-.
    - destruct (timer (worker s)); try done. by injection Hstep as <- <-. }
  eapply IH; [|done|done]. by eapply step_invariant.
Qed.

End worker_cases.

(** X25.  When the worker takes its timer case, in any state a run from the
    start can reach, a write is pending, the case makes the one call of
    [persistProviderModelHealthStateNow] on the catalog as it is then, and
    it leaves nothing pending, the timer at rest and its channel disarmed;
    the timer case is never taken with nothing to flush.  The call writes at
    most once: once exactly when there is a flush callback, or a health
    store and a payload that encodes (as it does when every instant of the
    health map is within the years 0 to 9999); with a store and a payload
    that does not encode it logs the failure and writes nothing. *)
Theorem timer_case_writes_at_most_once `{Schemas} (mc : ModelCatalog)
    (events : list Event) (s s' : System) (effects written : list Effect) :
  run (startProviderModelHealthPersistWorker mc) events = Some (s, effects) →
  step s EvTimerCase = Some (s', written) →
  s.(worker).(pending) = true
  ∧ written = persistProviderModelHealthStateNow s.(catalog)
  ∧ (countFlushes written ≤ 1)%nat
  ∧ (countFlushes written = 1%nat
     ↔ is_Some s.(catalog).(providerModelHealthPersistCallback)
       ∨ (is_Some (getProviderModelHealthStore s.(catalog))
          ∧ is_Some (sonic.Marshal
                       (getPersistedProviderModelHealthState s.(catalog)))))
  ∧ (s.(catalog).(providerModelHealthPersistCallback) = None →
     is_Some (getProviderModelHealthStore s.(catalog)) →
     sonic.Marshal (getPersistedProviderModelHealthState s.(catalog)) = None →
     written = [LogWarn "failed to marshal provider model health state"])
  ∧ (shouldPersistProviderModelHealthState s.(catalog) = true →
     encodableHealth s.(catalog) = true →
     countFlushes written = 1%nat)
  ∧ s'.(catalog) = s.(catalog)
  ∧ s'.(worker) = mkWorker false TimerIdle false false.
Proof.
  intros Hrun Hstep.
  destruct (run_invariant events _ _ _ (start_invariant mc) Hrun) as [_ Hw].
  unfold step in Hstep.
  destruct (returned (worker s)) eqn:Hret; [done|].
  destruct (Hw eq_refl) as [Hp _].
  destruct (timerC (worker s)) eqn:Hc; [|done].
  case_bool_decide; [|done]. cbn [negb andb] in Hstep.
  unfold workerTimerCase, flushPending in Hstep. rewrite Hp in Hstep.
  cbn [negb] in Hstep. injection Hstep as <- <-.
  split_and!; try done.
  - apply persistNow_flushes.
  - apply persistNow_writes.
  - intros Hcb [store Hstore] Hfail. unfold persistProviderModelHealthStateNow.
    by rewrite Hcb, Hstore, Hfail.
  - intros Hshould Hok. apply persistNow_writes.
    unfold shouldPersistProviderModelHealthState in Hshould.
    destruct (providerModelHealthPersistCallback (catalog s)); [by left|].
    right. apply bool_decide_eq_true in Hshould. split; [done|].
    by rewrite marshal_encodable.
Qed.

Lemma timer_case_writes_at_most_once_witness :
  ∃ s effects s' written,
    @run scenarioSchemas (startProviderModelHealthPersistWorker storeCatalog)
      [EvRecord 1000 "glm" false None None; EvSignalCase; EvTimerExpires]
    = Some (s, effects)
    ∧ @step scenarioSchemas s EvTimerCase = Some (s', written)
    ∧ written = persistProviderModelHealthStateNow s.(catalog)
    ∧ countFlushes written = 1%nat.
Proof.
  destruct (@run scenarioSchemas (startProviderModelHealthPersistWorker storeCatalog)
              [EvRecord 1000 "glm" false None None; EvSignalCase; EvTimerExpires])
    as [[s effects]|] eqn:Hrun; [|vm_compute in Hrun; discriminate Hrun].
  destruct (@step scenarioSchemas s EvTimerCase) as [[s' written]|] eqn:Hstep.
  - exists s, effects, s', written. split; [reflexivity|]. split; [exact Hstep|].
    destruct (@timer_case_writes_at_most_once scenarioSchemas storeCatalog _ s s'
                effects written Hrun Hstep) as (_ & Hwritten & _ & _ & _ & Hone & _).
    split; [exact Hwritten|]. clear Hstep Hwritten.
    vm_compute in Hrun. injection Hrun as <- <-.
    apply Hone; reflexivity.
  - vm_compute in Hrun. injection Hrun as <- <-. vm_compute in Hstep.
    discriminate Hstep.
Defined.

(** X26.  When the worker takes its stop case, in any state a run from the
    start can reach, it receives the buffered token if there is one, makes
    the one call of [persistProviderModelHealthStateNow] if a signal was
    buffered or pending and none otherwise, and
    returns with nothing pending, the channel empty and the timer not
    running.  After that no case of the worker can be taken and no timer
    expires: whatever is recorded later is never written by this worker. *)
Theorem stop_case_flushes_the_rest `{Schemas} (mc : ModelCatalog) (events : list Event)
    (s s' : System) (effects written : list Effect) :
  run (startProviderModelHealthPersistWorker mc) events = Some (s, effects) →
  step s EvStopCase = Some (s', written) →
  written = (if s.(worker).(pending)
                || bool_decide (s.(catalog).(providerModelHealthPersistSignal) = Some true)
             then persistProviderModelHealthStateNow s.(catalog) else [])
  ∧ s'.(worker).(returned) = true
  ∧ s'.(worker).(pending) = false
  ∧ s'.(catalog).(providerModelHealthPersistSignal) = Some false
  ∧ tokens s' = 0%nat
  ∧ (∀ ev, isRecord ev = false → step s' ev = None)
  ∧ (∀ later s'' effects', run s' later = Some (s'', effects') →
       countFlushes effects' = 0%nat).
Proof.
  intros Hrun Hstep.
  pose proof (run_invariant events _ _ _ (start_invariant mc) Hrun) as Hinv.
  pose proof (step_invariant _ _ _ _ Hinv Hstep) as Hinv'.
  destruct Hinv as [Hsig _].
  unfold step in Hstep. destruct (returned (worker s)) eqn:Hret; [done|].
  cbn [negb] in Hstep. unfold workerStopCase, drainSignals, flushPending in Hstep.
  assert (returned (worker s') = true ∧ timer (worker s') ≠ TimerRunning) as [Hret' Htimer].
  { destruct (providerModelHealthPersistSignal (catalog s)) as [[]|];
      destruct (pending (worker s)); cbn [negb] in Hstep; injection Hstep as <- <-;
      cbn; (split; [done|]); by destruct (timer (worker s)). }
  assert (∀ ev, isRecord ev = false → step s' ev = None) as Hdead.
  { intros ev Hev. destruct ev; try done; unfold step; rewrite ?Hret'; try done.
    by destruct (timer (worker s')). }
  destruct (providerModelHealthPersistSignal (catalog s)) as [[]|] eqn:Hs; [| |done];
    destruct (pending (worker s)) eqn:Hp; cbn [negb] in Hstep;
    injection Hstep as <- <-; rewrite ?persistNow_withSignal;
    (split_and!; [done | done | done | done | done | done |]);
    intros later s'' effects' Hlater;
    by destruct (run_after_return later _ _ _ Hinv' Hret' Hlater).
Qed.

Lemma stop_case_flushes_the_rest_witness :
  ∃ s effects s' written,
    @run scenarioSchemas (startProviderModelHealthPersistWorker callbackCatalog)
      [EvRecord 1000 "glm" false None None] = Some (s, effects)
    ∧ @step scenarioSchemas s EvStopCase = Some (s', written)
    ∧ written = [CallbackInvoked (persistCallback "persistCount")]
    ∧ tokens s' = 0%nat.
Proof.
  destruct (@run scenarioSchemas (startProviderModelHealthPersistWorker callbackCatalog)
              [EvRecord 1000 "glm" false None None])
    as [[s effects]|] eqn:Hrun; [|vm_compute in Hrun; discriminate Hrun].
  destruct (@step scenarioSchemas s EvStopCase) as [[s' written]|] eqn:Hstep.
  - exists s, effects, s', written. split; [reflexivity|]. split; [exact Hstep|].
    destruct (@stop_case_flushes_the_rest scenarioSchemas callbackCatalog _ s s'
                effects written Hrun Hstep) as (Hwritten & _ & _ & _ & Htokens & _).
    split; [|exact Htokens].
    rewrite Hwritten. vm_compute in Hrun. injection Hrun as <- <-. reflexivity.
  - vm_compute in Hrun. injection Hrun as <- <-. vm_compute in Hstep.
    discriminate Hstep.
Defined.

(** X27.  Any number of recordings, at least one, made before the worker
    wakes up, then the reception of the signal, the expiry of the debounce
    delay and the timer case: the signal is raised once and
    [persistProviderModelHealthStateNow] is called once, on the catalog of
    the last recording, after which the worker is at rest with nothing
    pending and an empty channel.  That call writes at most once, and once
    exactly when a flush callback is configured or the payload encodes; the
    payload encodes when every instant of the health map and the clock
    reading of every recording is within the years 0 to 9999.  With a flush
    callback the effects are the signal and one call of the callback. *)
Theorem burst_is_written_once `{Schemas} (mc : ModelCatalog) (records : list Event) :
  records ≠ [] →
  Forall (λ ev, isRecord ev = true) records →
  shouldPersistProviderModelHealthState mc = true →
  ∃ s,
    run (startProviderModelHealthPersistWorker mc)
      (records ++ [EvSignalCase; EvTimerExpires; EvTimerCase])
    = Some (s, SignalRaised :: persistProviderModelHealthStateNow s.(catalog))
    ∧ countSignals (SignalRaised :: persistProviderModelHealthStateNow s.(catalog))
      = 1%nat
    ∧ (countFlushes (SignalRaised :: persistProviderModelHealthStateNow s.(catalog))
       ≤ 1)%nat
    ∧ (countFlushes (SignalRaised :: persistProviderModelHealthStateNow s.(catalog))
       = 1%nat
       ↔ is_Some mc.(providerModelHealthPersistCallback)
         ∨ is_Some (sonic.Marshal
                      (getPersistedProviderModelHealthState s.(catalog))))
    ∧ (encodableHealth mc = true →
       Forall (λ ev, recordedInRange ev = true) records →
       countFlushes (SignalRaised :: persistProviderModelHealthStateNow s.(catalog))
       = 1%nat)
    ∧ s.(worker) = mkWorker false TimerIdle false false
    ∧ s.(catalog).(providerModelHealthPersistSignal) = Some false
    ∧ (∀ cb, mc.(providerModelHealthPersistCallback) = Some cb →
         persistProviderModelHealthStateNow s.(catalog) = [CallbackInvoked cb]).
Proof.
  intros Hne Hrec Hshould.
  destruct records as [|ev records]; [done|]. clear Hne.
  apply Forall_cons in Hrec as [Hev Hrec].
  destruct ev as [now provider unfiltered modelData discoveryErr| | | |]; try done.
  set (start := startProviderModelHealthPersistWorker mc).
  pose proof (Record_with_channel (catalog start) now provider unfiltered modelData
                discoveryErr) as Hone. cbv zeta in Hone.
  pose proof (Record_keeps_shouldPersist (catalog start) now provider unfiltered
                modelData discoveryErr) as Hkeep. cbv zeta in Hkeep.
  pose proof (Record_keeps_encodable (catalog start) now provider unfiltered
                modelData discoveryErr) as Henc.
  rewrite <- app_comm_cons. cbn [run step].
  destruct (RecordProviderModelDiscoveryResult (catalog start) _ _ _ _ _) as [mc1 eff1].
  cbn [fst snd] in *.
  destruct Hone as [(_ & _ & [Hno | Hno]) | (-> & _ & Hs1 & _)]; [done | | done |].
  { change (shouldPersistProviderModelHealthState (catalog start))
      with (shouldPersistProviderModelHealthState mc) in Hno. congruence. }
  destruct Hkeep as [Hk1 Hk2].
  destruct (run_records_buffered records {| catalog := mc1; worker := worker start |}
              Hrec Hs1) as (s2 & Hrun2 & Hw2 & Hs2 & Hp2 & Hcb2).
  pose proof (run_records_encodable records {| catalog := mc1; worker := worker start |}
                s2 [] Hrec) as Henc2.
  rewrite run_app, Hrun2. cbn [run step]. rewrite Hw2. cbn [worker start
    startProviderModelHealthPersistWorker returned negb andb]. rewrite Hs2.
  rewrite bool_decide_eq_true_2 by done.
  cbn [workerSignalCase worker timer pending timerC returned negb andb
       workerTimerCase flushPending catalog fst snd].
  rewrite bool_decide_eq_true_2 by done. cbn [andb].
  cbn [app]. rewrite app_nil_r.
  exists {| catalog := withSignal (Some false) (catalog s2);
            worker := mkWorker false TimerIdle false false |}.
  split; [reflexivity|]. cbn [catalog worker].
  assert (shouldPersistProviderModelHealthState (catalog s2) = true) as Hshould2.
  { rewrite Hp2. cbn [catalog]. rewrite Hk1. exact Hshould. }
  assert (providerModelHealthPersistCallback (catalog s2)
          = providerModelHealthPersistCallback mc) as Hcbs.
  { rewrite Hcb2. cbn [catalog]. by rewrite Hk2. }
  rewrite !persistNow_withSignal.
  change (getPersistedProviderModelHealthState (withSignal (Some false) (catalog s2)))
    with (getPersistedProviderModelHealthState (catalog s2)).
  assert (∀ effects, countFlushes (SignalRaised :: effects) = countFlushes effects)
    as Hcount by done.
  rewrite !Hcount.
  assert (countFlushes (persistProviderModelHealthStateNow (catalog s2)) = 1%nat
          ↔ is_Some (providerModelHealthPersistCallback mc)
            ∨ is_Some (sonic.Marshal
                         (getPersistedProviderModelHealthState (catalog s2))))
    as Hwrites.
  { rewrite persistNow_writes, Hcbs.
    unfold shouldPersistProviderModelHealthState in Hshould2. rewrite Hcbs in Hshould2.
    destruct (providerModelHealthPersistCallback mc) as [cb|].
    - split; intros _; by left.
    - apply bool_decide_eq_true in Hshould2. split.
      + intros [[? [=]] | [_ ?]]. by right.
      + intros [[? [=]] | ?]. by right. }
  split_and!; try done.
  - assert (∀ effects, countSignals (SignalRaised :: effects) = S (countSignals effects))
      as -> by done.
    by rewrite persistNow_signals.
  - apply persistNow_flushes.
  - intros Hok Hrange. apply Forall_cons in Hrange as [Hnow Hrange].
    apply Hwrites. right. rewrite marshal_encodable; [done|].
    apply (Henc2 Hrange); [|exact Hrun2]. cbn [catalog]. by apply Henc.
  - intros cb Hcb. unfold persistProviderModelHealthStateNow.
    rewrite Hcbs. by rewrite Hcb.
Qed.

Lemma burst_is_written_once_witness :
  ∃ s,
    @run scenarioSchemas (startProviderModelHealthPersistWorker storeCatalog)
      ([EvRecord 1000 "glm" false None None; EvRecord 1001 "glm" false None None;
        EvRecord 1002 "glm" false None None; EvRecord 1003 "glm" false None None;
        EvRecord 1004 "glm" false None None]
       ++ [EvSignalCase; EvTimerExpires; EvTimerCase])
    = Some (s, SignalRaised :: persistProviderModelHealthStateNow s.(catalog))
    ∧ countFlushes (SignalRaised :: persistProviderModelHealthStateNow s.(catalog))
      = 1%nat.
Proof.
  destruct (@burst_is_written_once scenarioSchemas storeCatalog
              [EvRecord 1000 "glm" false None None; EvRecord 1001 "glm" false None None;
               EvRecord 1002 "glm" false None None; EvRecord 1003 "glm" false None None;
               EvRecord 1004 "glm" false None None])
    as (s & Hrun & _ & _ & _ & Hone & _).
  - discriminate.
  - repeat constructor.
  - reflexivity.
  - exists s. split; [exact Hrun|]. apply Hone; [reflexivity | repeat constructor].
Defined.

(** ** Immediate write and snapshot time *)

(** X28.  [persistProviderModelHealthStateNow] calls the flush callback
    instead of the store whenever one is configured; without a callback and
    without a health store it does nothing.  With a store and no callback it
    sends the payload of the catalog when the payload encodes, and logs the
    failure without calling the store when it does not; it never does both.
    Whatever it sends is the payload of the catalog, in which every record
    is the one built for its provider and none is all-zero. *)
Theorem persist_now_writes_payload (mc : ModelCatalog) :
  let effects := persistProviderModelHealthStateNow mc in
  let payload := getPersistedProviderModelHealthState mc in
  (∀ cb, mc.(providerModelHealthPersistCallback) = Some cb →
     effects = [CallbackInvoked cb])
  ∧ (mc.(providerModelHealthPersistCallback) = None →
     getProviderModelHealthStore mc = None → effects = [])
  ∧ (∀ sent, StoreUpdateConfig sent ∈ effects →
       mc.(providerModelHealthPersistCallback) = None
       ∧ is_Some (getProviderModelHealthStore mc)
       ∧ sent = payload
       ∧ sonic.Marshal payload = Some sent
       ∧ ∀ p entry, sent !! p = Some entry →
           entry = persistedEntry mc p ∧ ¬ allZeroRecord entry)
  ∧ (∀ store, mc.(providerModelHealthPersistCallback) = None →
       getProviderModelHealthStore mc = Some store →
       (sonic.Marshal payload = None →
        effects = [LogWarn "failed to marshal provider model health state"])
       ∧ (is_Some (sonic.Marshal payload) →
          effects
          = StoreUpdateConfig payload
            :: match store.(UpdateConfig_error) with
               | Some _ => [LogWarn "failed to persist provider model health state"]
               | None => []
               end)
       ∧ (encodableHealth mc = true → StoreUpdateConfig payload ∈ effects)).
Proof.
  intros effects payload. subst effects payload.
  unfold persistProviderModelHealthStateNow.
  assert (∀ sent, sonic.Marshal (getPersistedProviderModelHealthState mc) = Some sent →
            sent = getPersistedProviderModelHealthState mc) as Hsent.
  { intros sent. unfold sonic.Marshal. by destruct (forallb _ _); intros [=]. }
  split_and!.
  - by intros cb ->.
  - by intros -> ->.
  - intros sent.
    destruct (providerModelHealthPersistCallback mc) as [cb|].
    { intros Hin. apply list_elem_of_singleton in Hin. discriminate Hin. }
    destruct (getProviderModelHealthStore mc) as [store|]; [|by intros ?%elem_of_nil].
    cbv zeta.
    destruct (sonic.Marshal (getPersistedProviderModelHealthState mc))
      as [payloadJSON|] eqn:Hmarshal.
    2:{ intros Hin. apply list_elem_of_singleton in Hin. discriminate Hin. }
    assert (sent = payloadJSON →
            None = (None : option PersistCallback) ∧ is_Some (Some store)
            ∧ sent = getPersistedProviderModelHealthState mc
            ∧ Some payloadJSON = Some sent
            ∧ ∀ p entry, sent !! p = Some entry →
                entry = persistedEntry mc p ∧ ¬ allZeroRecord entry) as Hok.
    { intros ->. pose proof (Hsent payloadJSON eq_refl) as ->.
      split_and!; try done.
      intros p entry Hp. by apply persisted_lookup_Some in Hp as (? & _ & ?). }
    destruct (UpdateConfig_error store).
    + rewrite elem_of_cons, list_elem_of_singleton. intros [[= ->] | [=]]. by apply Hok.
    + rewrite list_elem_of_singleton. intros [= ->]. by apply Hok.
  - intros store -> ->. cbv zeta. split_and!.
    + by intros ->.
    + intros [sent Hmarshal]. rewrite Hmarshal, (Hsent _ Hmarshal).
      by destruct (UpdateConfig_error store).
    + intros Hok. rewrite (marshal_encodable mc Hok).
      destruct (UpdateConfig_error store); apply list_elem_of_here.
Qed.

Lemma persist_now_writes_payload_witness :
  let recorded := (@RecordProviderModelDiscoveryResult scenarioSchemas storeCatalog
                     1000 "glm" false None None).1 in
  let unencodable := (@RecordProviderModelDiscoveryResult scenarioSchemas storeCatalog
                        time.yearTenThousand "glm" false None None).1 in
  persistProviderModelHealthStateNow recorded
  = [StoreUpdateConfig
       {[ "glm" := {| p_Filtered := mkDiscoveryState 1000 1000 0 "" 0;
                      p_Unfiltered := zeroDiscoveryState;
                      p_LastSnapshotUpdated := 0;
                      p_FilteredSource := "";
                      p_UnfilteredSource := "" |} ]}]
  ∧ persistProviderModelHealthStateNow unencodable
    = [LogWarn "failed to marshal provider model health state"]
  ∧ persistProviderModelHealthStateNow callbackCatalog
    = [CallbackInvoked (persistCallback "persistCount")].
Proof.
  intros recorded unencodable. split_and!.
  - destruct (persist_now_writes_payload recorded) as (_ & _ & _ & Hstore).
    destruct (Hstore (mkConfigStore true true None) eq_refl eq_refl) as (_ & Hsend & _).
    rewrite Hsend; [|by eexists; vm_compute]. vm_compute. reflexivity.
  - destruct (persist_now_writes_payload unencodable) as (_ & _ & _ & Hstore).
    destruct (Hstore (mkConfigStore true true None) eq_refl eq_refl) as (Hfail & _).
    apply Hfail. vm_compute. reflexivity.
  - destruct (persist_now_writes_payload callbackCatalog) as [Hcb _].
    apply (Hcb (persistCallback "persistCount")). reflexivity.
Defined.

(** X29.  [updateProviderModelHealthSnapshotUpdatedAtLocked] sets the
    snapshot time of one provider and nothing else: its discovery state, the
    other providers and the pools are as before, and the report shows the
    time unless it is the zero time.  It commutes with the recording of a
    discovery result: in either order the health map ends up the same, so
    neither loses what the other wrote. *)
Theorem snapshot_time_commutes_with_recording `{Schemas} (mc : ModelCatalog)
    (p : ModelProvider) (updatedAt : time.Time) :
  let mc' := updateProviderModelHealthSnapshotUpdatedAtLocked mc p updatedAt in
  (healthOf mc' p).(LastSnapshotUpdated) = updatedAt
  ∧ (healthOf mc' p).(Filtered) = (healthOf mc p).(Filtered)
  ∧ (healthOf mc' p).(Unfiltered) = (healthOf mc p).(Unfiltered)
  ∧ (∀ other, other ≠ p → healthOf mc' other = healthOf mc other)
  ∧ mc'.(modelPool) = mc.(modelPool)
  ∧ mc'.(unfilteredModelPool) = mc.(unfilteredModelPool)
  ∧ mc'.(providerModelSnapshots) = mc.(providerModelSnapshots)
  ∧ (∀ now, (reportItem mc' now p).(sh_LastSnapshotUpdated)
            = if bool_decide (updatedAt = time.zero) then None else Some updatedAt)
  ∧ (∀ now provider unfiltered modelData discoveryErr,
       recordLocked mc' now provider unfiltered modelData discoveryErr
       = updateProviderModelHealthSnapshotUpdatedAtLocked
           (recordLocked mc now provider unfiltered modelData discoveryErr)
           p updatedAt).
Proof.
  intros mc'.
  assert (∀ (base : ModelCatalog) q,
            healthOf (updateProviderModelHealthSnapshotUpdatedAtLocked base p updatedAt) q
            = if decide (p = q)
              then {| Filtered := (healthOf base p).(Filtered);
                      Unfiltered := (healthOf base p).(Unfiltered);
                      LastSnapshotUpdated := updatedAt |}
              else healthOf base q) as Hh.
  { intros base q. apply healthOf_withHealth_insert. }
  subst mc'. split_and!.
  - by rewrite Hh, decide_True.
  - by rewrite Hh, decide_True.
  - by rewrite Hh, decide_True.
  - intros other Hne. by rewrite Hh, decide_False.
  - done.
  - done.
  - done.
  - intros now. unfold reportItem. cbn [sh_LastSnapshotUpdated].
    rewrite Hh, decide_True by done. cbn [LastSnapshotUpdated].
    unfold timePtr, time.IsZero, time.zero.
    destruct (Z.eqb_spec updatedAt 0); by case_bool_decide.
  - intros now provider unfiltered modelData discoveryErr.
    unfold recordLocked. rewrite Hh.
    unfold updateProviderModelHealthSnapshotUpdatedAtLocked.
    rewrite healthOf_withHealth_insert.
    unfold withHealth.
    cbn [modelPool unfilteredModelPool providerModelSnapshots providerModelSources
         unfilteredProviderModelSources providerModelHealth baseModelIndex pricingData
         configStore providerModelHealthPersistCallback
         providerModelHealthPersistSignal].
    f_equal.
    destruct (decide (p = provider)) as [-> | Hne].
    + rewrite decide_True by done. rewrite !insert_insert_eq.
      f_equal. by destruct unfiltered.
    + rewrite decide_False by done. by rewrite insert_insert_ne.
Qed.
